(** * Inquiry intake of the tovutilab site: scoring, form validation,
      persistence and notification, embedded in Rocq.

    The Python sources are [services/models.py], [services/forms.py],
    [services/views.py], [services/admin.py] and their [core/] siblings.
    Strings are ASCII strings; the Python string primitives used by the code
    ([str.strip], [str.lower], [str.isupper], [str.split], [in],
    [re.search(r'\d')], [re.findall]) are written out below on them. *)

From Stdlib Require Import String Ascii List Arith Bool Lia DecimalString.
Import ListNotations.
Open Scope string_scope.
Open Scope nat_scope.

(** ** Python string primitives on ASCII strings *)
Module Py.

(** [str.isspace] on one character: HT, LF, VT, FF, CR, the separators
    0x1c..0x1f and the space.  The same set is [\s] of [re] on [str]. *)
Definition isspace (c : ascii) : bool :=
  let n := nat_of_ascii c in ((9 <=? n) && (n <=? 13)) || ((28 <=? n) && (n <=? 32)).

Definition isupper (c : ascii) : bool :=
  let n := nat_of_ascii c in (65 <=? n) && (n <=? 90).

Definition islower (c : ascii) : bool :=
  let n := nat_of_ascii c in (97 <=? n) && (n <=? 122).

Definition isdigit (c : ascii) : bool :=
  let n := nat_of_ascii c in (48 <=? n) && (n <=? 57).

Definition isalpha (c : ascii) : bool := isupper c || islower c.

Definition lower_char (c : ascii) : ascii :=
  if isupper c then ascii_of_nat (nat_of_ascii c + 32) else c.

(** [s.lower()] *)
Fixpoint lower (s : string) : string :=
  match s with
  | EmptyString => EmptyString
  | String c t => String (lower_char c) (lower t)
  end.

(** [s.lstrip()] *)
Fixpoint lstrip (s : string) : string :=
  match s with
  | EmptyString => EmptyString
  | String c t => if isspace c then lstrip t else s
  end.

(** [s.rstrip()] *)
Fixpoint rstrip (s : string) : string :=
  match s with
  | EmptyString => EmptyString
  | String c t =>
      match rstrip t with
      | EmptyString => if isspace c then EmptyString else String c EmptyString
      | r => String c r
      end
  end.

(** [s.strip()] *)
Definition strip (s : string) : string := rstrip (lstrip s).

(** [needle in hay] for strings *)
Fixpoint contains (needle hay : string) : bool :=
  prefix needle hay ||
  match hay with
  | EmptyString => false
  | String _ t => contains needle t
  end.

(** [sum(1 for c in s if c.isupper())] *)
Fixpoint count_upper (s : string) : nat :=
  match s with
  | EmptyString => 0
  | String c t => (if isupper c then 1 else 0) + count_upper t
  end.

(** [re.search(r'\d', s)] *)
Fixpoint has_digit (s : string) : bool :=
  match s with
  | EmptyString => false
  | String c t => isdigit c || has_digit t
  end.

(** [s.split(sep)[0]] for a one-character separator *)
Fixpoint first_segment (sep : ascii) (s : string) : string :=
  match s with
  | EmptyString => EmptyString
  | String c t => if Ascii.eqb c sep then EmptyString else String c (first_segment sep t)
  end.

(** [s.split(sep)[-1]] for a one-character separator *)
Fixpoint last_segment (sep : ascii) (s : string) : string :=
  match s with
  | EmptyString => EmptyString
  | String c t =>
      if contains (String sep EmptyString) t then last_segment sep t
      else if Ascii.eqb c sep then t else s
  end.

(** [s.split()]: maximal runs of non-whitespace characters; [cur] is the
    word read so far. *)
Fixpoint split_aux (cur s : string) : list string :=
  match s with
  | EmptyString => match cur with EmptyString => [] | _ => [cur] end
  | String c t =>
      if isspace c then
        match cur with
        | EmptyString => split_aux EmptyString t
        | _ => cur :: split_aux EmptyString t
        end
      else split_aux (cur ++ String c EmptyString) t
  end.

Definition split (s : string) : list string := split_aux EmptyString s.

(** [len(set(xs))] *)
Definition len_set (xs : list string) : nat := length (nodup string_dec xs).

(** One match of [r'https?://[^\s]+'] at the head of [l]: the rest of the
    input after the (greedy) match. *)
Fixpoint drop_nonspace (l : list ascii) : list ascii :=
  match l with
  | [] => []
  | c :: t => if isspace c then l else drop_nonspace t
  end.

Definition url_tail (r : list ascii) : option (list ascii) :=
  match r with
  | c :: _ => if isspace c then None else Some (drop_nonspace r)
  | [] => None
  end.

Definition match_url (l : list ascii) : option (list ascii) :=
  match l with
  | "h"%char :: "t"%char :: "t"%char :: "p"%char :: rest =>
      match rest with
      | "s"%char :: ":"%char :: "/"%char :: "/"%char :: r => url_tail r
      | ":"%char :: "/"%char :: "/"%char :: r => url_tail r
      | _ => None
      end
  | _ => None
  end.

(** Number of non-overlapping matches found left to right, as [re.findall];
    [fuel] is the input length, every step consumes a character. *)
Fixpoint findall_urls (fuel : nat) (l : list ascii) : nat :=
  match fuel with
  | O => 0
  | S f =>
      match l with
      | [] => 0
      | _ :: t =>
          match match_url l with
          | Some rest => S (findall_urls f rest)
          | None => findall_urls f t
          end
      end
  end.

Definition count_urls (s : string) : nat :=
  let l := list_ascii_of_string s in findall_urls (length l) l.

(** [any(k in s for k in ks)] and [sum(1 for k in ks if k in s)] *)
Definition any_in (ks : list string) (s : string) : bool :=
  existsb (fun k => contains k s) ks.

Definition count_in (ks : list string) (s : string) : nat :=
  length (filter (fun k => contains k s) ks).

Definition in_list (x : string) (xs : list string) : bool :=
  existsb (String.eqb x) xs.

Definition is_empty (s : string) : bool :=
  match s with EmptyString => true | _ => false end.

(** [d.get(k, default)] on a dict literal *)
Fixpoint dict_get (d : list (string * string)) (k default : string) : string :=
  match d with
  | [] => default
  | (k', v) :: t => if String.eqb k k' then v else dict_get t k default
  end.


End Py.

Import Py.


(** ** Request-time effects: the database, the log and the mail backend

    A view runs in a state and exception monad: Python exceptions propagate
    through [bind] and are caught by [try_except]; whatever was written to
    the database, the log or the mail backend before an exception stays
    written, as in the source (no transaction wraps the view). *)
Module Effects.

Inductive exc :=
| ValidationError (errors : list (string * string))
| DatabaseError
| SMTPException.

Inductive mail_kind := AdminNotification | ClientConfirmation.

(** An [EmailMultiAlternatives] message. *)
Record mail := mkMail {
  kind : mail_kind;
  subject : string;
  to_ : list string;
  reply_to : list string
}.

(** [db]: the table rows by primary key; [attempts]: every [send()] call
    made; [outbox]: the messages the backend accepted. *)
Record world (R : Type) := mkWorld {
  db : list (nat * R);
  next_id : nat;
  log : list (string * string);
  attempts : list mail;
  outbox : list mail
}.
Arguments mkWorld {R}.
Arguments db {R}.
Arguments next_id {R}.
Arguments log {R}.
Arguments attempts {R}.
Arguments outbox {R}.

Definition M (R A : Type) : Type := world R -> (exc + A) * world R.

Definition ret {R A} (a : A) : M R A := fun w => (inr a, w).

Definition bind {R A B} (m : M R A) (k : A -> M R B) : M R B :=
  fun w => match m w with
           | (inl e, w') => (inl e, w')
           | (inr a, w') => k a w'
           end.

Definition raise {R A} (e : exc) : M R A := fun w => (inl e, w).

(** [try: m  except Exception as e: h e] *)
Definition try_except {R A} (m : M R A) (h : exc -> M R A) : M R A :=
  fun w => match m w with
           | (inl e, w') => h e w'
           | ok => ok
           end.

Notation "x <- c1 ;; c2" := (bind c1 (fun x => c2))
  (at level 61, c1 at next level, right associativity).
Notation "c1 ;;; c2" := (bind c1 (fun _ => c2))
  (at level 61, right associativity).

(** [logger.<level>(msg)] *)
Definition log_msg {R} (level msg : string) : M R unit :=
  fun w => (inr tt, mkWorld (db w) (next_id w) (log w ++ [(level, msg)])
                            (attempts w) (outbox w)).

(** [msg.send(fail_silently=False)]: the call is recorded, and the message
    is delivered when the backend accepts it, otherwise [send] raises. *)
Definition send {R} (transport_ok : mail -> bool) (m : mail) : M R unit :=
  fun w =>
    let w1 := mkWorld (db w) (next_id w) (log w) (attempts w ++ [m]) (outbox w) in
    if transport_ok m
    then (inr tt, mkWorld (db w1) (next_id w1) (log w1) (attempts w1) (outbox w1 ++ [m]))
    else (inl SMTPException, w1).

Fixpoint lookup {R} (k : nat) (rows : list (nat * R)) : option R :=
  match rows with
  | [] => None
  | (k', r) :: t => if Nat.eqb k k' then Some r else lookup k t
  end.

Fixpoint update {R} (k : nat) (r : R) (rows : list (nat * R)) : list (nat * R) :=
  match rows with
  | [] => []
  | (k', r') :: t => if Nat.eqb k k' then (k', r) :: t else (k', r') :: update k r t
  end.

(** [Model.save()] after validation: an INSERT when the instance has no
    primary key yet (the database assigns the next id); otherwise an UPDATE
    of that row, or an INSERT under that key when no row was updated.
    A failing statement raises and changes nothing. *)
Definition db_write {R} (db_up : bool) (pk : option nat) (r : R) : M R nat :=
  fun w =>
    if negb db_up then (inl DatabaseError, w) else
    match pk with
    | None =>
        let id := next_id w in
        (inr id, mkWorld (db w ++ [(id, r)]) (S id) (log w) (attempts w) (outbox w))
    | Some id =>
        match lookup id (db w) with
        | Some _ =>
            (inr id, mkWorld (update id r (db w)) (next_id w) (log w) (attempts w) (outbox w))
        | None =>
            (inr id, mkWorld (db w ++ [(id, r)]) (Nat.max (S id) (next_id w))
                             (log w) (attempts w) (outbox w))
        end
    end.

(** [queryset.update(...)]: a single UPDATE on every row selected by [sel],
    bypassing [save()]. *)
Definition db_update_where {R} (sel : nat -> R -> bool) (f : R -> R) : M R unit :=
  fun w =>
    (inr tt, mkWorld (map (fun kr => if sel (fst kr) (snd kr) then (fst kr, f (snd kr)) else kr) (db w))
                     (next_id w) (log w) (attempts w) (outbox w)).

Definition get_row {R} (k : nat) : M R (option R) := fun w => (inr (lookup k (db w)), w).

End Effects.

Import Effects.

(** ** Django form cleaning ([BaseForm.full_clean])

    Each field is first cleaned by its form field ([to_python], the
    [required] check, then its validators), then by the form's
    [clean_<name>] method when it has one.  Every field is cleaned, in the
    form's field order, and every failure is recorded as an error of that
    field; the form is valid when no error was recorded. *)
Module Forms.

(** What a [clean_<name>] method returns or raises. *)
Inductive outcome := Ok (v : string) | Err (code : string).

(** What cleaning one field gives: its value, or the codes of every
    [ValidationError] recorded for it. *)
Inductive field_result := Cleaned (v : string) | Errors (codes : list string).

(** The parts of Django the code relies on without defining them:
    [email_syntax_ok] is [EmailValidator]; [url_to_python] is
    [forms.URLField.to_python] on a stripped non-empty value (it adds a
    missing scheme; [None] when [urlsplit] fails); [url_syntax_ok] is
    [URLValidator]; [ip_clean] is [GenericIPAddressField.clean] on a
    non-empty value (the normalised address, [None] when it is invalid);
    [service_exists] tells whether a [Service] row has that key. *)
Record validators := mkValidators {
  email_syntax_ok : string -> bool;
  url_to_python : string -> option string;
  url_syntax_ok : string -> bool;
  ip_clean : string -> option string;
  service_exists : string -> bool
}.

Inductive field_kind :=
| KChar (required : bool) (max_length : option nat)      (* CharField, strip=True *)
| KEmail (required : bool) (max_length : nat)            (* EmailField *)
| KURL (required : bool) (max_length : nat)              (* URLField *)
| KChoice (required : bool) (choices : list string)      (* TypedChoiceField *)
| KModelChoice (required : bool)                         (* ModelChoiceField *)
| KBool (required : bool).                               (* BooleanField *)

Record field := mkField {
  fname : string;
  fkind : field_kind;
  clean_method : option (string -> outcome)
}.

Definition too_long (ml : option nat) (v : string) : bool :=
  match ml with Some n => n <? String.length v | None => false end.

Definition NUL : string := String (ascii_of_nat 0) EmptyString.

(** The validators of a form [CharField] (and of [EmailField] and
    [URLField], which extend it) on a non-empty value, in their order: the
    field's default validator when it has one, [MaxLengthValidator], then
    [ProhibitNullCharactersValidator].  [run_validators] runs them all and
    reports every one that fails. *)
Definition char_validators (default_ok : option bool) (ml : option nat) (v : string)
  : list string :=
  ((match default_ok with Some false => ["invalid"] | _ => [] end)
   ++ (if too_long ml v then ["max_length"] else [])
   ++ (if contains NUL v then ["null_characters_not_allowed"] else []))%list.

Definition run_validators (v : string) (errs : list string) : field_result :=
  match errs with [] => Cleaned v | _ => Errors errs end.

(** [Field.clean(value)]: [to_python], [validate] (the [required] check and,
    for choices, [invalid_choice]), then [run_validators] on a non-empty
    value. *)
Definition field_clean (V : validators) (k : field_kind) (raw : string) : field_result :=
  match k with
  | KChar req ml =>
      let v := strip raw in
      if is_empty v then (if req then Errors ["required"] else Cleaned v)
      else run_validators v (char_validators None ml v)
  | KEmail req ml =>
      let v := strip raw in
      if is_empty v then (if req then Errors ["required"] else Cleaned v)
      else run_validators v (char_validators (Some (email_syntax_ok V v)) (Some ml) v)
  | KURL req ml =>
      let v := strip raw in
      match (if is_empty v then Some v else url_to_python V v) with
      | None => Errors ["invalid"]
      | Some u =>
          if is_empty u then (if req then Errors ["required"] else Cleaned u)
          else run_validators u (char_validators (Some (url_syntax_ok V u)) (Some ml) u)
      end
  | KChoice req cs =>
      if is_empty raw then (if req then Errors ["required"] else Cleaned raw)
      else if in_list raw cs then Cleaned raw else Errors ["invalid_choice"]
  | KModelChoice req =>
      if is_empty raw then (if req then Errors ["required"] else Cleaned raw)
      else if service_exists V raw then Cleaned raw else Errors ["invalid_choice"]
  | KBool req =>
      (* [CheckboxInput.value_from_datadict]: ["true"] and ["false"] in any
         case are read as booleans, any other value by its truth *)
      let b := negb (is_empty raw || String.eqb (lower raw) "false") in
      if req && negb b then Errors ["required"] else Cleaned (if b then "True" else "")
  end.

(** One field: the form field, then [clean_<name>] on its cleaned value. *)
Definition clean_field (V : validators) (f : field) (raw : string) : field_result :=
  match field_clean V (fkind f) raw with
  | Errors es => Errors es
  | Cleaned v =>
      match clean_method f with
      | Some m => match m v with Ok v' => Cleaned v' | Err e => Errors [e] end
      | None => Cleaned v
      end
  end.

(** [cleaned_data.get(k)], a missing key read as the empty string. *)
Fixpoint get (data : list (string * string)) (k : string) : string :=
  match data with
  | [] => EmptyString
  | (k', v) :: t => if String.eqb k k' then v else get t k
  end.

(** [request.POST.get(k)]: the last value posted under [k]; a missing key
    gives [None], which every field reads as the empty string. *)
Fixpoint post_get (data : list (string * string)) (k : string) : string :=
  match data with
  | [] => EmptyString
  | (k', v) :: t =>
      if existsb (fun kv => String.eqb k (fst kv)) t then post_get t k
      else if String.eqb k k' then v else EmptyString
  end.

(** [_clean_fields]: the cleaned data and the field errors, in field order. *)
Fixpoint clean_fields (V : validators) (fs : list field) (data : list (string * string))
  : list (string * string) * list (string * string) :=
  match fs with
  | [] => ([], [])
  | f :: t =>
      let '(cd, errs) := clean_fields V t data in
      match clean_field V f (post_get data (fname f)) with
      | Cleaned v => ((fname f, v) :: cd, errs)
      | Errors es => (cd, (map (fun e => (fname f, e)) es ++ errs)%list)
      end
  end.

End Forms.

Import Forms.

(** ** What a view hands back to the client *)
Inductive response :=
| JsonResponse (status : nat) (success : bool) (message : string)
    (inquiry_id : option nat) (errors : list (string * string))
| Redirect (target : string) (flash : option (string * string))
| Render (template : string) (flash : option (string * string)).

(** The [request.META] entries the forms' [save] reads; an absent entry
    is [None]. *)
Record request_meta := mkMeta {
  HTTP_X_FORWARDED_FOR : option string;
  REMOTE_ADDR : option string;
  HTTP_USER_AGENT : option string;
  HTTP_REFERER : option string
}.

(** The context of a request besides its POST data: Django's own
    validators, whether the database accepts the writes, whether the SMTP
    backend accepts a message, [timezone.now()], [settings.ADMIN_EMAIL] and
    the request metadata. *)
Record env := mkEnv {
  V : validators;
  db_up : bool;
  transport_ok : mail -> bool;
  now : nat;
  admin_email : string;
  meta : request_meta
}.

(** A model field's [clean] inside [Model.clean_fields]: a blank field
    allowed to be blank is skipped, otherwise the [blank] check and the
    validators (max_length, MinLengthValidator, choices and the like). *)
Definition model_char (name : string) (blank : bool) (ml : option nat) (minl : nat)
  (ok : string -> bool) (v : string) : list (string * string) :=
  if is_empty v then (if blank then [] else [(name, "blank")])
  else if too_long ml v then [(name, "max_length")]
  else if String.length v <? minl then [(name, "min_length")]
  else if ok v then [] else [(name, "invalid")].

Definition any_ok (_ : string) : bool := true.

(** [re.sub(r'[\s\-\(\)\+]', '', phone)] *)
Fixpoint strip_phone_formatting (s : string) : string :=
  match s with
  | EmptyString => EmptyString
  | String c t =>
      if isspace c || Ascii.eqb c "-" || Ascii.eqb c "(" || Ascii.eqb c ")" || Ascii.eqb c "+"
      then strip_phone_formatting t else String c (strip_phone_formatting t)
  end.

(** [s.isdigit()]: non-empty and all digits *)
Fixpoint all_digits (s : string) : bool :=
  match s with
  | EmptyString => true
  | String c t => isdigit c && all_digits t
  end.

Definition str_isdigit (s : string) : bool := negb (is_empty s) && all_digits s.

(** [len(re.findall(r"[^a-zA-Z\s\-\']", name))] *)
Fixpoint count_special (s : string) : nat :=
  match s with
  | EmptyString => 0
  | String c t =>
      (if isalpha c || isspace c || Ascii.eqb c "-" || Ascii.eqb c "'" then 0 else 1)
      + count_special t
  end.

(** ** [services]: [ServiceInquiry], its form, view and admin actions *)
Module Services.

(** The [ServiceInquiry] columns the inquiry code reads or writes (the
    internal management fields other than [status], [is_spam] and
    [contacted_at], which no code sets, are left out). *)
Record ServiceInquiry := mkServiceInquiry {
  full_name : string;
  email : string;
  phone : string;
  company : string;
  service : option string;
  project_type : string;
  project_description : string;
  budget_range : string;
  timeline : string;
  reference_url : string;
  additional_notes : string;
  status : string;
  ip_address : option string;
  user_agent : string;
  referrer : string;
  is_spam : bool;
  contacted_at : option nat
}.

Definition set_is_spam (b : bool) (i : ServiceInquiry) : ServiceInquiry :=
  {| full_name := full_name i; email := email i; phone := phone i; company := company i;
     service := service i; project_type := project_type i;
     project_description := project_description i; budget_range := budget_range i;
     timeline := timeline i; reference_url := reference_url i;
     additional_notes := additional_notes i; status := status i;
     ip_address := ip_address i; user_agent := user_agent i; referrer := referrer i;
     is_spam := b;
     contacted_at := contacted_at i |}.

Definition set_status (s : string) (i : ServiceInquiry) : ServiceInquiry :=
  {| full_name := full_name i; email := email i; phone := phone i; company := company i;
     service := service i; project_type := project_type i;
     project_description := project_description i; budget_range := budget_range i;
     timeline := timeline i; reference_url := reference_url i;
     additional_notes := additional_notes i; status := s;
     ip_address := ip_address i; user_agent := user_agent i; referrer := referrer i;
     is_spam := is_spam i;
     contacted_at := contacted_at i |}.

Definition set_contacted_at (t : option nat) (i : ServiceInquiry) : ServiceInquiry :=
  {| full_name := full_name i; email := email i; phone := phone i; company := company i;
     service := service i; project_type := project_type i;
     project_description := project_description i; budget_range := budget_range i;
     timeline := timeline i; reference_url := reference_url i;
     additional_notes := additional_notes i; status := status i;
     ip_address := ip_address i; user_agent := user_agent i; referrer := referrer i;
     is_spam := is_spam i;
     contacted_at := t |}.

Definition set_ip_address (a : option string) (i : ServiceInquiry) : ServiceInquiry :=
  {| full_name := full_name i; email := email i; phone := phone i; company := company i;
     service := service i; project_type := project_type i;
     project_description := project_description i; budget_range := budget_range i;
     timeline := timeline i; reference_url := reference_url i;
     additional_notes := additional_notes i; status := status i;
     ip_address := a; user_agent := user_agent i; referrer := referrer i;
     is_spam := is_spam i; contacted_at := contacted_at i |}.

Definition STATUS_CHOICES :=
  ["new"; "reviewing"; "contacted"; "quoted"; "converted"; "declined"; "spam"].
Definition BUDGET_CHOICES :=
  ["under_5k"; "5k_10k"; "10k_25k"; "25k_50k"; "50k_100k"; "over_100k"; "not_sure"].
Definition TIMELINE_CHOICES := ["asap"; "flexible"; "planned"; "ongoing"].

(** [ServiceInquiry.get_priority_score] *)
Definition get_priority_score (i : ServiceInquiry) : nat :=
  let score := 5 in
  let score :=
    if in_list (budget_range i) ["over_100k"] then score + 3
    else if in_list (budget_range i) ["50k_100k"] then score + 2
    else if in_list (budget_range i) ["25k_50k"] then score + 1
    else score in
  let score :=
    if String.eqb (timeline i) "asap" then score + 2
    else if String.eqb (timeline i) "flexible" then score + 1
    else score in
  let score := match service i with Some _ => score + 1 | None => score end in
  Nat.min score 10.

Definition scoring_spam_keywords :=
  ["viagra"; "casino"; "lottery"; "bitcoin"; "crypto";
   "porn"; "xxx"; "dating"; "pills"; "supplements";
   "weight loss"; "make money"; "work from home";
   "click here"; "buy now"; "limited offer"].

Definition free_email_domains :=
  ["gmail.com"; "yahoo.com"; "hotmail.com"; "outlook.com";
   "aol.com"; "icloud.com"; "mail.com"; "protonmail.com"].

(** [views._calculate_spam_score].  [caps_ratio > 0.5] is
    [2 * uppercase > len]: the float quotient of two lengths below 2^52 is
    above 0.5 exactly when the rational one is. *)
Definition calculate_spam_score (i : ServiceInquiry) : nat :=
  let d := project_description i in
  let score := 0 in
  let score :=
    if negb (is_empty d) then
      let description_lower := lower d in
      let score :=
        if 0 <? String.length d then
          (if String.length d <? 2 * count_upper d then score + 2 else score)
        else score in
      let keyword_matches := count_in scoring_spam_keywords description_lower in
      score + Nat.min (keyword_matches * 2) 5
    else score in
  let score :=
    if negb (is_empty (email i)) then
      let email_domain := lower (last_segment "@" (email i)) in
      if in_list email_domain free_email_domains then score + 1 else score
    else score in
  let score :=
    if String.eqb (budget_range i) "under_5k" && String.eqb (timeline i) "asap"
    then score + 1 else score in
  let score :=
    if negb (is_empty d) then
      let desc_length := String.length d in
      if (desc_length <? 30) || (2000 <? desc_length) then score + 1 else score
    else score in
  let score := if is_empty (phone i) && is_empty (company i) then score + 1 else score in
  Nat.min score 10.

(** *** [ServiceInquiryForm] *)

(** [clean_website]: the honeypot must be empty. *)
Definition clean_website (website : string) : outcome :=
  if negb (is_empty website) then Err "spam_detected" else Ok website.

(** [clean_full_name] *)
Definition clean_full_name (v : string) : outcome :=
  let full_name := strip v in
  if String.length full_name <? 2 then Err "name_too_short"
  else if has_digit full_name then Err "invalid_name_format"
  else if 2 <? count_special full_name then Err "invalid_name_format"
  else Ok full_name.

Definition spam_domains :=
  ["tempmail.com"; "throwaway.email"; "10minutemail.com";
   "guerrillamail.com"; "mailinator.com"].

(** [clean_email] *)
Definition clean_email (v : string) : outcome :=
  let email := lower (strip v) in
  let email_domain := if contains "@" email then last_segment "@" email else EmptyString in
  if in_list email_domain spam_domains then Err "temporary_email" else Ok email.

(** [clean_phone] *)
Definition clean_phone (v : string) : outcome :=
  let phone := strip v in
  if negb (is_empty phone) then
    let phone_digits := strip_phone_formatting phone in
    if negb (str_isdigit phone_digits) then Err "invalid_phone"
    else if (String.length phone_digits <? 7) || (15 <? String.length phone_digits)
    then Err "invalid_phone_length"
    else Ok phone
  else Ok phone.

Definition form_spam_keywords :=
  ["viagra"; "casino"; "lottery"; "bitcoin"; "crypto";
   "porn"; "xxx"; "dating"; "hookup"; "pills"].

(** [clean_project_description].  [len(words) / len(unique_words) > 3] is
    [3 * unique < words] (exact for lengths below 2^50). *)
Definition clean_project_description (v : string) : outcome :=
  let description := strip v in
  if String.length description <? 20 then Err "description_too_short" else
  let description_lower := lower description in
  if any_in form_spam_keywords description_lower then Err "spam_content" else
  if 3 <? count_urls description then Err "too_many_urls" else
  let words := split description_lower in
  if (10 <? length words) && (3 * len_set words <? length words)
  then Err "spam_repetition"
  else Ok description.

(** [clean_reference_url] *)
Definition clean_reference_url (v : string) : outcome :=
  let url := strip v in
  if negb (is_empty url) && any_in ["bit.ly"; "tinyurl"; "goo.gl"] (lower url)
  then Err "shortened_url" else Ok url.

(** The form's fields in Django's order: [Meta.fields], then the declared
    [website] and [accept_terms].  Each model field gives the form field
    Django derives from it ([blank=True] fields and [service] are optional). *)
Definition form_fields : list field :=
  [ mkField "full_name" (KChar true (Some 150)) (Some clean_full_name);
    mkField "email" (KEmail true 254) (Some clean_email);
    mkField "phone" (KChar false (Some 20)) (Some clean_phone);
    mkField "company" (KChar false (Some 200)) None;
    mkField "service" (KModelChoice false) None;
    mkField "project_type" (KChar true (Some 100)) None;
    mkField "project_description" (KChar true None) (Some clean_project_description);
    mkField "budget_range" (KChoice true BUDGET_CHOICES) None;
    mkField "timeline" (KChoice true TIMELINE_CHOICES) None;
    mkField "reference_url" (KURL false 500) (Some clean_reference_url);
    mkField "additional_notes" (KChar false None) None;
    mkField "website" (KChar false None) (Some clean_website);
    mkField "accept_terms" (KBool true) None ].

(** [construct_instance]: a new, unsaved inquiry from the cleaned data
    (fields that failed keep their empty default). *)
Definition construct_instance (cd : list (string * string)) : ServiceInquiry :=
  {| full_name := get cd "full_name"; email := get cd "email"; phone := get cd "phone";
     company := get cd "company";
     service := (let s := get cd "service" in if is_empty s then None else Some s);
     project_type := get cd "project_type";
     project_description := get cd "project_description";
     budget_range := get cd "budget_range"; timeline := get cd "timeline";
     reference_url := get cd "reference_url"; additional_notes := get cd "additional_notes";
     status := "new"; ip_address := None; user_agent := ""; referrer := "";
     is_spam := false; contacted_at := None |}.

(** [ServiceInquiryForm.save(commit=False, request=request)]: the request
    metadata copied onto the unsaved instance. *)
Definition form_save (m : request_meta) (i : ServiceInquiry) : ServiceInquiry :=
  let ip :=
    match HTTP_X_FORWARDED_FOR m with
    | Some x => if negb (is_empty x) then Some (strip (first_segment "," x)) else REMOTE_ADDR m
    | None => REMOTE_ADDR m
    end in
  let ua := substring 0 500 (match HTTP_USER_AGENT m with Some u => u | None => "" end) in
  let rf := substring 0 500 (match HTTP_REFERER m with Some r => r | None => "" end) in
  {| full_name := full_name i; email := email i; phone := phone i; company := company i;
     service := service i; project_type := project_type i;
     project_description := project_description i; budget_range := budget_range i;
     timeline := timeline i; reference_url := reference_url i;
     additional_notes := additional_notes i; status := status i;
     ip_address := ip; user_agent := ua; referrer := rf;
     is_spam := is_spam i; contacted_at := contacted_at i |}.

(** *** The model's own validation *)

Definition model_spam_keywords :=
  ["viagra"; "casino"; "crypto"; "bitcoin"; "lottery"; "porn"].

(** [re.compile(r'^[\d\s\+\-\(\)]+$').match(phone)] *)
Fixpoint phone_chars_ok (s : string) : bool :=
  match s with
  | EmptyString => true
  | String c t =>
      (isdigit c || isspace c || Ascii.eqb c "+" || Ascii.eqb c "-"
       || Ascii.eqb c "(" || Ascii.eqb c ")") && phone_chars_ok t
  end.

Definition phone_pattern_match (s : string) : bool := negb (is_empty s) && phone_chars_ok s.

(** [ServiceInquiry.clean]: the errors it raises and the instance as it
    leaves it ([is_spam] may have been set). *)
Definition clean (i : ServiceInquiry) : list (string * string) * ServiceInquiry :=
  if negb (is_empty (phone i)) && negb (phone_pattern_match (phone i))
  then ([("phone", "Please enter a valid phone number.")], i)
  else
    let description_lower := lower (project_description i) in
    let i := if any_in model_spam_keywords description_lower then set_is_spam true i else i in
    ([], i).

(** [Model.clean_fields] over the columns of the record: a blank field
    allowed to be blank is skipped, every other field's [clean] result is
    assigned back to the instance (only [GenericIPAddressField] changes the
    value it cleans).  The errors and the instance as it leaves it. *)
Definition clean_fields (Vd : validators) (i : ServiceInquiry)
  : list (string * string) * ServiceInquiry :=
  let '(ip_errs, ip) :=
    match ip_address i with
    | Some a =>
        if is_empty a then ([], Some a)
        else match ip_clean Vd a with
             | Some a' => ([], Some a')
             | None => ([("ip_address", "invalid")], Some a)
             end
    | None => ([], None)
    end in
  ((model_char "full_name" false (Some 150) 2 any_ok (full_name i)
  ++ model_char "email" false (Some 254) 0 (email_syntax_ok Vd) (email i)
  ++ model_char "phone" true (Some 20) 0 any_ok (phone i)
  ++ model_char "company" true (Some 200) 0 any_ok (company i)
  ++ (match service i with
      | Some s => if service_exists Vd s then [] else [("service", "invalid")]
      | None => [] end)
  ++ model_char "project_type" false (Some 100) 0 any_ok (project_type i)
  ++ model_char "project_description" false None 20 any_ok (project_description i)
  ++ model_char "budget_range" false (Some 20) 0 (fun v => in_list v BUDGET_CHOICES) (budget_range i)
  ++ model_char "timeline" false (Some 20) 0 (fun v => in_list v TIMELINE_CHOICES) (timeline i)
  ++ model_char "reference_url" true (Some 500) 0 (url_syntax_ok Vd) (reference_url i)
  ++ model_char "status" false (Some 20) 0 (fun v => in_list v STATUS_CHOICES) (status i)
  ++ ip_errs
  ++ model_char "user_agent" true (Some 500) 0 any_ok (user_agent i)
  ++ model_char "referrer" true (Some 500) 0 (url_syntax_ok Vd) (referrer i))%list,
   set_ip_address ip i).

(** [Model.full_clean]: [clean_fields], then [clean] on the instance as
    [clean_fields] left it (it runs even when [clean_fields] failed). *)
Definition full_clean (Vd : validators) (i : ServiceInquiry)
  : list (string * string) * ServiceInquiry :=
  let '(e1, i1) := clean_fields Vd i in
  let '(e2, i2) := clean i1 in
  ((e1 ++ e2)%list, i2).

(** [ServiceInquiry.save]: [self.full_clean()] then [super().save()];
    returns the primary key and the instance as saved. *)
Definition save (E : env) (pk : option nat) (i : ServiceInquiry)
  : M ServiceInquiry (nat * ServiceInquiry) :=
  let '(errs, i') := full_clean (V E) i in
  match errs with
  | [] => id <- db_write (db_up E) pk i' ;; ret (id, i')
  | _ => raise (ValidationError errs)
  end.

(** [form.is_valid()]: [_clean_fields], [clean] (which raises nothing and
    leaves [is_spam] false), then [_post_clean], which builds the instance
    and runs the model's [clean] on it.  The model's field validators re-run
    there only repeat what the form fields checked, so they add no error. *)
Definition form_full_clean (Vd : validators) (data : list (string * string))
  : list (string * string) * ServiceInquiry :=
  let '(cd, errs) := Forms.clean_fields Vd form_fields data in
  let '(e2, inst) := clean (construct_instance cd) in
  ((errs ++ e2)%list, inst).

(** *** [ServiceInquiry.mark_as_contacted] *)
Definition mark_as_contacted (E : env) (pk : nat) (i : ServiceInquiry)
  : M ServiceInquiry (nat * ServiceInquiry) :=
  let i := match contacted_at i with None => set_contacted_at (Some (now E)) i | Some _ => i end in
  let i := if String.eqb (status i) "new" then set_status "contacted" i else i in
  save E (Some pk) i.

(** *** [views._send_inquiry_notifications]
    (template rendering is taken not to fail) *)
Definition send_inquiry_notifications (E : env) (inquiry : ServiceInquiry)
  (service_title : option string) : M ServiceInquiry unit :=
  let admin_subject :=
    ("New Service Inquiry: " ++ project_type inquiry
     ++ match service_title with Some t => " (" ++ t ++ ")" | None => "" end)%string in
  let admin_email_msg :=
    mkMail AdminNotification admin_subject [admin_email E] [email inquiry] in
  send (transport_ok E) admin_email_msg ;;;
  log_msg "info" "Admin notification sent for inquiry" ;;;
  let client_email :=
    mkMail ClientConfirmation "We've Received Your Project Inquiry - Cascade Digital"
      [email inquiry] [admin_email E] in
  send (transport_ok E) client_email ;;;
  log_msg "info" "Client confirmation sent".

Definition success_message :=
  "Thank you for your inquiry! We'll review your project details and get back to you within 24 hours.".
Definition error_message :=
  "We encountered an error processing your inquiry. Please try again or contact us directly.".

(** *** [views.service_inquiry_submit] for the active service [service_title]
    of the URL ([get_object_or_404] found it).  The pre-set
    [form.instance.service] is overwritten by the form's [service] field. *)
Definition service_inquiry_submit (E : env) (is_ajax : bool) (service_title : string)
  (post : list (string * string)) : M ServiceInquiry response :=
  let '(errs, inst) := form_full_clean (V E) post in
  match errs with
  | [] =>
      try_except
        (let inquiry := form_save (meta E) inst in
         let spam_score := calculate_spam_score inquiry in
         let inquiry := if 7 <? spam_score then set_is_spam true inquiry else inquiry in
         (if 7 <? spam_score then log_msg "warning" "Potential spam inquiry detected"
          else ret tt) ;;;
         saved <- save E None inquiry ;;
         let id := fst saved in
         let inquiry := snd saved in
         try_except (send_inquiry_notifications E inquiry (Some service_title))
           (fun _ => log_msg "error" "Failed to send inquiry notification emails") ;;;
         ret (if is_ajax then JsonResponse 200 true success_message (Some id) []
              else Redirect "services:inquiry_success" (Some ("success", success_message))))
        (fun _ =>
           log_msg "error" "Error processing service inquiry" ;;;
           ret (if is_ajax then JsonResponse 500 false error_message None []
                else Redirect "services:service_detail" (Some ("error", error_message))))
  | _ =>
      ret (if is_ajax
           then JsonResponse 400 false "Please correct the errors below." None errs
           else Redirect "services:service_detail"
                  (Some ("error", "Please correct the errors in the form below.")))
  end.

(** *** [ServiceInquiryAdmin] actions on the selected primary keys *)

Definition selected (sel : list nat) (k : nat) (_ : ServiceInquiry) : bool :=
  existsb (Nat.eqb k) sel.

(** [for inquiry in queryset: body]: the rows are read once, then the body
    runs on each in turn; an exception stops the loop. *)
Fixpoint for_each (rows : list (nat * ServiceInquiry))
  (body : nat -> ServiceInquiry -> M ServiceInquiry unit) : M ServiceInquiry unit :=
  match rows with
  | [] => ret tt
  | (k, r) :: t => body k r ;;; for_each t body
  end.

Definition queryset (sel : list nat) : M ServiceInquiry (list (nat * ServiceInquiry)) :=
  fun w => (inr (filter (fun kr => selected sel (fst kr) (snd kr)) (db w)), w).

Inductive admin_action :=
| MarkAsNew | MarkAsReviewing | MarkAsContacted | MarkAsQuoted | MarkAsSpam | MarkAsNotSpam.

Definition run_admin_action (E : env) (a : admin_action) (sel : list nat)
  : M ServiceInquiry unit :=
  match a with
  | MarkAsNew => db_update_where (selected sel) (set_status "new")
  | MarkAsReviewing => db_update_where (selected sel) (set_status "reviewing")
  | MarkAsContacted =>
      rows <- queryset sel ;;
      for_each rows (fun k inquiry =>
        let inquiry := match contacted_at inquiry with
                       | None => set_contacted_at (Some (now E)) inquiry
                       | Some _ => inquiry end in
        let inquiry := set_status "contacted" inquiry in
        save E (Some k) inquiry ;;; ret tt)
  | MarkAsQuoted => db_update_where (selected sel) (set_status "quoted")
  | MarkAsSpam => db_update_where (selected sel) (fun i => set_status "spam" (set_is_spam true i))
  | MarkAsNotSpam =>
      db_update_where (fun k i => selected sel k i && is_spam i)
        (fun i => set_status "new" (set_is_spam false i))
  end.

(** The operations of the code on stored service inquiries. *)
Inductive op :=
| Submit (is_ajax : bool) (service_title : string) (post : list (string * string))
| MarkContacted (pk : nat)
| Admin (a : admin_action) (sel : list nat).

Definition run_op (E : env) (o : op) : M ServiceInquiry unit :=
  match o with
  | Submit aj t p => service_inquiry_submit E aj t p ;;; ret tt
  | MarkContacted pk =>
      r <- get_row pk ;;
      match r with
      | Some i => mark_as_contacted E pk i ;;; ret tt
      | None => raise DatabaseError
      end
  | Admin a sel => run_admin_action E a sel
  end.

(** Requests served one after the other; a request that fails with an
    exception (a 500 page) does not stop the next one. *)
Fixpoint run_requests (rs : list (env * op)) (w : world ServiceInquiry)
  : world ServiceInquiry :=
  match rs with
  | [] => w
  | (E, o) :: t => run_requests t (snd (run_op E o w))
  end.

(** *** Display helpers of the model and the admin *)

(** [ServiceInquiry.get_budget_display_verbose] *)
Definition get_budget_display_verbose (i : ServiceInquiry) : string :=
  dict_get [("under_5k", "Under $5,000"); ("5k_10k", "$5,000 - $10,000");
            ("10k_25k", "$10,000 - $25,000"); ("25k_50k", "$25,000 - $50,000");
            ("50k_100k", "$50,000 - $100,000"); ("over_100k", "Over $100,000");
            ("not_sure", "Budget Not Determined")] (budget_range i) "Unknown".

(** [ServiceInquiry.is_high_value] *)
Definition is_high_value (i : ServiceInquiry) : bool :=
  in_list (budget_range i) ["50k_100k"; "over_100k"].

(** [ServiceInquiryAdmin.priority_indicator]: the colour of the tier and
    the score shown (the tier's icon is left out). *)
Definition priority_indicator (i : ServiceInquiry) : string * nat :=
  let score := get_priority_score i in
  let color := if 8 <=? score then "#ff333d" else if 6 <=? score then "#ffcb57" else "#6b7280" in
  (color, score).


End Services.

(** ** [core]: [ContactInquiry], its form, view and admin actions *)
Module Core.

(** The [ContactInquiry] columns the inquiry code reads or writes
    ([ip_address] and [user_agent], which the form's [save] copies from the
    request, are left out: [ContactInquiry.save] is Django's own, which
    does not validate them, and no code reads them). *)
Record ContactInquiry := mkContactInquiry {
  full_name : string;
  email : string;
  phone : string;
  company_name : string;
  job_title : string;
  company_size : string;
  country : string;
  service : option string;
  project_type : string;
  project_description : string;
  timeline : string;
  budget_range : string;
  additional_notes : string;
  reference_url : string;
  how_did_you_hear : string;
  status : string;
  priority : string;
  is_spam : bool;
  contacted_at : option nat
}.

Definition with_fields (i : ContactInquiry) (st pr : string) (sp : bool) (ca : option nat)
  : ContactInquiry :=
  {| full_name := full_name i; email := email i; phone := phone i;
     company_name := company_name i; job_title := job_title i;
     company_size := company_size i; country := country i; service := service i;
     project_type := project_type i; project_description := project_description i;
     timeline := timeline i; budget_range := budget_range i;
     additional_notes := additional_notes i; reference_url := reference_url i;
     how_did_you_hear := how_did_you_hear i;
     status := st; priority := pr; is_spam := sp; contacted_at := ca |}.

Definition set_is_spam (b : bool) (i : ContactInquiry) : ContactInquiry :=
  with_fields i (status i) (priority i) b (contacted_at i).
Definition set_status (s : string) (i : ContactInquiry) : ContactInquiry :=
  with_fields i s (priority i) (is_spam i) (contacted_at i).
Definition set_priority (p : string) (i : ContactInquiry) : ContactInquiry :=
  with_fields i (status i) p (is_spam i) (contacted_at i).
Definition set_contacted_at (t : option nat) (i : ContactInquiry) : ContactInquiry :=
  with_fields i (status i) (priority i) (is_spam i) t.

Definition COMPANY_SIZE_CHOICES := ["1-10"; "11-50"; "51-200"; "201-1000"; "1000+"].
Definition TIMELINE_CHOICES := ["urgent"; "soon"; "flexible"; "planned"].
Definition BUDGET_CHOICES :=
  ["under_5k"; "5k_10k"; "10k_25k"; "25k_50k"; "50k_100k"; "100k+"].
Definition HOW_DID_YOU_HEAR_CHOICES := ["search"; "social"; "referral"; "advertisement"; "other"].

Definition scoring_spam_keywords :=
  ["viagra"; "casino"; "lottery"; "bitcoin"; "porn"; "xxx";
   "dating"; "pills"; "weight loss"; "make money"].

Definition free_domains := ["gmail.com"; "yahoo.com"; "hotmail.com"; "outlook.com"].

(** [views.calculate_spam_score] *)
Definition calculate_spam_score (i : ContactInquiry) : nat :=
  let d := project_description i in
  let score := 0 in
  let score :=
    if negb (is_empty d) then
      let desc_lower := lower d in
      let score :=
        if negb (is_empty d) && (String.length d <? 2 * count_upper d)
        then score + 2 else score in
      let keyword_matches := count_in scoring_spam_keywords desc_lower in
      score + Nat.min (keyword_matches * 2) 5
    else score in
  let score :=
    if negb (is_empty (email i)) then
      let domain := lower (last_segment "@" (email i)) in
      if in_list domain free_domains then score + 1 else score
    else score in
  let score :=
    if String.eqb (budget_range i) "under_5k" && String.eqb (timeline i) "urgent"
    then score + 1 else score in
  let score :=
    if negb (is_empty d) && (String.length d <? 30) then score + 1 else score in
  Nat.min score 10.

(** *** [ContactSalesForm] *)

(** [clean_website] *)
Definition clean_website (website : string) : outcome :=
  if negb (is_empty website) then Err "Invalid submission." else Ok "".

(** [clean_full_name] *)
Definition clean_full_name (v : string) : outcome :=
  let name := strip v in
  if String.length name <? 2 then Err "Please enter your full name."
  else if has_digit name then Err "Name should not contain numbers."
  else Ok name.

Definition temp_domains :=
  ["tempmail.com"; "throwaway.email"; "10minutemail.com";
   "guerrillamail.com"; "mailinator.com"].

(** [clean_email] *)
Definition clean_email (v : string) : outcome :=
  let email := lower (strip v) in
  let domain := if contains "@" email then last_segment "@" email else EmptyString in
  if in_list domain temp_domains then Err "Please use a permanent email address."
  else Ok email.

(** [clean_phone] *)
Definition clean_phone (v : string) : outcome :=
  let phone := strip v in
  if negb (is_empty phone) then
    let phone_digits := strip_phone_formatting phone in
    if negb (str_isdigit phone_digits) then Err "Please enter a valid phone number."
    else if (String.length phone_digits <? 7) || (15 <? String.length phone_digits)
    then Err "Phone number should be 7-15 digits."
    else Ok phone
  else Ok phone.

Definition form_spam_keywords := ["viagra"; "casino"; "lottery"; "porn"; "xxx"].

(** [clean_project_description] *)
Definition clean_project_description (v : string) : outcome :=
  let description := strip v in
  if String.length description <? 20
  then Err "Please provide more detail (at least 20 characters)." else
  if any_in form_spam_keywords (lower description) then Err "Invalid content detected."
  else Ok description.

(** The form's fields in Django's order ([Meta.fields], then [website] and
    [agree_to_contact]); [__init__] makes the listed ones optional. *)
Definition form_fields : list field :=
  [ mkField "full_name" (KChar true (Some 150)) (Some clean_full_name);
    mkField "email" (KEmail true 255) (Some clean_email);
    mkField "phone" (KChar false (Some 20)) (Some clean_phone);
    mkField "company_name" (KChar true (Some 200)) None;
    mkField "job_title" (KChar false (Some 150)) None;
    mkField "company_size" (KChoice false COMPANY_SIZE_CHOICES) None;
    mkField "country" (KChar true (Some 100)) None;
    mkField "service" (KModelChoice false) None;
    mkField "project_type" (KChar true (Some 100)) None;
    mkField "project_description" (KChar true None) (Some clean_project_description);
    mkField "timeline" (KChoice true TIMELINE_CHOICES) None;
    mkField "budget_range" (KChoice true BUDGET_CHOICES) None;
    mkField "additional_notes" (KChar false None) None;
    mkField "reference_url" (KURL false 500) None;
    mkField "how_did_you_hear" (KChoice false HOW_DID_YOU_HEAR_CHOICES) None;
    mkField "website" (KChar false None) (Some clean_website);
    mkField "agree_to_contact" (KBool true) None ].

Definition construct_instance (cd : list (string * string)) : ContactInquiry :=
  {| full_name := get cd "full_name"; email := get cd "email"; phone := get cd "phone";
     company_name := get cd "company_name"; job_title := get cd "job_title";
     company_size := get cd "company_size"; country := get cd "country";
     service := (let s := get cd "service" in if is_empty s then None else Some s);
     project_type := get cd "project_type";
     project_description := get cd "project_description";
     timeline := get cd "timeline"; budget_range := get cd "budget_range";
     additional_notes := get cd "additional_notes"; reference_url := get cd "reference_url";
     how_did_you_hear := get cd "how_did_you_hear";
     status := "new"; priority := "medium"; is_spam := false; contacted_at := None |}.

(** [form.is_valid()]: the model has no [clean] of its own and its field
    validators repeat the form fields' checks. *)
Definition form_full_clean (Vd : validators) (data : list (string * string))
  : list (string * string) * ContactInquiry :=
  let '(cd, errs) := Forms.clean_fields Vd form_fields data in
  (errs, construct_instance cd).

(** [Model.save()] (not overridden) *)
Definition save (E : env) (pk : option nat) (i : ContactInquiry) : M ContactInquiry nat :=
  db_write (db_up E) pk i.

(** [ContactInquiry.mark_as_contacted] *)
Definition mark_as_contacted (E : env) (pk : nat) (i : ContactInquiry)
  : M ContactInquiry (nat * ContactInquiry) :=
  let i := match contacted_at i with None => set_contacted_at (Some (now E)) i | Some _ => i end in
  let i := if String.eqb (status i) "new" then set_status "contacted" i else i in
  id <- save E (Some pk) i ;; ret (id, i).

(** *** [views.send_contact_notifications] (rendering taken not to fail) *)
Definition send_contact_notifications (E : env) (inquiry : ContactInquiry)
  : M ContactInquiry unit :=
  let admin_email_msg :=
    mkMail AdminNotification ("New Contact Inquiry: " ++ company_name inquiry)%string
      [admin_email E] [email inquiry] in
  send (transport_ok E) admin_email_msg ;;;
  let client_email :=
    mkMail ClientConfirmation "We've Received Your Inquiry - Cascade Digital"
      [email inquiry] [admin_email E] in
  send (transport_ok E) client_email ;;;
  log_msg "info" "Contact notifications sent".

Definition success_message :=
  "Thank you for contacting us! Our team will review your inquiry and get back to you within 24 hours.".
Definition error_message :=
  "We encountered an error processing your request. Please try again or email us directly.".

(** *** [views.handle_contact_submission] *)
Definition handle_contact_submission (E : env) (is_ajax : bool)
  (post : list (string * string)) : M ContactInquiry response :=
  let '(errs, inst) := form_full_clean (V E) post in
  match errs with
  | [] =>
      try_except
        (let inquiry := inst in
         let spam_score := calculate_spam_score inquiry in
         let inquiry := if 7 <? spam_score then set_is_spam true inquiry else inquiry in
         (if 7 <? spam_score then log_msg "warning" "Potential spam inquiry" else ret tt) ;;;
         id <- save E None inquiry ;;
         try_except (send_contact_notifications E inquiry)
           (fun _ => log_msg "error" "Failed to send contact notification") ;;;
         ret (if is_ajax then JsonResponse 200 true success_message (Some id) []
              else Redirect "contact_success" (Some ("success", success_message))))
        (fun _ =>
           log_msg "error" "Error processing contact inquiry" ;;;
           ret (if is_ajax then JsonResponse 500 false error_message None []
                else Render "core/contact.html" (Some ("error", error_message))))
  | _ =>
      ret (if is_ajax
           then JsonResponse 400 false "Please correct the errors below." None errs
           else Render "core/contact.html" (Some ("error", "Please correct the errors below.")))
  end.

(** *** [ContactInquiryAdmin] actions *)

Definition selected (sel : list nat) (k : nat) (_ : ContactInquiry) : bool :=
  existsb (Nat.eqb k) sel.

Fixpoint for_each (rows : list (nat * ContactInquiry))
  (body : nat -> ContactInquiry -> M ContactInquiry unit) : M ContactInquiry unit :=
  match rows with
  | [] => ret tt
  | (k, r) :: t => body k r ;;; for_each t body
  end.

Definition queryset (sel : list nat) : M ContactInquiry (list (nat * ContactInquiry)) :=
  fun w => (inr (filter (fun kr => selected sel (fst kr) (snd kr)) (db w)), w).

Inductive admin_action :=
| MarkAsContacted | MarkAsQualified | MarkAsSpam | MarkAsNotSpam
| SetPriorityHigh | SetPriorityMedium.

Definition run_admin_action (E : env) (a : admin_action) (sel : list nat)
  : M ContactInquiry unit :=
  match a with
  | MarkAsContacted =>
      rows <- queryset sel ;;
      for_each rows (fun k inquiry => mark_as_contacted E k inquiry ;;; ret tt)
  | MarkAsQualified => db_update_where (selected sel) (set_status "qualified")
  | MarkAsSpam => db_update_where (selected sel) (set_is_spam true)
  | MarkAsNotSpam => db_update_where (selected sel) (set_is_spam false)
  | SetPriorityHigh => db_update_where (selected sel) (set_priority "high")
  | SetPriorityMedium => db_update_where (selected sel) (set_priority "medium")
  end.

Inductive op :=
| Submit (is_ajax : bool) (post : list (string * string))
| MarkContacted (pk : nat)
| Admin (a : admin_action) (sel : list nat).

Definition run_op (E : env) (o : op) : M ContactInquiry unit :=
  match o with
  | Submit aj p => handle_contact_submission E aj p ;;; ret tt
  | MarkContacted pk =>
      r <- get_row pk ;;
      match r with
      | Some i => mark_as_contacted E pk i ;;; ret tt
      | None => raise DatabaseError
      end
  | Admin a sel => run_admin_action E a sel
  end.

Fixpoint run_requests (rs : list (env * op)) (w : world ContactInquiry)
  : world ContactInquiry :=
  match rs with
  | [] => w
  | (E, o) :: t => run_requests t (snd (run_op E o w))
  end.

(** *** Choices of the management fields and display helpers *)

(** The choices of [ContactInquiry.status] and [ContactInquiry.priority]. *)
Definition STATUS_CHOICES :=
  ["new"; "contacted"; "qualified"; "proposal_sent"; "converted"; "declined"].
Definition PRIORITY_CHOICES := ["low"; "medium"; "high"; "urgent"].

(** [ContactInquiry.get_timeline_display_verbose] *)
Definition get_timeline_display_verbose (i : ContactInquiry) : string :=
  dict_get [("urgent", "ASAP (1-2 weeks)"); ("soon", "Soon (2-4 weeks)");
            ("flexible", "Flexible (1-2 months)"); ("planned", "Planned (3+ months)")]
    (timeline i) (timeline i).

(** [ContactInquiry.get_budget_display_verbose] *)
Definition get_budget_display_verbose (i : ContactInquiry) : string :=
  dict_get [("under_5k", "Under $5,000"); ("5k_10k", "$5,000 - $10,000");
            ("10k_25k", "$10,000 - $25,000"); ("25k_50k", "$25,000 - $50,000");
            ("50k_100k", "$50,000 - $100,000"); ("100k+", "$100,000+")]
    (budget_range i) (budget_range i).


End Core.

(** ** [services.models.Service]: the catalogue entry's display and [save] *)
Module ServiceModel.

(** [str(n)] for a non-negative [int]. *)
Definition str_int (n : nat) : string := NilZero.string_of_uint (Nat.to_uint n).

(** [Service.get_delivery_display], on the [delivery_time_days] column
    (a nullable [PositiveIntegerField]). *)
Definition get_delivery_display (delivery_time_days : option nat) : string :=
  match delivery_time_days with
  | Some days =>
      if days =? 0 then "Custom timeline"
      else if days =? 1 then "1 day"
      else if days <? 7 then (str_int days ++ " days")%string
      else if days <? 30 then
        let weeks := days / 7 in
        let plural := if 1 <? weeks then "s" else "" in
        (str_int weeks ++ " week" ++ plural)%string
      else
        let months := days / 30 in
        let plural := if 1 <? months then "s" else "" in
        (str_int months ++ " month" ++ plural)%string
  | None => "Custom timeline"
  end.

(** The [Service] columns [Service.save] reads or fills. *)
Record Service := mkService {
  title : string;
  slug : string;
  short_description : string;
  meta_title : string;
  meta_description : string
}.

Section Save.
(** [django.utils.text.slugify] *)
Variable slugify : string -> string.

(** [Service.save]: the fields it fills before [super().save()]. *)
Definition fill_fields (s : Service) : Service :=
  let s := if is_empty (slug s) then
             mkService (title s) (slugify (title s)) (short_description s) (meta_title s)
               (meta_description s)
           else s in
  let s := if is_empty (meta_title s) then
             mkService (title s) (slug s) (short_description s) (substring 0 60 (title s))
               (meta_description s)
           else s in
  let s := if is_empty (meta_description s) then
             mkService (title s) (slug s) (short_description s) (meta_title s)
               (substring 0 160 (short_description s))
           else s in
  s.

End Save.
End ServiceModel.

(** ** Readings of the specification, to be compared with the code *)
Module Spec.

(** The priority formula as the specification words it: +1 for an "asap"
    timeline, else +1 for "flexible". *)
Definition priority_score_as_specified (i : Services.ServiceInquiry) : nat :=
  let b := Services.budget_range i in
  let t := Services.timeline i in
  Nat.min
    (5 + (if String.eqb b "over_100k" then 3 else if String.eqb b "50k_100k" then 2
          else if String.eqb b "25k_50k" then 1 else 0)
       + (if String.eqb t "asap" then 1 else if String.eqb t "flexible" then 1 else 0)
       + (match Services.service i with Some _ => 1 | None => 0 end)) 10.

(** The conditions the spam score adds bonuses for. *)
Record spam_signals := mkSignals {
  caps : bool;          (* more than half of the description is uppercase *)
  keywords : nat;       (* number of distinct listed keywords in it *)
  free_mail : bool;     (* free-mail domain *)
  cheap_rush : bool;    (* lowest budget with the most urgent timeline *)
  odd_length : bool;    (* description too short or too long *)
  no_contact : bool     (* neither phone nor company given *)
}.

Definition b2n (b : bool) : nat := if b then 1 else 0.

(** Sum of the bonuses, then the minimum with 10. *)
Definition spam_score_of (s : spam_signals) : nat :=
  Nat.min ((if caps s then 2 else 0) + Nat.min (2 * keywords s) 5
           + b2n (free_mail s) + b2n (cheap_rush s) + b2n (odd_length s)
           + b2n (no_contact s)) 10.

(** [s2] has every condition of [s1] (and at least its keywords). *)
Definition signals_le (s1 s2 : spam_signals) : Prop :=
  implb (caps s1) (caps s2) = true /\ keywords s1 <= keywords s2 /\
  implb (free_mail s1) (free_mail s2) = true /\
  implb (cheap_rush s1) (cheap_rush s2) = true /\
  implb (odd_length s1) (odd_length s2) = true /\
  implb (no_contact s1) (no_contact s2) = true.

(** The conditions as [_calculate_spam_score] tests them. *)
Definition service_signals (i : Services.ServiceInquiry) : spam_signals :=
  let d := Services.project_description i in
  {| caps := negb (is_empty d) && (String.length d <? 2 * count_upper d);
     keywords := if is_empty d then 0 else count_in Services.scoring_spam_keywords (lower d);
     free_mail := negb (is_empty (Services.email i))
                  && in_list (lower (last_segment "@" (Services.email i)))
                             Services.free_email_domains;
     cheap_rush := String.eqb (Services.budget_range i) "under_5k"
                   && String.eqb (Services.timeline i) "asap";
     odd_length := negb (is_empty d)
                   && ((String.length d <? 30) || (2000 <? String.length d));
     no_contact := is_empty (Services.phone i) && is_empty (Services.company i) |}.

(** The conditions as the contact [calculate_spam_score] tests them. *)
Definition contact_signals (i : Core.ContactInquiry) : spam_signals :=
  let d := Core.project_description i in
  {| caps := negb (is_empty d) && (String.length d <? 2 * count_upper d);
     keywords := if is_empty d then 0 else count_in Core.scoring_spam_keywords (lower d);
     free_mail := negb (is_empty (Core.email i))
                  && in_list (lower (last_segment "@" (Core.email i))) Core.free_domains;
     cheap_rush := String.eqb (Core.budget_range i) "under_5k"
                   && String.eqb (Core.timeline i) "urgent";
     odd_length := negb (is_empty d) && (String.length d <? 30);
     no_contact := false |}.

End Spec.

(** ** Sample inputs *)
Module Samples.

Definition service_inquiry (desc email phone company budget timeline : string)
  (svc : option string) : Services.ServiceInquiry :=
  {| Services.full_name := "Jane Doe"; Services.email := email; Services.phone := phone;
     Services.company := company; Services.service := svc;
     Services.project_type := "Website"; Services.project_description := desc;
     Services.budget_range := budget; Services.timeline := timeline;
     Services.reference_url := ""; Services.additional_notes := "";
     Services.status := "new"; Services.ip_address := Some "203.0.113.5";
     Services.user_agent := "Mozilla/5.0"; Services.referrer := "";
     Services.is_spam := false; Services.contacted_at := None |}.

Definition contact_inquiry (desc email budget timeline : string) : Core.ContactInquiry :=
  {| Core.full_name := "Jane Doe"; Core.email := email; Core.phone := "";
     Core.company_name := "Acme"; Core.job_title := ""; Core.company_size := "";
     Core.country := "KE"; Core.service := None; Core.project_type := "Website";
     Core.project_description := desc; Core.timeline := timeline;
     Core.budget_range := budget; Core.additional_notes := ""; Core.reference_url := "";
     Core.how_did_you_hear := ""; Core.status := "new"; Core.priority := "medium";
     Core.is_spam := false; Core.contacted_at := None |}.

(** 30 characters, 18 of them uppercase: 60%. *)
Definition caps_description := "ABCDEFGHIJKLMNOPQR abcdefghijk".

Definition plain_description := "We need a new company website with a blog.".

Fixpoint repeat_string (n : nat) (s : string) : string :=
  match n with O => EmptyString | S k => (s ++ repeat_string k s)%string end.

(** Four URLs in 51 characters. *)
Definition four_urls_description := "see http://a.io http://b.io http://c.io http://d.io".

(** Validators that accept every e-mail, URL, address and service key. *)
Definition permissive : validators :=
  mkValidators (fun _ => true) Some (fun _ => true) Some (fun _ => true).

(** The metadata of a browser request sent straight to the server. *)
Definition browser : request_meta :=
  mkMeta None (Some "203.0.113.5") (Some "Mozilla/5.0") (Some "https://acme.org/services/").

(** A service form submission that passes every check. *)
Definition service_post : list (string * string) :=
  [("full_name", "Jane Doe"); ("email", "jane@acme.org"); ("project_type", "Website");
   ("project_description", plain_description); ("budget_range", "10k_25k");
   ("timeline", "planned"); ("accept_terms", "on")].

(** A contact form submission that passes every check. *)
Definition contact_post : list (string * string) :=
  [("full_name", "Jane Doe"); ("email", "jane@acme.org"); ("company_name", "Acme");
   ("country", "KE"); ("project_type", "Website");
   ("project_description", plain_description); ("budget_range", "10k_25k");
   ("timeline", "planned"); ("agree_to_contact", "on")].

(** 2010 characters. *)
Definition long_description := repeat_string 201 "plan site ".

(** A mail backend that delivers the admin copy and refuses the client
    confirmation. *)
Definition refuse_client (m : mail) : bool :=
  match kind m with AdminNotification => true | ClientConfirmation => false end.

Definition refusing_env : env := mkEnv permissive true refuse_client 100 "admin@acme.org" browser.

Definition empty_world {R} : world R := mkWorld [] 1 [] [] [].

(** A service inquiry whose description names a model-level keyword. *)
Definition keyword_inquiry : Services.ServiceInquiry :=
  service_inquiry "We run an online casino and need a new site." "jane@acme.org" "" ""
    "10k_25k" "planned" None.

(** A table holding one inquiry already contacted at time 5, and a day of
    requests touching it. *)
Definition service_world : world Services.ServiceInquiry :=
  mkWorld [(1, Services.set_contacted_at (Some 5) (Services.set_status "contacted"
     (service_inquiry plain_description "jane@acme.org" "" "" "10k_25k" "planned" None)))]
    2 [] [] [].

Definition service_trace : list (env * Services.op) :=
  [(refusing_env, Services.Submit true "Web design" service_post);
   (refusing_env, Services.Admin Services.MarkAsNew [1]);
   (refusing_env, Services.MarkContacted 1);
   (refusing_env, Services.Admin Services.MarkAsContacted [1; 2])].

Definition contact_world : world Core.ContactInquiry :=
  mkWorld [(1, Core.set_contacted_at (Some 5) (Core.set_status "contacted"
     (contact_inquiry plain_description "jane@acme.org" "10k_25k" "planned")))]
    2 [] [] [].

Definition contact_trace : list (env * Core.op) :=
  [(refusing_env, Core.Submit true contact_post);
   (refusing_env, Core.Admin Core.MarkAsQualified [1]);
   (refusing_env, Core.MarkContacted 1);
   (refusing_env, Core.Admin Core.MarkAsContacted [1; 2])].

(** An environment whose database refuses every statement. *)
Definition down_env : env := mkEnv permissive false (fun _ => true) 100 "admin@acme.org" browser.

(** A short all-caps description naming three listed keywords. *)
Definition shouting_description := "CASINO VIAGRA LOTTERY".

(** Submissions that pass the forms and score above 7. *)
Definition spam_service_post : list (string * string) :=
  [("full_name", "Jane Doe"); ("email", "jane@gmail.com"); ("project_type", "Website");
   ("project_description", "BUY NOW! MAKE MONEY FAST"); ("budget_range", "10k_25k");
   ("timeline", "planned"); ("accept_terms", "on")].

Definition spam_contact_post : list (string * string) :=
  [("full_name", "Jane Doe"); ("email", "jane@gmail.com"); ("company_name", "Acme");
   ("country", "KE"); ("project_type", "Website");
   ("project_description", "MAKE MONEY WITH BITCOIN NOW"); ("budget_range", "10k_25k");
   ("timeline", "planned"); ("agree_to_contact", "on")].

(** A table holding one inquiry marked as spam whose description names a
    model-level keyword. *)
Definition flagged_world : world Services.ServiceInquiry :=
  mkWorld [(1, Services.set_status "spam" (Services.set_is_spam true keyword_inquiry))]
    2 [] [] [].


End Samples.

(** ** Invariants of the stored table *)
Module Inv.

(** The primary keys are distinct and below the next id the database
    hands out. *)
Definition wf {R} (w : world R) : Prop :=
  NoDup (map fst (db w)) /\ Forall (fun k => k < next_id w) (map fst (db w)).

Section Rows.
Context {R : Type} (status_of : R -> string) (contacted_of : R -> option nat).

(** How a stored row may evolve: a set [contacted_at] keeps its value, and
    a row that enters status "contacted" has [contacted_at] set. *)
Definition row_ok (r r' : R) : Prop :=
  (forall t, contacted_of r = Some t -> contacted_of r' = Some t) /\
  (status_of r' = "contacted" -> status_of r <> "contacted" -> contacted_of r' <> None).

(** Every stored row is still stored and has evolved as [row_ok] allows. *)
Definition keeps (w w' : world R) : Prop :=
  forall k r, lookup k (db w) = Some r ->
    exists r', lookup k (db w') = Some r' /\ row_ok r r'.

(** A computation that keeps the table well formed and its rows kept. *)
Definition good {A} (m : M R A) : Prop :=
  forall w, wf w -> wf (snd (m w)) /\ keeps w (snd (m w)).

End Rows.
(** The choice fields of a stored row hold one of their choices. *)
Definition service_choices_ok (i : Services.ServiceInquiry) : Prop :=
  In (Services.budget_range i) Services.BUDGET_CHOICES /\
  In (Services.timeline i) Services.TIMELINE_CHOICES /\
  In (Services.status i) Services.STATUS_CHOICES.

Definition contact_choices_ok (i : Core.ContactInquiry) : Prop :=
  In (Core.budget_range i) Core.BUDGET_CHOICES /\
  In (Core.timeline i) Core.TIMELINE_CHOICES /\
  In (Core.status i) Core.STATUS_CHOICES /\
  In (Core.priority i) Core.PRIORITY_CHOICES.

(** Every stored row satisfies [P]. *)
Definition rows_ok {R} (P : R -> Prop) (w : world R) : Prop :=
  Forall (fun kr => P (snd kr)) (db w).

(** A computation that keeps every stored row satisfying [P]. *)
Definition pres {R} (P : R -> Prop) {A} (m : M R A) : Prop :=
  forall w, rows_ok P w -> rows_ok P (snd (m w)).

(** [w'] differs from [w] at most in the rows whose keys are in [sel]: the
    same keys, the same next id, nothing logged, no mail attempted or
    delivered. *)
Definition only_selected_changed {R} (sel : list nat) (w w' : world R) : Prop :=
  map fst (db w') = map fst (db w) /\ next_id w' = next_id w /\ log w' = log w /\
  attempts w' = attempts w /\ outbox w' = outbox w /\
  (forall k, ~ In k sel -> lookup k (db w') = lookup k (db w)).


End Inv.

Import Inv.

(** * Properties *)

Arguments in_list : simpl never.
Arguments count_in : simpl never.
Arguments any_in : simpl never.
Arguments lower : simpl never.
Arguments last_segment : simpl never.
Arguments count_upper : simpl never.

(** Case analysis on the atomic boolean tests of an [if]. *)
Ltac case_atom b :=
  match b with
  | negb ?x => case_atom x
  | ?x && _ => case_atom x
  | ?x || _ => case_atom x
  | _ => destruct b eqn:?
  end.

Ltac case_ifs :=
  repeat (simpl; match goal with
                 | |- context [if ?b then _ else _] => case_atom b
                 end).

Lemma is_empty_length (s : string) : is_empty s = false -> (0 <? String.length s) = true.
Proof. destruct s; simpl; [discriminate | reflexivity]. Qed.

Lemma service_spam_score_decomposed (i : Services.ServiceInquiry) :
  Services.calculate_spam_score i = Spec.spam_score_of (Spec.service_signals i).
Proof.
  unfold Services.calculate_spam_score, Spec.spam_score_of, Spec.service_signals, Spec.b2n.
  simpl.
  destruct (is_empty (Services.project_description i)) eqn:He; simpl.
  - case_ifs; simpl; lia.
  - rewrite (is_empty_length _ He). case_ifs; simpl; lia.
Qed.

Lemma contact_spam_score_decomposed (i : Core.ContactInquiry) :
  Core.calculate_spam_score i = Spec.spam_score_of (Spec.contact_signals i).
Proof.
  unfold Core.calculate_spam_score, Spec.spam_score_of, Spec.contact_signals, Spec.b2n.
  simpl.
  destruct (is_empty (Core.project_description i)) eqn:He; simpl; case_ifs; simpl; lia.
Qed.

(** C1 (amended).  [get_priority_score] is
    min(10, 5 + budget bonus (+3 "over_100k", else +2 "50k_100k", else +1
    "25k_50k") + timeline bonus (+2 "asap", else +1 "flexible") + 1 if a
    service is attached); it lies in [5, 10]; with a budget and a timeline
    earning no bonus and no service it is 5, and with "over_100k", "asap"
    and a service it is min(11, 10) = 10. *)
Theorem get_priority_score_formula :
  (forall i : Services.ServiceInquiry,
     Services.get_priority_score i =
       Nat.min (5 + (if String.eqb (Services.budget_range i) "over_100k" then 3
                     else if String.eqb (Services.budget_range i) "50k_100k" then 2
                     else if String.eqb (Services.budget_range i) "25k_50k" then 1 else 0)
                  + (if String.eqb (Services.timeline i) "asap" then 2
                     else if String.eqb (Services.timeline i) "flexible" then 1 else 0)
                  + (match Services.service i with Some _ => 1 | None => 0 end)) 10
     /\ 5 <= Services.get_priority_score i <= 10) /\
  (forall i : Services.ServiceInquiry,
     ~ In (Services.budget_range i) ["over_100k"; "50k_100k"; "25k_50k"] ->
     ~ In (Services.timeline i) ["asap"; "flexible"] ->
     Services.service i = None ->
     Services.get_priority_score i = 5) /\
  (forall i : Services.ServiceInquiry,
     Services.budget_range i = "over_100k" -> Services.timeline i = "asap" ->
     Services.service i <> None ->
     Services.get_priority_score i = 10).
Proof.
  unfold Services.get_priority_score, in_list; simpl.
  split; [| split].
  - intro i. destruct (Services.service i); case_ifs; simpl; lia.
  - intros i Hb Ht Hs. rewrite Hs.
    destruct (String.eqb_spec (Services.budget_range i) "over_100k") as [e|_];
      [exfalso; apply Hb; rewrite e; simpl; tauto |].
    destruct (String.eqb_spec (Services.budget_range i) "50k_100k") as [e|_];
      [exfalso; apply Hb; rewrite e; simpl; tauto |].
    destruct (String.eqb_spec (Services.budget_range i) "25k_50k") as [e|_];
      [exfalso; apply Hb; rewrite e; simpl; tauto |].
    destruct (String.eqb_spec (Services.timeline i) "asap") as [e|_];
      [exfalso; apply Ht; rewrite e; simpl; tauto |].
    destruct (String.eqb_spec (Services.timeline i) "flexible") as [e|_];
      [exfalso; apply Ht; rewrite e; simpl; tauto |].
    reflexivity.
  - intros i Hb Ht Hs. rewrite Hb, Ht. destruct (Services.service i); [reflexivity | congruence].
Qed.

Lemma get_priority_score_formula_witness :
  Services.get_priority_score
    (Samples.service_inquiry Samples.plain_description "jane@acme.org" "" "" "10k_25k" "planned" None) = 5
  /\ Services.get_priority_score
    (Samples.service_inquiry Samples.plain_description "jane@acme.org" "" "" "over_100k" "asap" (Some "web-design")) = 10.
Proof.
  split.
  - apply (proj1 (proj2 get_priority_score_formula)); simpl; [intuition discriminate | intuition discriminate | reflexivity].
  - apply (proj2 (proj2 get_priority_score_formula)); simpl; [reflexivity | reflexivity | discriminate].
Defined.

(** C1 (as stated, refuted).  The specification's +1 for an "asap" timeline
    is +2 in the code: a mid budget, "asap", no service scores 7, not 6. *)
Lemma priority_asap_counterexample :
  Services.get_priority_score
    (Samples.service_inquiry Samples.plain_description "jane@acme.org" "" "" "10k_25k" "asap" None) = 7
  /\ Spec.priority_score_as_specified
    (Samples.service_inquiry Samples.plain_description "jane@acme.org" "" "" "10k_25k" "asap" None) = 6.
Proof. split; reflexivity. Qed.

Lemma spam_score_of_le_10 (s : Spec.spam_signals) : Spec.spam_score_of s <= 10.
Proof. unfold Spec.spam_score_of. lia. Qed.

Lemma spam_score_of_monotone (s1 s2 : Spec.spam_signals) :
  Spec.signals_le s1 s2 -> Spec.spam_score_of s1 <= Spec.spam_score_of s2.
Proof.
  destruct s1 as [c1 k1 f1 r1 o1 n1], s2 as [c2 k2 f2 r2 o2 n2].
  unfold Spec.signals_le, Spec.spam_score_of, Spec.b2n; simpl.
  intros (Hc & Hk & Hf & Hr & Ho & Hn).
  destruct c1, c2, f1, f2, r1, r2, o1, o2, n1, n2; simpl in *; try discriminate; lia.
Qed.

(** C2.  Both spam scores are the sum of the condition bonuses (+2 for more
    than half uppercase, min(2 * distinct keywords, 5), +1 per other
    condition) capped by min with 10, so they lie in [0, 10]; the capped sum
    never decreases when conditions are added; the keyword lists have no
    repeated entry; and the uppercase condition alone gives exactly 2. *)
Theorem spam_score_sum_clamped_monotone :
  (forall i : Services.ServiceInquiry,
     Services.calculate_spam_score i = Spec.spam_score_of (Spec.service_signals i)
     /\ Services.calculate_spam_score i <= 10) /\
  (forall i : Core.ContactInquiry,
     Core.calculate_spam_score i = Spec.spam_score_of (Spec.contact_signals i)
     /\ Core.calculate_spam_score i <= 10) /\
  (forall s1 s2 : Spec.spam_signals,
     Spec.signals_le s1 s2 -> Spec.spam_score_of s1 <= Spec.spam_score_of s2) /\
  NoDup Services.scoring_spam_keywords /\ NoDup Core.scoring_spam_keywords /\
  (forall i : Services.ServiceInquiry,
     Spec.service_signals i = Spec.mkSignals true 0 false false false false ->
     Services.calculate_spam_score i = 2) /\
  (forall i : Core.ContactInquiry,
     Spec.contact_signals i = Spec.mkSignals true 0 false false false false ->
     Core.calculate_spam_score i = 2).
Proof.
  split; [| split; [| split; [| split; [| split; [| split]]]]].
  - intro i. rewrite service_spam_score_decomposed. split; [reflexivity | apply spam_score_of_le_10].
  - intro i. rewrite contact_spam_score_decomposed. split; [reflexivity | apply spam_score_of_le_10].
  - exact spam_score_of_monotone.
  - repeat constructor; simpl; intuition discriminate.
  - repeat constructor; simpl; intuition discriminate.
  - intros i H. rewrite service_spam_score_decomposed, H. reflexivity.
  - intros i H. rewrite contact_spam_score_decomposed, H. reflexivity.
Qed.

(** A description that is 60% uppercase, with no other condition met,
    scores 2 in both variants. *)
Lemma spam_score_sum_clamped_monotone_witness :
  Services.calculate_spam_score
    (Samples.service_inquiry Samples.caps_description "jane@acme.org" "555 0100" ""
       "10k_25k" "planned" None) = 2
  /\ Core.calculate_spam_score
    (Samples.contact_inquiry Samples.caps_description "jane@acme.org" "10k_25k" "planned") = 2
  /\ Spec.spam_score_of (Spec.mkSignals false 1 false false false false)
     <= Spec.spam_score_of (Spec.mkSignals true 3 true false false false).
Proof.
  split; [| split].
  - apply (proj1 (proj2 (proj2 (proj2 (proj2 (proj2 spam_score_sum_clamped_monotone)))))).
    vm_compute. reflexivity.
  - apply (proj2 (proj2 (proj2 (proj2 (proj2 (proj2 spam_score_sum_clamped_monotone)))))).
    vm_compute. reflexivity.
  - apply (proj1 (proj2 (proj2 spam_score_sum_clamped_monotone))).
    unfold Spec.signals_le; simpl; repeat split; lia.
Defined.

(** C4 (amended).  In the service score the sum has +1 exactly when the
    description is non-empty and shorter than 30 or longer than 2000
    characters, and +1 exactly when the e-mail is non-empty and the
    lower-cased part after its last "@" is one of the eight free-mail
    domains.  In the contact score the length bonus is only for a non-empty
    description shorter than 30, and the free-mail bonus only for
    gmail.com, yahoo.com, hotmail.com and outlook.com. *)
Theorem spam_length_and_free_mail_bonuses :
  (forall i : Services.ServiceInquiry,
     let d := Services.project_description i in
     let e := Services.email i in
     let s := Spec.service_signals i in
     Services.calculate_spam_score i =
       Nat.min ((if Spec.caps s then 2 else 0) + Nat.min (2 * Spec.keywords s) 5
                + Spec.b2n (Spec.cheap_rush s) + Spec.b2n (Spec.no_contact s)
                + (if negb (is_empty d)
                      && ((String.length d <? 30) || (2000 <? String.length d))
                   then 1 else 0)
                + (if negb (is_empty e)
                      && in_list (lower (last_segment "@" e))
                           ["gmail.com"; "yahoo.com"; "hotmail.com"; "outlook.com";
                            "aol.com"; "icloud.com"; "mail.com"; "protonmail.com"]
                   then 1 else 0)) 10) /\
  (forall i : Core.ContactInquiry,
     let d := Core.project_description i in
     let e := Core.email i in
     let s := Spec.contact_signals i in
     Core.calculate_spam_score i =
       Nat.min ((if Spec.caps s then 2 else 0) + Nat.min (2 * Spec.keywords s) 5
                + Spec.b2n (Spec.cheap_rush s)
                + (if negb (is_empty d) && (String.length d <? 30) then 1 else 0)
                + (if negb (is_empty e)
                      && in_list (lower (last_segment "@" e))
                           ["gmail.com"; "yahoo.com"; "hotmail.com"; "outlook.com"]
                   then 1 else 0)) 10).
Proof.
  split; intro i; simpl.
  - rewrite service_spam_score_decomposed.
    unfold Spec.spam_score_of, Spec.service_signals, Services.free_email_domains, Spec.b2n.
    simpl. lia.
  - rewrite contact_spam_score_decomposed.
    unfold Spec.spam_score_of, Spec.contact_signals, Core.free_domains, Spec.b2n.
    simpl. lia.
Qed.

(** C4 (as stated, refuted).  For a contact inquiry an aol.com address adds
    nothing to the score, and neither does a description over 2000
    characters. *)
Lemma contact_free_mail_counterexample :
  Core.calculate_spam_score
    (Samples.contact_inquiry Samples.plain_description "jane@aol.com" "10k_25k" "planned") = 0
  /\ Core.calculate_spam_score
    (Samples.contact_inquiry Samples.plain_description "jane@acme.org" "10k_25k" "planned") = 0
  /\ Core.calculate_spam_score
    (Samples.contact_inquiry Samples.long_description "jane@acme.org" "10k_25k" "planned") = 0
  /\ 2000 < String.length Samples.long_description.
Proof. repeat split; vm_compute; try reflexivity; lia. Qed.

Lemma ltb_true (a b : nat) : (a <? b) = true <-> a < b.
Proof. apply Nat.ltb_lt. Qed.

Lemma ltb_false (a b : nat) : (a <? b) = false <-> b <= a.
Proof. apply Nat.ltb_ge. Qed.

Ltac ltb_to_lt :=
  repeat match goal with
         | H : (_ <? _) = true |- _ => apply ltb_true in H
         | H : (_ <? _) = false |- _ => apply ltb_false in H
         end.

(** C5 (amended).  The service form's [clean_full_name] accepts exactly the
    names whose trimmed form has length >= 2, no digit and at most 2
    characters outside letters, whitespace, "-" and "'"; the contact form's
    accepts exactly those of trimmed length >= 2 without a digit (no limit
    on other characters).  "John123" fails both, "Jo" passes both. *)
Theorem full_name_validation :
  (forall v : string,
     (exists n, Services.clean_full_name v = Ok n) <->
     2 <= String.length (strip v) /\ has_digit (strip v) = false
     /\ count_special (strip v) <= 2) /\
  (forall v : string,
     (exists n, Core.clean_full_name v = Ok n) <->
     2 <= String.length (strip v) /\ has_digit (strip v) = false) /\
  (exists e, Services.clean_full_name "John123" = Err e) /\
  (exists e, Core.clean_full_name "John123" = Err e) /\
  Services.clean_full_name "Jo" = Ok "Jo" /\ Core.clean_full_name "Jo" = Ok "Jo".
Proof.
  split; [| split; [| split; [| split; [| split]]]].
  - intro v. unfold Services.clean_full_name.
    destruct (String.length (strip v) <? 2) eqn:H1;
      [| destruct (has_digit (strip v)) eqn:H2;
         [| destruct (2 <? count_special (strip v)) eqn:H3]];
      ltb_to_lt; split; intro H; try destruct H as [n Hn]; try discriminate;
      try (exfalso; lia); try (eexists; reflexivity); intuition (try lia; try congruence).
  - intro v. unfold Core.clean_full_name.
    destruct (String.length (strip v) <? 2) eqn:H1;
      [| destruct (has_digit (strip v)) eqn:H2];
      ltb_to_lt; split; intro H; try destruct H as [n Hn]; try discriminate;
      try (exfalso; lia); try (eexists; reflexivity); intuition (try lia; try congruence).
  - eexists; reflexivity.
  - eexists; reflexivity.
  - reflexivity.
  - reflexivity.
Qed.

(** C5 (as stated, refuted).  The contact form accepts "Ann!!!", which has
    three characters outside letters, whitespace, "-" and "'". *)
Lemma contact_full_name_counterexample :
  Core.clean_full_name "Ann!!!" = Ok "Ann!!!" /\ 2 < count_special "Ann!!!"
  /\ Services.clean_full_name "Ann!!!" = Err "invalid_name_format".
Proof. repeat split; vm_compute; try reflexivity; lia. Qed.

(** C6.  The service form's [clean_project_description] accepts exactly the
    descriptions whose trimmed form has length >= 20, contains none of its
    spam keywords once lower-cased, holds at most 3 matches of
    [https?://\S+], and does not have more than 10 words with a
    words / distinct-words ratio above 3; it then returns the trimmed text.
    A trimmed length below 20 always fails on length and a length of 20 or
    more never does.  The contact form's accepts exactly the trimmed
    descriptions of length >= 20 without one of its keywords: it has no URL
    or repetition check. *)
Theorem project_description_validation :
  (forall v : string,
     let d := strip v in
     let words := split (lower d) in
     (exists r, Services.clean_project_description v = Ok r) <->
     20 <= String.length d /\ any_in Services.form_spam_keywords (lower d) = false
     /\ count_urls d <= 3 /\ ~ (10 < length words /\ 3 * len_set words < length words)) /\
  (forall v r : string, Services.clean_project_description v = Ok r -> r = strip v) /\
  (forall v : string, String.length (strip v) < 20 ->
     Services.clean_project_description v = Err "description_too_short") /\
  (forall v : string, 20 <= String.length (strip v) ->
     Services.clean_project_description v <> Err "description_too_short") /\
  (forall v : string,
     let d := strip v in
     (exists r, Core.clean_project_description v = Ok r) <->
     20 <= String.length d /\ any_in Core.form_spam_keywords (lower d) = false) /\
  (forall v : string, String.length (strip v) < 20 ->
     Core.clean_project_description v
     = Err "Please provide more detail (at least 20 characters).") /\
  (forall v : string, 20 <= String.length (strip v) ->
     Core.clean_project_description v
     <> Err "Please provide more detail (at least 20 characters).").
Proof.
  split; [| split; [| split; [| split; [| split; [| split]]]]].
  - intro v. simpl. unfold Services.clean_project_description.
    destruct (String.length (strip v) <? 20) eqn:H1;
      [| destruct (any_in Services.form_spam_keywords (lower (strip v))) eqn:H2;
         [| destruct (3 <? count_urls (strip v)) eqn:H3;
            [| destruct (10 <? length (split (lower (strip v)))) eqn:H4;
               [ destruct (3 * len_set (split (lower (strip v)))
                             <? length (split (lower (strip v)))) eqn:H5 |]]]];
      simpl; ltb_to_lt; split; intro H; try destruct H as [r Hr]; try discriminate;
      try (eexists; reflexivity); intuition (try lia; try congruence).
  - intros v r. unfold Services.clean_project_description.
    destruct (String.length (strip v) <? 20); [discriminate |].
    destruct (any_in _ _); [discriminate |].
    destruct (3 <? count_urls (strip v)); [discriminate |].
    destruct (_ && _); [discriminate | congruence].
  - intros v H. unfold Services.clean_project_description.
    apply ltb_true in H. rewrite H. reflexivity.
  - intros v H. unfold Services.clean_project_description.
    apply ltb_false in H. rewrite H.
    destruct (any_in _ _); [discriminate |].
    destruct (3 <? count_urls (strip v)); [discriminate |].
    destruct (_ && _); discriminate.
  - intro v. simpl. unfold Core.clean_project_description.
    destruct (String.length (strip v) <? 20) eqn:H1;
      [| destruct (any_in Core.form_spam_keywords (lower (strip v))) eqn:H2];
      ltb_to_lt; split; intro H; try destruct H as [r Hr]; try discriminate;
      try (eexists; reflexivity); intuition (try lia; try congruence).
  - intros v H. unfold Core.clean_project_description.
    apply ltb_true in H. rewrite H. reflexivity.
  - intros v H. unfold Core.clean_project_description.
    apply ltb_false in H. rewrite H.
    destruct (any_in _ _); discriminate.
Qed.

Lemma project_description_validation_witness :
  (exists r, Core.clean_project_description Samples.four_urls_description = Ok r)
  /\ Services.clean_project_description Samples.four_urls_description = Err "too_many_urls"
  /\ Services.clean_project_description "Too short" = Err "description_too_short"
  /\ Services.clean_project_description Samples.plain_description <> Err "description_too_short".
Proof.
  split; [| split; [| split]].
  - apply (proj2 (proj1 (proj2 (proj2 (proj2 (proj2 project_description_validation))))
                   Samples.four_urls_description)).
    vm_compute. split; [lia | reflexivity].
  - vm_compute. reflexivity.
  - apply (proj1 (proj2 (proj2 project_description_validation))). vm_compute. lia.
  - apply (proj1 (proj2 (proj2 (proj2 project_description_validation)))). vm_compute. lia.
Defined.

Lemma full_name_validation_witness :
  (exists n, Services.clean_full_name "Jo" = Ok n)
  /\ (exists n, Core.clean_full_name "Mary-Jane O'Neil" = Ok n).
Proof.
  split.
  - apply (proj2 (proj1 full_name_validation "Jo")). vm_compute. repeat split; lia.
  - apply (proj2 (proj1 (proj2 full_name_validation) "Mary-Jane O'Neil")).
    vm_compute. split; [lia | reflexivity].
Defined.

(** Every error of a field that fails its cleaning shows up among the
    form's errors, and every error recorded belongs to a field that failed. *)
Lemma clean_fields_reports (Vd : validators) (fs : list field) (data : list (string * string))
  (f : field) (es : list string) (e : string) :
  In f fs -> clean_field Vd f (post_get data (fname f)) = Errors es -> In e es ->
  In (fname f, e) (snd (Forms.clean_fields Vd fs data)).
Proof.
  induction fs as [| g fs IH]; simpl; [tauto |].
  intros Hin Hf He.
  destruct (Forms.clean_fields Vd fs data) as [cd errs] eqn:Hc; simpl in IH.
  destruct Hin as [<- | Hin].
  - rewrite Hf. simpl. apply in_or_app. left.
    apply (in_map (fun e0 => (fname g, e0))). exact He.
  - destruct (clean_field Vd g (post_get data (fname g))); simpl; auto.
    apply in_or_app. right. auto.
Qed.

Lemma clean_fields_errors_from (Vd : validators) (fs : list field) (data : list (string * string))
  (n c : string) :
  In (n, c) (snd (Forms.clean_fields Vd fs data)) ->
  exists f es, In f fs /\ fname f = n /\ clean_field Vd f (post_get data n) = Errors es /\ In c es.
Proof.
  induction fs as [| g fs IH]; simpl; [tauto |].
  destruct (Forms.clean_fields Vd fs data) as [cd errs] eqn:Hc; simpl in IH.
  destruct (clean_field Vd g (post_get data (fname g))) as [v | es] eqn:Hg; simpl.
  - intro H. destruct (IH H) as (f & es & H1 & H2 & H3 & H4). exists f, es. auto.
  - intro H. apply in_app_or in H as [H | H].
    + apply in_map_iff in H as (e & He & Hin). injection He as <- <-.
      exists g, es. auto.
    + destruct (IH H) as (f & es' & H1 & H2 & H3 & H4). exists f, es'. auto.
Qed.

Lemma service_form_reports (Vd : validators) (data : list (string * string)) (f : field)
  (es : list string) (e : string) :
  In f Services.form_fields -> clean_field Vd f (post_get data (fname f)) = Errors es -> In e es ->
  In (fname f, e) (fst (Services.form_full_clean Vd data)).
Proof.
  intros Hin Hf He. unfold Services.form_full_clean.
  pose proof (clean_fields_reports Vd _ data f es e Hin Hf He) as H.
  destruct (Forms.clean_fields Vd Services.form_fields data) as [cd errs].
  destruct (Services.clean (Services.construct_instance cd)). simpl in *.
  apply in_or_app. left. exact H.
Qed.

Lemma contact_form_reports (Vd : validators) (data : list (string * string)) (f : field)
  (es : list string) (e : string) :
  In f Core.form_fields -> clean_field Vd f (post_get data (fname f)) = Errors es -> In e es ->
  In (fname f, e) (fst (Core.form_full_clean Vd data)).
Proof.
  intros Hin Hf He. unfold Core.form_full_clean.
  pose proof (clean_fields_reports Vd _ data f es e Hin Hf He) as H.
  destruct (Forms.clean_fields Vd Core.form_fields data) as [cd errs]. exact H.
Qed.

Lemma is_empty_eq (s : string) : is_empty s = true -> s = EmptyString.
Proof. destruct s; simpl; congruence. Qed.

Lemma website_field_clean (Vd : validators) (m : string -> outcome) (raw : string) :
  is_empty (strip raw) = false -> contains NUL (strip raw) = false ->
  clean_field Vd (mkField "website" (KChar false None) (Some m)) raw
  = match m (strip raw) with Ok v => Cleaned v | Err e => Errors [e] end.
Proof.
  intros H1 H2. unfold clean_field, field_clean, char_validators. cbn [fkind clean_method too_long].
  cbv zeta. rewrite H1, H2. reflexivity.
Qed.

Lemma website_field_blank (Vd : validators) (m : string -> outcome) (raw : string) :
  is_empty (strip raw) = true -> m "" = Ok "" ->
  clean_field Vd (mkField "website" (KChar false None) (Some m)) raw = Cleaned "".
Proof.
  intros H1 H2. unfold clean_field, field_clean. cbn [fkind clean_method].
  cbv zeta. rewrite H1, (is_empty_eq _ H1), H2. reflexivity.
Qed.

(** The only field of either form named [website] is the honeypot. *)
Lemma service_website_field (f : field) :
  In f Services.form_fields -> fname f = "website" ->
  f = mkField "website" (KChar false None) (Some Services.clean_website).
Proof.
  unfold Services.form_fields. intros H Hn; simpl in H.
  repeat (destruct H as [<- | H]; [first [discriminate Hn | reflexivity] |]); contradiction.
Qed.

Lemma contact_website_field (f : field) :
  In f Core.form_fields -> fname f = "website" ->
  f = mkField "website" (KChar false None) (Some Core.clean_website).
Proof.
  unfold Core.form_fields. intros H Hn; simpl in H.
  repeat (destruct H as [<- | H]; [first [discriminate Hn | reflexivity] |]); contradiction.
Qed.

Lemma service_clean_errors (i : Services.ServiceInquiry) (n c : string) :
  In (n, c) (fst (Services.clean i)) -> n = "phone".
Proof.
  unfold Services.clean.
  destruct (negb (is_empty (Services.phone i))
            && negb (Services.phone_pattern_match (Services.phone i))); simpl.
  - intros [H | []]. injection H as <- _. reflexivity.
  - intros [].
Qed.

(** C3 (amended).  When the honeypot [website] is non-empty after Django's
    whitespace stripping and holds no null character (Django's [CharField]
    rejects that first, with its own error), both forms report a [website]
    error (code "spam_detected" for services, "Invalid submission." for
    contacts), so the view answers with its validation-failure response and
    leaves the database, the log and the mail backend untouched.  The other
    fields are still cleaned: every error of every failing field is reported
    alongside.  A honeypot holding only whitespace is stripped to empty and
    accepted: the form reports no [website] error. *)
Theorem honeypot_rejects_submission :
  (forall (E : env) (is_ajax : bool) (title : string) (post : list (string * string))
          (w : world Services.ServiceInquiry),
     let errs := fst (Services.form_full_clean (V E) post) in
     (is_empty (strip (post_get post "website")) = false ->
      contains NUL (strip (post_get post "website")) = false ->
      In ("website", "spam_detected") errs /\
      (forall f es e, In f Services.form_fields ->
         clean_field (V E) f (post_get post (fname f)) = Errors es -> In e es ->
         In (fname f, e) errs) /\
      Services.service_inquiry_submit E is_ajax title post w =
        (inr (if is_ajax
              then JsonResponse 400 false "Please correct the errors below." None errs
              else Redirect "services:service_detail"
                     (Some ("error", "Please correct the errors in the form below."))), w)) /\
     (is_empty (strip (post_get post "website")) = true ->
      forall c, ~ In ("website", c) errs)) /\
  (forall (E : env) (is_ajax : bool) (post : list (string * string))
          (w : world Core.ContactInquiry),
     let errs := fst (Core.form_full_clean (V E) post) in
     (is_empty (strip (post_get post "website")) = false ->
      contains NUL (strip (post_get post "website")) = false ->
      In ("website", "Invalid submission.") errs /\
      (forall f es e, In f Core.form_fields ->
         clean_field (V E) f (post_get post (fname f)) = Errors es -> In e es ->
         In (fname f, e) errs) /\
      Core.handle_contact_submission E is_ajax post w =
        (inr (if is_ajax
              then JsonResponse 400 false "Please correct the errors below." None errs
              else Render "core/contact.html"
                     (Some ("error", "Please correct the errors below."))), w)) /\
     (is_empty (strip (post_get post "website")) = true ->
      forall c, ~ In ("website", c) errs)).
Proof.
  split.
  - intros E aj t post w errs. split.
    + intros H Hn.
      assert (Hw : In ("website", "spam_detected") errs).
      { apply (service_form_reports (V E) post
                 (mkField "website" (KChar false None) (Some Services.clean_website))
                 ["spam_detected"]).
        - unfold Services.form_fields. simpl. tauto.
        - rewrite website_field_clean by assumption.
          unfold Services.clean_website. cbn [fname]. cbv beta. rewrite H. reflexivity.
        - left. reflexivity. }
      split; [exact Hw | split].
      * intros f es e Hin Hf He. exact (service_form_reports _ _ f es e Hin Hf He).
      * unfold errs in *. unfold Services.service_inquiry_submit.
        destruct (Services.form_full_clean (V E) post) as [errs' inst]. simpl in *.
        destruct errs'; [contradiction | reflexivity].
    + intros H c Hin. unfold errs, Services.form_full_clean in Hin.
      destruct (Forms.clean_fields (V E) Services.form_fields post) as [cd es0] eqn:Hc.
      destruct (Services.clean (Services.construct_instance cd)) as [e2 i2] eqn:Hcl.
      simpl in Hin. apply in_app_or in Hin as [Hin | Hin].
      * change es0 with (snd (cd, es0)) in Hin. rewrite <- Hc in Hin.
        destruct (clean_fields_errors_from _ _ _ _ _ Hin) as (f & es & Hf & Hn & Hcf & _).
        rewrite (service_website_field f Hf Hn) in Hcf.
        rewrite website_field_blank in Hcf by (exact H || reflexivity). discriminate.
      * pose proof (service_clean_errors (Services.construct_instance cd) "website" c) as He.
        rewrite Hcl in He. discriminate (He Hin).
  - intros E aj post w errs. split.
    + intros H Hn.
      assert (Hw : In ("website", "Invalid submission.") errs).
      { apply (contact_form_reports (V E) post
                 (mkField "website" (KChar false None) (Some Core.clean_website))
                 ["Invalid submission."]).
        - unfold Core.form_fields. simpl. tauto.
        - rewrite website_field_clean by assumption.
          unfold Core.clean_website. cbn [fname]. cbv beta. rewrite H. reflexivity.
        - left. reflexivity. }
      split; [exact Hw | split].
      * intros f es e Hin Hf He. exact (contact_form_reports _ _ f es e Hin Hf He).
      * unfold errs in *. unfold Core.handle_contact_submission.
        destruct (Core.form_full_clean (V E) post) as [errs' inst]. simpl in *.
        destruct errs'; [contradiction | reflexivity].
    + intros H c Hin. unfold errs, Core.form_full_clean in Hin.
      destruct (Forms.clean_fields (V E) Core.form_fields post) as [cd es0] eqn:Hc.
      simpl in Hin. change es0 with (snd (cd, es0)) in Hin. rewrite <- Hc in Hin.
      destruct (clean_fields_errors_from _ _ _ _ _ Hin) as (f & es & Hf & Hn & Hcf & _).
      rewrite (contact_website_field f Hf Hn) in Hcf.
      rewrite website_field_blank in Hcf by (exact H || reflexivity). discriminate.
Qed.

Lemma honeypot_rejects_submission_witness :
  In ("website", "spam_detected")
     (fst (Services.form_full_clean Samples.permissive (("website", "http://x.io") :: Samples.service_post)))
  /\ In ("website", "Invalid submission.")
     (fst (Core.form_full_clean Samples.permissive (("website", "http://x.io") :: Samples.contact_post)))
  /\ (forall c, ~ In ("website", c)
       (fst (Services.form_full_clean Samples.permissive (("website", "  ") :: Samples.service_post)))).
Proof.
  split; [| split].
  - exact (proj1 (proj1 (proj1 honeypot_rejects_submission
                    (mkEnv Samples.permissive true (fun _ => true) 0 "admin@acme.org" Samples.browser)
                    true "Web design" (("website", "http://x.io") :: Samples.service_post)
                    (mkWorld [] 1 [] [] [])) eq_refl eq_refl)).
  - exact (proj1 (proj1 (proj2 honeypot_rejects_submission
                    (mkEnv Samples.permissive true (fun _ => true) 0 "admin@acme.org" Samples.browser)
                    true (("website", "http://x.io") :: Samples.contact_post)
                    (mkWorld [] 1 [] [] [])) eq_refl eq_refl)).
  - exact (proj2 (proj1 honeypot_rejects_submission
                    (mkEnv Samples.permissive true (fun _ => true) 0 "admin@acme.org" Samples.browser)
                    true "Web design" (("website", "  ") :: Samples.service_post)
                    (mkWorld [] 1 [] [] [])) eq_refl).
Defined.

(** C3 (as stated, refuted).  The honeypot does not stop the other checks:
    with a filled honeypot and a one-letter name both errors are reported;
    and a honeypot holding only spaces is stripped to empty and accepted. *)
Lemma honeypot_no_bypass_counterexample :
  fst (Services.form_full_clean Samples.permissive
         (Samples.service_post ++ [("website", "http://x.io"); ("full_name", "J")]))
  = [("full_name", "name_too_short"); ("website", "spam_detected")]
  /\ fst (Services.form_full_clean Samples.permissive
         (("website", "   ") :: Samples.service_post)) = [].
Proof. split; vm_compute; reflexivity. Qed.

(** ** Notification dispatch *)

Lemma services_notify_run (E : env) (i : Services.ServiceInquiry) (st : option string)
  (w : world Services.ServiceInquiry) :
  exists a c,
    kind a = AdminNotification /\ to_ a = [admin_email E] /\ reply_to a = [Services.email i] /\
    kind c = ClientConfirmation /\ to_ c = [Services.email i] /\ reply_to c = [admin_email E] /\
    Services.send_inquiry_notifications E i st w =
    (if transport_ok E a then
       if transport_ok E c then
         (inr tt, mkWorld (db w) (next_id w)
                    (log w ++ [("info", "Admin notification sent for inquiry");
                               ("info", "Client confirmation sent")])
                    (attempts w ++ [a; c]) (outbox w ++ [a; c]))
       else
         (inl SMTPException, mkWorld (db w) (next_id w)
                    (log w ++ [("info", "Admin notification sent for inquiry")])
                    (attempts w ++ [a; c]) (outbox w ++ [a]))
     else (inl SMTPException, mkWorld (db w) (next_id w) (log w) (attempts w ++ [a]) (outbox w)))%list.
Proof.
  exists (mkMail AdminNotification
            ("New Service Inquiry: " ++ Services.project_type i
             ++ match st with Some t => " (" ++ t ++ ")" | None => "" end)%string
            [admin_email E] [Services.email i]),
         (mkMail ClientConfirmation "We've Received Your Project Inquiry - Cascade Digital"
            [Services.email i] [admin_email E]).
  do 6 (split; [reflexivity |]).
  unfold Services.send_inquiry_notifications, bind, send, log_msg. simpl.
  destruct (transport_ok E _); [| reflexivity].
  destruct (transport_ok E _); simpl; rewrite <- !app_assoc; reflexivity.
Qed.

Lemma core_notify_run (E : env) (i : Core.ContactInquiry) (w : world Core.ContactInquiry) :
  exists a c,
    kind a = AdminNotification /\ to_ a = [admin_email E] /\ reply_to a = [Core.email i] /\
    kind c = ClientConfirmation /\ to_ c = [Core.email i] /\ reply_to c = [admin_email E] /\
    Core.send_contact_notifications E i w =
    (if transport_ok E a then
       if transport_ok E c then
         (inr tt, mkWorld (db w) (next_id w) (log w ++ [("info", "Contact notifications sent")])
                    (attempts w ++ [a; c]) (outbox w ++ [a; c]))
       else
         (inl SMTPException, mkWorld (db w) (next_id w) (log w)
                    (attempts w ++ [a; c]) (outbox w ++ [a]))
     else (inl SMTPException, mkWorld (db w) (next_id w) (log w) (attempts w ++ [a]) (outbox w)))%list.
Proof.
  exists (mkMail AdminNotification ("New Contact Inquiry: " ++ Core.company_name i)%string
            [admin_email E] [Core.email i]),
         (mkMail ClientConfirmation "We've Received Your Inquiry - Cascade Digital"
            [Core.email i] [admin_email E]).
  do 6 (split; [reflexivity |]).
  unfold Core.send_contact_notifications, bind, send, log_msg. simpl.
  destruct (transport_ok E _); [| reflexivity].
  destruct (transport_ok E _); simpl; rewrite <- !app_assoc; reflexivity.
Qed.

(** C10.  Both notification routines call [send()] for the admin copy
    first and for the client confirmation second.  When the admin send
    raises, the client confirmation is never attempted and the exception
    leaves the routine; when it succeeds, the admin copy stays delivered
    whatever the client send does, and only the client send's failure is
    reported.  The database is not touched. *)
Theorem notification_order :
  (forall (E : env) (i : Services.ServiceInquiry) (st : option string)
          (w : world Services.ServiceInquiry),
     exists a c,
       kind a = AdminNotification /\ to_ a = [admin_email E] /\
       kind c = ClientConfirmation /\ to_ c = [Services.email i] /\
       let (res, w') := Services.send_inquiry_notifications E i st w in
       db w' = db w /\ next_id w' = next_id w /\
       (if transport_ok E a then
          attempts w' = (attempts w ++ [a; c])%list /\
          outbox w' = (outbox w ++ a :: (if transport_ok E c then [c] else []))%list /\
          res = (if transport_ok E c then inr tt else inl SMTPException)
        else
          attempts w' = (attempts w ++ [a])%list /\ outbox w' = outbox w /\
          res = inl SMTPException)) /\
  (forall (E : env) (i : Core.ContactInquiry) (w : world Core.ContactInquiry),
     exists a c,
       kind a = AdminNotification /\ to_ a = [admin_email E] /\
       kind c = ClientConfirmation /\ to_ c = [Core.email i] /\
       let (res, w') := Core.send_contact_notifications E i w in
       db w' = db w /\ next_id w' = next_id w /\
       (if transport_ok E a then
          attempts w' = (attempts w ++ [a; c])%list /\
          outbox w' = (outbox w ++ a :: (if transport_ok E c then [c] else []))%list /\
          res = (if transport_ok E c then inr tt else inl SMTPException)
        else
          attempts w' = (attempts w ++ [a])%list /\ outbox w' = outbox w /\
          res = inl SMTPException)).
Proof.
  split.
  - intros E i st w.
    destruct (services_notify_run E i st w) as (a & c & Ka & Ta & _ & Kc & Tc & _ & Hrun).
    exists a, c. do 4 (split; [assumption |]). rewrite Hrun.
    destruct (transport_ok E a), (transport_ok E c); simpl; repeat split.
  - intros E i w.
    destruct (core_notify_run E i w) as (a & c & Ka & Ta & _ & Kc & Tc & _ & Hrun).
    exists a, c. do 4 (split; [assumption |]). rewrite Hrun.
    destruct (transport_ok E a), (transport_ok E c); simpl; repeat split.
Qed.

(** ** The intake pipeline after a successful save *)

Lemma services_save_insert (E : env) (i i' : Services.ServiceInquiry)
  (w : world Services.ServiceInquiry) :
  Services.full_clean (V E) i = ([], i') -> db_up E = true ->
  Services.save E None i w =
  (inr (next_id w, i'), mkWorld (db w ++ [(next_id w, i')])%list (S (next_id w))
                               (log w) (attempts w) (outbox w)).
Proof.
  intros Hfc Hup. unfold Services.save. rewrite Hfc.
  unfold bind, db_write, ret. rewrite Hup. reflexivity.
Qed.

Lemma core_save_insert (E : env) (i : Core.ContactInquiry) (w : world Core.ContactInquiry) :
  db_up E = true ->
  Core.save E None i w =
  (inr (next_id w), mkWorld (db w ++ [(next_id w, i)])%list (S (next_id w))
                            (log w) (attempts w) (outbox w)).
Proof. intro Hup. unfold Core.save, db_write. rewrite Hup. reflexivity. Qed.

Ltac finish_notified :=
  eexists; split; [reflexivity |]; split;
    [simpl; repeat match goal with H : kind _ = _ |- _ => rewrite H; clear H end; auto
    | let Hb := fresh "Hb" in
      intro Hb; simpl in Hb;
      repeat match goal with H : transport_ok _ _ = _ |- _ => rewrite H in Hb; clear H end;
      simpl in Hb; try discriminate;
      apply in_or_app; right; simpl; auto].

(** C7 (amended).  Once a valid submission has been saved (the form is
    valid, the database accepts the INSERT and, for services, the model's
    [full_clean] run by [save()] passes on the inquiry as the form's [save]
    built it, request metadata included), the row is stored under the next
    id and kept, the admin send is attempted once and the client send at
    most once (no retry), any refused send is caught and logged, and the
    caller gets the success answer.  That answer carries the inquiry id
    only for AJAX requests; a plain form post is redirected to the success
    page with a flash message and receives no id. *)
Theorem notification_failure_keeps_submission :
  (forall (E : env) (is_ajax : bool) (title : string) (post : list (string * string))
          (w : world Services.ServiceInquiry) (inst : Services.ServiceInquiry),
     Services.form_full_clean (V E) post = ([], inst) ->
     db_up E = true ->
     let inq := Services.form_save (meta E) inst in
     let adj := if 7 <? Services.calculate_spam_score inq
                then Services.set_is_spam true inq else inq in
     fst (Services.full_clean (V E) adj) = [] ->
     let (res, w') := Services.service_inquiry_submit E is_ajax title post w in
     res = inr (if is_ajax
                then JsonResponse 200 true Services.success_message (Some (next_id w)) []
                else Redirect "services:inquiry_success"
                       (Some ("success", Services.success_message))) /\
     db w' = (db w ++ [(next_id w, snd (Services.full_clean (V E) adj))])%list /\
     next_id w' = S (next_id w) /\
     exists ms, attempts w' = (attempts w ++ ms)%list /\
       (map kind ms = [AdminNotification] \/
        map kind ms = [AdminNotification; ClientConfirmation]) /\
       (forallb (transport_ok E) ms = false ->
        In ("error", "Failed to send inquiry notification emails") (log w'))) /\
  (forall (E : env) (is_ajax : bool) (post : list (string * string))
          (w : world Core.ContactInquiry) (inst : Core.ContactInquiry),
     Core.form_full_clean (V E) post = ([], inst) ->
     db_up E = true ->
     let adj := if 7 <? Core.calculate_spam_score inst
                then Core.set_is_spam true inst else inst in
     let (res, w') := Core.handle_contact_submission E is_ajax post w in
     res = inr (if is_ajax
                then JsonResponse 200 true Core.success_message (Some (next_id w)) []
                else Redirect "contact_success" (Some ("success", Core.success_message))) /\
     db w' = (db w ++ [(next_id w, adj)])%list /\
     next_id w' = S (next_id w) /\
     exists ms, attempts w' = (attempts w ++ ms)%list /\
       (map kind ms = [AdminNotification] \/
        map kind ms = [AdminNotification; ClientConfirmation]) /\
       (forallb (transport_ok E) ms = false ->
        In ("error", "Failed to send contact notification") (log w'))).
Proof.
  split.
  - intros E aj t post w inst Hform Hup inq adj Hclean.
    destruct (Services.full_clean (V E) adj) as [errs i'] eqn:Hfc.
    simpl in Hclean. subst errs.
    unfold Services.service_inquiry_submit. rewrite Hform.
    unfold adj, inq in Hfc. clear adj inq.
    destruct (7 <? Services.calculate_spam_score (Services.form_save (meta E) inst));
      cbv beta iota delta [try_except bind ret log_msg]; simpl.
    all: rewrite (services_save_insert E _ i' _ Hfc Hup).
    all: match goal with |- context [Services.send_inquiry_notifications ?E ?i ?st ?w0] =>
           destruct (services_notify_run E i st w0) as (a & c & Ka & _ & _ & Kc & _ & _ & Hn);
           rewrite Hn; clear Hn end.
    all: destruct (transport_ok E a) eqn:Ta; [destruct (transport_ok E c) eqn:Tc |]; simpl.
    all: repeat split.
    all: finish_notified.
  - intros E aj post w inst Hform Hup adj.
    unfold Core.handle_contact_submission. rewrite Hform.
    unfold adj. clear adj.
    destruct (7 <? Core.calculate_spam_score inst);
      cbv beta iota delta [try_except bind ret log_msg]; simpl.
    all: rewrite (core_save_insert E _ _ Hup).
    all: match goal with |- context [Core.send_contact_notifications ?E ?i ?w0] =>
           destruct (core_notify_run E i w0) as (a & c & Ka & _ & _ & Kc & _ & _ & Hn);
           rewrite Hn; clear Hn end.
    all: destruct (transport_ok E a) eqn:Ta; [destruct (transport_ok E c) eqn:Tc |]; simpl.
    all: repeat split.
    all: finish_notified.
Qed.

Lemma notification_failure_keeps_submission_witness :
  fst (Services.service_inquiry_submit Samples.refusing_env true "Web design"
         Samples.service_post Samples.empty_world)
  = inr (JsonResponse 200 true Services.success_message (Some 1) [])
  /\ fst (Core.handle_contact_submission Samples.refusing_env true
            Samples.contact_post Samples.empty_world)
  = inr (JsonResponse 200 true Core.success_message (Some 1) []).
Proof.
  split.
  - pose proof (proj1 notification_failure_keeps_submission Samples.refusing_env true
                  "Web design" Samples.service_post Samples.empty_world
                  (snd (Services.form_full_clean Samples.permissive Samples.service_post))
                  ltac:(vm_compute; reflexivity) eq_refl ltac:(vm_compute; reflexivity)) as H.
    destruct (Services.service_inquiry_submit _ _ _ _ _) as [res w'].
    destruct H as [H _]. exact H.
  - pose proof (proj2 notification_failure_keeps_submission Samples.refusing_env true
                  Samples.contact_post Samples.empty_world
                  (snd (Core.form_full_clean Samples.permissive Samples.contact_post))
                  ltac:(vm_compute; reflexivity) eq_refl) as H.
    destruct (Core.handle_contact_submission _ _ _ _) as [res w'].
    destruct H as [H _]. exact H.
Defined.

(** C7 (as stated, refuted).  A plain (non-AJAX) post whose client
    confirmation is refused is saved under id 1, but the caller is
    redirected with a flash message: the answer carries no identifier. *)
Lemma plain_post_success_without_id_counterexample :
  let (res, w') := Services.service_inquiry_submit Samples.refusing_env false "Web design"
                     Samples.service_post Samples.empty_world in
  res = inr (Redirect "services:inquiry_success" (Some ("success", Services.success_message)))
  /\ map fst (db w') = [1]
  /\ In ("error", "Failed to send inquiry notification emails") (log w').
Proof. vm_compute. repeat split. right. left. reflexivity. Qed.

(** ** Lookups in the table *)

Lemma lookup_app_some {R} (k : nat) (l l' : list (nat * R)) (r : R) :
  lookup k l = Some r -> lookup k (l ++ l')%list = Some r.
Proof.
  induction l as [| [k' r'] t IH]; simpl; [discriminate |].
  destruct (k =? k'); auto.
Qed.

Lemma lookup_app_none {R} (k : nat) (l l' : list (nat * R)) :
  lookup k l = None -> lookup k (l ++ l')%list = lookup k l'.
Proof.
  induction l as [| [k' r'] t IH]; simpl; [reflexivity |].
  destruct (k =? k'); [discriminate | auto].
Qed.

Lemma lookup_in_keys {R} (k : nat) (l : list (nat * R)) (r : R) :
  lookup k l = Some r -> In k (map fst l).
Proof.
  induction l as [| [k' r'] t IH]; simpl; [discriminate |].
  destruct (k =? k') eqn:Hk; [apply Nat.eqb_eq in Hk; auto | auto].
Qed.

Lemma lookup_not_in_keys {R} (k : nat) (l : list (nat * R)) :
  ~ In k (map fst l) -> lookup k l = None.
Proof.
  intro H. destruct (lookup k l) eqn:Hl; [| reflexivity].
  exfalso. exact (H (lookup_in_keys k l r Hl)).
Qed.

Lemma lookup_update_same {R} (k : nat) (r : R) (l : list (nat * R)) :
  lookup k l <> None -> lookup k (update k r l) = Some r.
Proof.
  induction l as [| [k' r'] t IH]; simpl; [congruence |].
  destruct (k =? k') eqn:Hk; simpl; rewrite Hk; auto.
Qed.

Lemma lookup_update_other {R} (k k' : nat) (r : R) (l : list (nat * R)) :
  k <> k' -> lookup k (update k' r l) = lookup k l.
Proof.
  intro Hne. induction l as [| [k0 r0] t IH]; simpl; [reflexivity |].
  destruct (k' =? k0) eqn:H1; simpl.
  - apply Nat.eqb_eq in H1. subst k0.
    destruct (k =? k') eqn:H2; [apply Nat.eqb_eq in H2; congruence | reflexivity].
  - rewrite IH. reflexivity.
Qed.

Lemma keys_update {R} (k : nat) (r : R) (l : list (nat * R)) :
  map fst (update k r l) = map fst l.
Proof.
  induction l as [| [k0 r0] t IH]; simpl; [reflexivity |].
  destruct (k =? k0); simpl; [reflexivity | rewrite IH; reflexivity].
Qed.

Lemma lookup_where {R} (sel : nat -> R -> bool) (f : R -> R) (k : nat) (l : list (nat * R)) :
  lookup k (map (fun kr => if sel (fst kr) (snd kr) then (fst kr, f (snd kr)) else kr) l)
  = option_map (fun r => if sel k r then f r else r) (lookup k l).
Proof.
  induction l as [| [k0 r0] t IH]; simpl; [reflexivity |].
  destruct (sel k0 r0) eqn:Hs; simpl; destruct (k =? k0) eqn:Hk; auto;
    apply Nat.eqb_eq in Hk; subst k0; simpl; rewrite Hs; reflexivity.
Qed.

Lemma keys_where {R} (sel : nat -> R -> bool) (f : R -> R) (l : list (nat * R)) :
  map fst (map (fun kr => if sel (fst kr) (snd kr) then (fst kr, f (snd kr)) else kr) l)
  = map fst l.
Proof.
  induction l as [| [k0 r0] t IH]; simpl; [reflexivity |].
  destruct (sel k0 r0); simpl; rewrite IH; reflexivity.
Qed.

Lemma lookup_of_in {R} (k : nat) (r : R) (l : list (nat * R)) :
  NoDup (map fst l) -> In (k, r) l -> lookup k l = Some r.
Proof.
  induction l as [| [k0 r0] t IH]; simpl; [contradiction |].
  intros Hnd Hin. inversion Hnd as [| x y Hnin Hnd']; subst.
  destruct Hin as [Heq | Hin].
  - inversion Heq; subst. rewrite Nat.eqb_refl. reflexivity.
  - destruct (k =? k0) eqn:Hk.
    + apply Nat.eqb_eq in Hk. subst k0. exfalso. apply Hnin.
      change k with (fst (k, r)). apply in_map. exact Hin.
    + auto.
Qed.

Lemma keys_filter_nodup {R} (p : nat * R -> bool) (l : list (nat * R)) :
  NoDup (map fst l) -> NoDup (map fst (filter p l)).
Proof.
  induction l as [| [k0 r0] t IH]; simpl; [auto |].
  intro Hnd. inversion Hnd as [| x y Hnin Hnd']; subst.
  destruct (p (k0, r0)); simpl; [| auto].
  constructor; [| auto].
  intro Hin. apply Hnin. apply in_map_iff in Hin as [[k1 r1] [Hk Hin]]. simpl in Hk. subst k1.
  apply filter_In in Hin as [Hin _]. change k0 with (fst (k0, r1)). apply in_map. exact Hin.
Qed.

(** ** Preservation of the invariant *)

Section Preservation.
Context {R : Type} (status_of : R -> string) (contacted_of : R -> option nat).

Lemma row_ok_refl (r : R) : row_ok status_of contacted_of r r.
Proof. split; [auto | intros H1 H2; congruence]. Qed.

Lemma row_ok_trans (r1 r2 r3 : R) :
  row_ok status_of contacted_of r1 r2 -> row_ok status_of contacted_of r2 r3 ->
  row_ok status_of contacted_of r1 r3.
Proof.
  intros [C12 S12] [C23 S23]. split; [auto |].
  intros H3 H1. destruct (String.eqb (status_of r2) "contacted") eqn:Hs.
  - apply String.eqb_eq in Hs.
    destruct (contacted_of r2) as [t |] eqn:Hc; [| exfalso; exact (S12 Hs H1 eq_refl)].
    rewrite (C23 t eq_refl). discriminate.
  - apply String.eqb_neq in Hs. exact (S23 H3 Hs).
Qed.

Lemma keeps_refl (w : world R) : keeps status_of contacted_of w w.
Proof. intros k r H. exists r. split; [exact H | apply row_ok_refl]. Qed.

Lemma keeps_trans (w1 w2 w3 : world R) :
  keeps status_of contacted_of w1 w2 -> keeps status_of contacted_of w2 w3 ->
  keeps status_of contacted_of w1 w3.
Proof.
  intros K12 K23 k r H. destruct (K12 k r H) as (r2 & H2 & O12).
  destruct (K23 k r2 H2) as (r3 & H3 & O23).
  exists r3. split; [exact H3 | exact (row_ok_trans _ _ _ O12 O23)].
Qed.

(** A step that leaves the table and the id counter alone. *)
Lemma keeps_same_db (w w' : world R) :
  db w' = db w -> next_id w' = next_id w ->
  (wf w -> wf w') /\ keeps status_of contacted_of w w'.
Proof.
  intros Hd Hn. split.
  - unfold wf. rewrite Hd, Hn. auto.
  - intros k r H. exists r. rewrite Hd. split; [exact H | apply row_ok_refl].
Qed.

Lemma good_ret {A} (a : A) : good status_of contacted_of (ret a).
Proof. intros w Hw. split; [exact Hw | apply keeps_refl]. Qed.

Lemma good_raise {A} (e : exc) : good status_of contacted_of (raise (A := A) e).
Proof. intros w Hw. split; [exact Hw | apply keeps_refl]. Qed.

Lemma good_log (lv msg : string) : good status_of contacted_of (log_msg lv msg).
Proof.
  intros w Hw. destruct (keeps_same_db w (snd (log_msg lv msg w)) eq_refl eq_refl). auto.
Qed.

Lemma good_send (ok : mail -> bool) (m : mail) : good status_of contacted_of (send ok m).
Proof.
  intros w Hw. unfold send. destruct (ok m);
    destruct (keeps_same_db w _ eq_refl eq_refl); simpl; auto.
Qed.

Lemma good_bind {A B} (m : M R A) (k : A -> M R B) :
  good status_of contacted_of m -> (forall a, good status_of contacted_of (k a)) ->
  good status_of contacted_of (bind m k).
Proof.
  intros Hm Hk w Hw. unfold bind.
  destruct (Hm w Hw) as [Hw1 K1]. destruct (m w) as [[e | a] w1]; simpl in *.
  - split; assumption.
  - destruct (Hk a w1 Hw1) as [Hw2 K2]. split; [exact Hw2 | exact (keeps_trans _ _ _ K1 K2)].
Qed.

Lemma good_try {A} (m : M R A) (h : exc -> M R A) :
  good status_of contacted_of m -> (forall e, good status_of contacted_of (h e)) ->
  good status_of contacted_of (try_except m h).
Proof.
  intros Hm Hh w Hw. unfold try_except.
  destruct (Hm w Hw) as [Hw1 K1]. destruct (m w) as [[e | a] w1] eqn:Hmw; simpl in *.
  - destruct (Hh e w1 Hw1) as [Hw2 K2]. split; [exact Hw2 | exact (keeps_trans _ _ _ K1 K2)].
  - split; assumption.
Qed.

Lemma good_update_where (sel : nat -> R -> bool) (f : R -> R) :
  (forall r, row_ok status_of contacted_of r (f r)) ->
  good status_of contacted_of (db_update_where sel f).
Proof.
  intros Hf w [Hnd Hlt]. unfold db_update_where. cbn [snd]. split.
  - unfold wf. cbn [db next_id]. rewrite keys_where. auto.
  - intros k r H. cbn [db]. rewrite lookup_where, H. cbn [option_map].
    destruct (sel k r); eexists; split; try reflexivity; [apply Hf | apply row_ok_refl].
Qed.

(** An INSERT under the next id. *)
Lemma good_insert (up : bool) (r : R) : good status_of contacted_of (db_write up None r).
Proof.
  intros w [Hnd Hlt]. unfold db_write.
  destruct (negb up); simpl; [split; [split; assumption | apply keeps_refl] |].
  split.
  - unfold wf. simpl. rewrite map_app. simpl. split.
    + apply NoDup_app; auto using NoDup_cons, NoDup_nil.
      intros x Hx Hy. simpl in Hy. destruct Hy as [Hy | []]. subst x.
      rewrite Forall_forall in Hlt. specialize (Hlt _ Hx). lia.
    + apply Forall_app. split.
      * eapply Forall_impl; [| exact Hlt]. intros a Ha. simpl in Ha. lia.
      * constructor; [lia | constructor].
  - intros k r0 H. exists r0. split; [apply lookup_app_some; exact H | apply row_ok_refl].
Qed.

(** An UPDATE of the stored row [k]: the other rows are untouched. *)
Lemma write_existing (up : bool) (k : nat) (old r : R) (w : world R) :
  wf w -> lookup k (db w) = Some old -> row_ok status_of contacted_of old r ->
  let w' := snd (db_write up (Some k) r w) in
  wf w' /\ keeps status_of contacted_of w w' /\
  (forall k', k' <> k -> lookup k' (db w') = lookup k' (db w)).
Proof.
  intros [Hnd Hlt] Hl Hok. unfold db_write. rewrite Hl.
  destruct (negb up); simpl.
  - split; [split; assumption | split; [apply keeps_refl | reflexivity]].
  - split; [| split].
    + unfold wf. simpl. rewrite keys_update. split; assumption.
    + intros k0 r0 H0. destruct (Nat.eq_dec k0 k) as [-> | Hne].
      * rewrite Hl in H0. inversion H0; subst r0. exists r.
        cbn [db]. split; [apply lookup_update_same; congruence | exact Hok].
      * exists r0. cbn [db]. rewrite lookup_update_other by exact Hne.
        split; [exact H0 | apply row_ok_refl].
    + intros k' Hne. apply lookup_update_other. exact Hne.
Qed.

(** [for row in rows: body] over rows read from the table. *)
Lemma for_each_good (fe : list (nat * R) -> (nat -> R -> M R unit) -> M R unit)
  (fe_nil : forall body, fe [] body = ret tt)
  (fe_cons : forall k r t body, fe ((k, r) :: t) body = bind (body k r) (fun _ => fe t body))
  (body : nat -> R -> M R unit)
  (Hbody : forall k r w, wf w -> lookup k (db w) = Some r ->
     wf (snd (body k r w)) /\ keeps status_of contacted_of w (snd (body k r w)) /\
     (forall k', k' <> k -> lookup k' (db (snd (body k r w))) = lookup k' (db w))) :
  forall rows w, wf w -> NoDup (map fst rows) ->
    (forall k r, In (k, r) rows -> lookup k (db w) = Some r) ->
    wf (snd (fe rows body w)) /\ keeps status_of contacted_of w (snd (fe rows body w)).
Proof.
  induction rows as [| [k r] t IH]; intros w Hw Hnd Hin.
  - rewrite fe_nil. split; [exact Hw | apply keeps_refl].
  - rewrite fe_cons. unfold bind.
    destruct (Hbody k r w Hw (Hin k r (or_introl eq_refl))) as (Hw1 & K1 & F1).
    inversion Hnd as [| x y Hnin Hnd']; subst.
    destruct (body k r w) as [[e | u] w1]; simpl in *.
    + split; assumption.
    + assert (Hin' : forall k' r', In (k', r') t -> lookup k' (db w1) = Some r').
      { intros k' r' H'. rewrite F1.
        - apply Hin. right. exact H'.
        - intros ->. apply Hnin. change k with (fst (k, r')). apply in_map. exact H'. }
      destruct (IH w1 Hw1 Hnd' Hin') as [Hw2 K2].
      split; [exact Hw2 | exact (keeps_trans _ _ _ K1 K2)].
Qed.

Lemma queryset_rows (p : nat * R -> bool) (w : world R) :
  wf w -> NoDup (map fst (filter p (db w))) /\
  (forall k r, In (k, r) (filter p (db w)) -> lookup k (db w) = Some r).
Proof.
  intros [Hnd _]. split; [apply keys_filter_nodup; exact Hnd |].
  intros k r Hin. apply filter_In in Hin as [Hin _]. apply lookup_of_in; assumption.
Qed.

End Preservation.

Lemma snd_bind_ret {R A B} (m : M R A) (f : A -> B) (w : world R) :
  snd (bind m (fun a => ret (f a)) w) = snd (m w).
Proof. unfold bind, ret. destruct (m w) as [[e | a] w1]; reflexivity. Qed.

(** ** Services: every request keeps the table *)

(** [clean_fields] changes at most the address; [clean] at most the flag. *)
Lemma services_clean_fields_inst (Vd : validators) (x : Services.ServiceInquiry) :
  exists a, snd (Services.clean_fields Vd x) = Services.set_ip_address a x.
Proof.
  unfold Services.clean_fields.
  destruct (Services.ip_address x) as [a |];
    [destruct (is_empty a); [| destruct (ip_clean Vd a)] |]; eexists; reflexivity.
Qed.

Lemma services_clean_inst (x : Services.ServiceInquiry) :
  snd (Services.clean x) = x \/ snd (Services.clean x) = Services.set_is_spam true x.
Proof.
  unfold Services.clean.
  destruct (negb (is_empty (Services.phone x))
            && negb (Services.phone_pattern_match (Services.phone x))); [left; reflexivity |].
  cbv zeta. destruct (any_in _ _); [right | left]; reflexivity.
Qed.

Lemma services_full_clean_split (Vd : validators) (x : Services.ServiceInquiry) :
  Services.full_clean Vd x
  = ((fst (Services.clean_fields Vd x) ++ fst (Services.clean (snd (Services.clean_fields Vd x))))%list,
     snd (Services.clean (snd (Services.clean_fields Vd x)))).
Proof.
  unfold Services.full_clean.
  destruct (Services.clean_fields Vd x) as [e1 x1]. cbn [fst snd].
  destruct (Services.clean x1) as [e2 x2]. reflexivity.
Qed.

Lemma services_full_clean_inst (Vd : validators) (x : Services.ServiceInquiry) :
  exists a, snd (Services.full_clean Vd x) = Services.set_ip_address a x \/
            snd (Services.full_clean Vd x) = Services.set_is_spam true (Services.set_ip_address a x).
Proof.
  rewrite services_full_clean_split. cbn [snd].
  destruct (services_clean_fields_inst Vd x) as [a ->]. exists a.
  apply services_clean_inst.
Qed.

Lemma services_full_clean_fields (Vd : validators) (x : Services.ServiceInquiry) :
  Services.status (snd (Services.full_clean Vd x)) = Services.status x /\
  Services.contacted_at (snd (Services.full_clean Vd x)) = Services.contacted_at x.
Proof.
  destruct (services_full_clean_inst Vd x) as [a [-> | ->]]; split; reflexivity.
Qed.

Lemma services_save_new (E : env) (x : Services.ServiceInquiry) :
  good Services.status Services.contacted_at (Services.save E None x).
Proof.
  unfold Services.save. destruct (Services.full_clean (V E) x) as [errs i'].
  destruct errs; [| apply good_raise].
  apply good_bind; [apply good_insert | intro; apply good_ret].
Qed.

Lemma services_save_existing (E : env) (k : nat) (old x : Services.ServiceInquiry)
  (w : world Services.ServiceInquiry) :
  wf w -> lookup k (db w) = Some old -> row_ok Services.status Services.contacted_at old x ->
  let w' := snd (Services.save E (Some k) x w) in
  wf w' /\ keeps Services.status Services.contacted_at w w' /\
  (forall k', k' <> k -> lookup k' (db w') = lookup k' (db w)).
Proof.
  intros Hw Hl Hok. pose proof (services_full_clean_fields (V E) x) as [Hs Hc].
  unfold Services.save. destruct (Services.full_clean (V E) x) as [errs i'].
  simpl in Hs, Hc. destruct errs.
  - assert (Hok' : row_ok Services.status Services.contacted_at old i')
      by (unfold row_ok in *; rewrite Hs, Hc; exact Hok).
    cbv zeta. rewrite snd_bind_ret with (f := fun id => (id, i')).
    exact (write_existing _ _ (db_up E) k old i' w Hw Hl Hok').
  - split; [exact Hw | split; [apply keeps_refl | reflexivity]].
Qed.

Lemma services_mark_existing (E : env) (pk : nat) (i : Services.ServiceInquiry)
  (w : world Services.ServiceInquiry) :
  wf w -> lookup pk (db w) = Some i ->
  let w' := snd (Services.mark_as_contacted E pk i w) in
  wf w' /\ keeps Services.status Services.contacted_at w w' /\
  (forall k', k' <> pk -> lookup k' (db w') = lookup k' (db w)).
Proof.
  intros Hw Hl. unfold Services.mark_as_contacted. cbv zeta.
  apply services_save_existing with (old := i); [exact Hw | exact Hl |].
  unfold row_ok.
  destruct (Services.contacted_at i) as [t |] eqn:Hc;
    destruct (String.eqb _ "new"); simpl; split; intros; congruence.
Qed.

Ltac row_ok_setters :=
  intro; unfold row_ok; simpl; split; intros; congruence.

Lemma services_run_op_good (E : env) (o : Services.op) :
  good Services.status Services.contacted_at (Services.run_op E o).
Proof.
  destruct o as [aj t post | pk | a sel].
  - unfold Services.run_op. apply good_bind; [| intro; apply good_ret].
    unfold Services.service_inquiry_submit.
    destruct (Services.form_full_clean (V E) post) as [errs inst].
    destruct errs; [| apply good_ret].
    apply good_try; [| intro; apply good_bind; [apply good_log | intro; apply good_ret]].
    cbv zeta. apply good_bind; [destruct (7 <? _); [apply good_log | apply good_ret] | intro].
    apply good_bind; [apply services_save_new | intro].
    apply good_bind; [| intro; apply good_ret].
    apply good_try; [| intro; apply good_log].
    unfold Services.send_inquiry_notifications. cbv zeta.
    repeat (apply good_bind; [first [apply good_send | apply good_log] | intro]).
    apply good_log.
  - intros w Hw. unfold Services.run_op. cbv beta iota delta [bind get_row].
    destruct (lookup pk (db w)) as [i |] eqn:Hl.
    + destruct (services_mark_existing E pk i w Hw Hl) as (H1 & H2 & _).
      destruct (Services.mark_as_contacted E pk i w) as [[e | v] w1]; simpl in *; auto.
    + split; [exact Hw | apply keeps_refl].
  - destruct a; unfold Services.run_op, Services.run_admin_action;
      try (apply good_update_where; row_ok_setters).
    intros w Hw.
    assert (Hq : forall B (k : list (nat * Services.ServiceInquiry) -> M _ B),
               bind (Services.queryset sel) k w
               = k (filter (fun kr => Services.selected sel (fst kr) (snd kr)) (db w)) w)
      by reflexivity.
    rewrite Hq. destruct (queryset_rows (fun kr => Services.selected sel (fst kr) (snd kr)) w Hw)
      as [Hnd Hin].
    apply (for_each_good _ _ Services.for_each (fun _ => eq_refl) (fun _ _ _ _ => eq_refl));
      [| exact Hw | exact Hnd | exact Hin].
    intros k r w0 Hw0 Hl0. rewrite snd_bind_ret with (f := fun _ => tt).
    apply services_save_existing with (old := r); [exact Hw0 | exact Hl0 |].
    unfold row_ok. destruct (Services.contacted_at r) eqn:Hc; simpl; split; intros; congruence.
Qed.

Lemma services_requests_good (rs : list (env * Services.op)) (w : world Services.ServiceInquiry) :
  wf w -> wf (Services.run_requests rs w) /\
          keeps Services.status Services.contacted_at w (Services.run_requests rs w).
Proof.
  revert w. induction rs as [| [E o] t IH]; intros w Hw; simpl.
  - split; [exact Hw | apply keeps_refl].
  - destruct (services_run_op_good E o w Hw) as [Hw1 K1].
    destruct (IH _ Hw1) as [Hw2 K2]. split; [exact Hw2 | exact (keeps_trans _ _ _ _ _ K1 K2)].
Qed.

(** ** Core: every request keeps the table *)

Lemma core_save_new (E : env) (x : Core.ContactInquiry) :
  good Core.status Core.contacted_at (Core.save E None x).
Proof. apply good_insert. Qed.

Lemma core_mark_existing (E : env) (pk : nat) (i : Core.ContactInquiry)
  (w : world Core.ContactInquiry) :
  wf w -> lookup pk (db w) = Some i ->
  let w' := snd (Core.mark_as_contacted E pk i w) in
  wf w' /\ keeps Core.status Core.contacted_at w w' /\
  (forall k', k' <> pk -> lookup k' (db w') = lookup k' (db w)).
Proof.
  intros Hw Hl. unfold Core.mark_as_contacted, Core.save. cbv zeta.
  rewrite snd_bind_ret with (f := fun id => (id, _)).
  apply write_existing with (old := i); [exact Hw | exact Hl |].
  unfold row_ok.
  destruct (Core.contacted_at i) as [t |] eqn:Hc;
    destruct (String.eqb _ "new"); simpl; split; intros; congruence.
Qed.

Lemma core_run_op_good (E : env) (o : Core.op) :
  good Core.status Core.contacted_at (Core.run_op E o).
Proof.
  destruct o as [aj post | pk | a sel].
  - unfold Core.run_op. apply good_bind; [| intro; apply good_ret].
    unfold Core.handle_contact_submission.
    destruct (Core.form_full_clean (V E) post) as [errs inst].
    destruct errs; [| apply good_ret].
    apply good_try; [| intro; apply good_bind; [apply good_log | intro; apply good_ret]].
    cbv zeta. apply good_bind; [destruct (7 <? _); [apply good_log | apply good_ret] | intro].
    apply good_bind; [apply core_save_new | intro].
    apply good_bind; [| intro; apply good_ret].
    apply good_try; [| intro; apply good_log].
    unfold Core.send_contact_notifications. cbv zeta.
    repeat (apply good_bind; [first [apply good_send | apply good_log] | intro]).
    apply good_log.
  - intros w Hw. unfold Core.run_op. cbv beta iota delta [bind get_row].
    destruct (lookup pk (db w)) as [i |] eqn:Hl.
    + destruct (core_mark_existing E pk i w Hw Hl) as (H1 & H2 & _).
      destruct (Core.mark_as_contacted E pk i w) as [[e | v] w1]; simpl in *; auto.
    + split; [exact Hw | apply keeps_refl].
  - destruct a; unfold Core.run_op, Core.run_admin_action;
      try (apply good_update_where; row_ok_setters).
    intros w Hw.
    assert (Hq : forall B (k : list (nat * Core.ContactInquiry) -> M _ B),
               bind (Core.queryset sel) k w
               = k (filter (fun kr => Core.selected sel (fst kr) (snd kr)) (db w)) w)
      by reflexivity.
    rewrite Hq. destruct (queryset_rows (fun kr => Core.selected sel (fst kr) (snd kr)) w Hw)
      as [Hnd Hin].
    apply (for_each_good _ _ Core.for_each (fun _ => eq_refl) (fun _ _ _ _ => eq_refl));
      [| exact Hw | exact Hnd | exact Hin].
    intros k r w0 Hw0 Hl0. rewrite snd_bind_ret with (f := fun _ => tt).
    exact (core_mark_existing E k r w0 Hw0 Hl0).
Qed.

Lemma core_requests_good (rs : list (env * Core.op)) (w : world Core.ContactInquiry) :
  wf w -> wf (Core.run_requests rs w) /\
          keeps Core.status Core.contacted_at w (Core.run_requests rs w).
Proof.
  revert w. induction rs as [| [E o] t IH]; intros w Hw; simpl.
  - split; [exact Hw | apply keeps_refl].
  - destruct (core_run_op_good E o w Hw) as [Hw1 K1].
    destruct (IH _ Hw1) as [Hw2 K2]. split; [exact Hw2 | exact (keeps_trans _ _ _ _ _ K1 K2)].
Qed.

(** ** Stored rows across requests *)

Lemma services_save_result (E : env) (pk : option nat) (x : Services.ServiceInquiry)
  (w : world Services.ServiceInquiry) (res : nat * Services.ServiceInquiry)
  (w' : world Services.ServiceInquiry) :
  Services.save E pk x w = (inr res, w') -> snd res = snd (Services.full_clean (V E) x).
Proof.
  unfold Services.save. destruct (Services.full_clean (V E) x) as [errs i0].
  destruct errs; [| discriminate].
  unfold bind, ret. destruct (db_write (db_up E) pk i0 w) as [[e | n] w1];
    [discriminate | intro H; inversion H; reflexivity].
Qed.

(** C8.  [contacted_at] is set at most once and never cleared.  For any
    sequence of requests (form submissions, [mark_as_contacted], and every
    admin action of both apps) on a well-formed table, every stored row
    stays stored, a set [contacted_at] keeps its value, and a row that
    enters status "contacted" has [contacted_at] set.  [mark_as_contacted]
    itself assigns [contacted_at] only when it is unset and moves the
    status to "contacted" only from "new". *)
Theorem contacted_at_set_once :
  (forall (rs : list (env * Services.op)) (w : world Services.ServiceInquiry),
     wf w ->
     wf (Services.run_requests rs w) /\
     forall k r, lookup k (db w) = Some r ->
       exists r', lookup k (db (Services.run_requests rs w)) = Some r' /\
         (forall t, Services.contacted_at r = Some t -> Services.contacted_at r' = Some t) /\
         (Services.status r' = "contacted" -> Services.status r <> "contacted" ->
          Services.contacted_at r' <> None)) /\
  (forall (rs : list (env * Core.op)) (w : world Core.ContactInquiry),
     wf w ->
     wf (Core.run_requests rs w) /\
     forall k r, lookup k (db w) = Some r ->
       exists r', lookup k (db (Core.run_requests rs w)) = Some r' /\
         (forall t, Core.contacted_at r = Some t -> Core.contacted_at r' = Some t) /\
         (Core.status r' = "contacted" -> Core.status r <> "contacted" ->
          Core.contacted_at r' <> None)) /\
  (forall E pk i w res w',
     Services.mark_as_contacted E pk i w = (inr res, w') ->
     Services.contacted_at (snd res)
       = Some (match Services.contacted_at i with Some t => t | None => now E end) /\
     Services.status (snd res)
       = (if String.eqb (Services.status i) "new" then "contacted" else Services.status i)) /\
  (forall E pk i w res w',
     Core.mark_as_contacted E pk i w = (inr res, w') ->
     Core.contacted_at (snd res)
       = Some (match Core.contacted_at i with Some t => t | None => now E end) /\
     Core.status (snd res)
       = (if String.eqb (Core.status i) "new" then "contacted" else Core.status i)).
Proof.
  split; [| split; [| split]].
  - intros rs w Hw. exact (services_requests_good rs w Hw).
  - intros rs w Hw. exact (core_requests_good rs w Hw).
  - intros E pk i w res w' H. unfold Services.mark_as_contacted in H. cbv zeta in H.
    apply services_save_result in H. rewrite H.
    rewrite (proj1 (services_full_clean_fields _ _)), (proj2 (services_full_clean_fields _ _)).
    destruct (Services.contacted_at i) as [t |] eqn:Hc; simpl;
      destruct (String.eqb (Services.status i) "new"); simpl; rewrite ?Hc; split; reflexivity.
  - intros E pk i w res w' H. unfold Core.mark_as_contacted, bind, ret in H. cbv zeta in H.
    destruct (Core.save E _ _ w) as [[e | n] w1]; [discriminate |].
    inversion H; subst res. simpl.
    destruct (Core.contacted_at i) as [t |] eqn:Hc; simpl;
      destruct (String.eqb (Core.status i) "new"); simpl; rewrite ?Hc; split; reflexivity.
Qed.

Lemma contacted_at_set_once_witness :
  (exists r', lookup 1 (db (Services.run_requests Samples.service_trace Samples.service_world)) = Some r' /\
              Services.contacted_at r' = Some 5) /\
  (exists r', lookup 1 (db (Core.run_requests Samples.contact_trace Samples.contact_world)) = Some r' /\
              Core.contacted_at r' = Some 5).
Proof.
  split.
  - destruct (proj2 (proj1 contacted_at_set_once Samples.service_trace Samples.service_world
                       ltac:(split; simpl; repeat constructor; simpl; tauto)) 1 _ eq_refl)
      as (r' & H1 & H2 & _).
    exists r'. split; [exact H1 | apply H2; reflexivity].
  - destruct (proj2 (proj1 (proj2 contacted_at_set_once) Samples.contact_trace Samples.contact_world
                       ltac:(split; simpl; repeat constructor; simpl; tauto)) 1 _ eq_refl)
      as (r' & H1 & H2 & _).
    exists r'. split; [exact H1 | apply H2; reflexivity].
Defined.

(** C9.  A successful [ServiceInquiry.save()] ran [full_clean], whose
    [clean] sets [is_spam]: whenever the description contains one of the
    model-level keywords, the saved row is the instance with [is_spam]
    true (as [clean_fields] left it: only its address may have been
    normalised), whatever its previous flag or spam score, and that row is
    what the table holds under the returned id. *)
Theorem save_flags_keyword_spam :
  forall (E : env) (pk : option nat) (i : Services.ServiceInquiry)
         (w : world Services.ServiceInquiry) (id : nat) (i' : Services.ServiceInquiry)
         (w' : world Services.ServiceInquiry),
    wf w ->
    Services.save E pk i w = (inr (id, i'), w') ->
    any_in Services.model_spam_keywords (lower (Services.project_description i)) = true ->
    i' = Services.set_is_spam true (snd (Services.clean_fields (V E) i)) /\
    Services.is_spam i' = true /\
    lookup id (db w') = Some i'.
Proof.
  intros E pk i w id i' w' [Hnd Hlt] Hsave Hkw.
  assert (Hi' : i' = Services.set_is_spam true (snd (Services.clean_fields (V E) i))).
  { pose proof (services_save_result _ _ _ _ _ _ Hsave) as H. simpl in H. rewrite H.
    unfold Services.save in Hsave.
    destruct (Services.full_clean (V E) i) as [errs i0] eqn:Hfc.
    destruct errs; [| discriminate].
    rewrite services_full_clean_split in Hfc.
    destruct (services_clean_fields_inst (V E) i) as [a Ha]. rewrite Ha in Hfc |- *.
    unfold Services.clean in Hfc. cbv zeta in Hfc.
    change (Services.project_description (Services.set_ip_address a i))
      with (Services.project_description i) in Hfc.
    rewrite Hkw in Hfc.
    destruct (negb (is_empty (Services.phone (Services.set_ip_address a i)))
              && negb (Services.phone_pattern_match (Services.phone (Services.set_ip_address a i))));
      cbn [fst snd] in Hfc.
    - inversion Hfc as [[Happ]]. apply app_eq_nil in Happ as [_ Happ]. discriminate.
    - inversion Hfc. reflexivity. }
  split; [exact Hi' | split; [subst i'; reflexivity |]].
  unfold Services.save in Hsave.
  destruct (Services.full_clean (V E) i) as [errs i0] eqn:Hfc.
  destruct errs; [| discriminate].
  unfold bind, ret, db_write in Hsave.
  destruct (negb (db_up E)); [discriminate |].
  destruct pk as [k |].
  - destruct (lookup k (db w)) eqn:Hl; inversion Hsave; subst; simpl.
    + apply lookup_update_same. congruence.
    + rewrite lookup_app_none by exact Hl. simpl. rewrite Nat.eqb_refl. reflexivity.
  - inversion Hsave; subst; simpl.
    rewrite lookup_app_none.
    + simpl. rewrite Nat.eqb_refl. reflexivity.
    + apply lookup_not_in_keys. intro Hin. rewrite Forall_forall in Hlt.
      specialize (Hlt _ Hin). lia.
Qed.

Lemma save_flags_keyword_spam_witness :
  exists i', fst (Services.save Samples.refusing_env None Samples.keyword_inquiry Samples.empty_world)
             = inr (1, i') /\ Services.is_spam i' = true.
Proof.
  destruct (save_flags_keyword_spam Samples.refusing_env None Samples.keyword_inquiry Samples.empty_world
              1 (Services.set_is_spam true Samples.keyword_inquiry)
              (snd (Services.save Samples.refusing_env None Samples.keyword_inquiry Samples.empty_world))
              ltac:(split; constructor) ltac:(vm_compute; reflexivity) ltac:(vm_compute; reflexivity))
    as (_ & H2 & _).
  exists (Services.set_is_spam true Samples.keyword_inquiry). split; [vm_compute; reflexivity | exact H2].
Defined.

(** * Further properties of the code *)

Lemma lstrip_idem (s : string) : lstrip (lstrip s) = lstrip s.
Proof.
  induction s as [| c t IH]; [reflexivity |].
  simpl. destruct (isspace c) eqn:Hc; [exact IH | simpl; rewrite Hc; reflexivity].
Qed.

Lemma rstrip_idem (s : string) : rstrip (rstrip s) = rstrip s.
Proof.
  induction s as [| c t IH]; [reflexivity |].
  simpl. destruct (rstrip t) as [| c' t'] eqn:Hr.
  - destruct (isspace c) eqn:Hc; simpl; [reflexivity | rewrite Hc; reflexivity].
  - change (rstrip (String c (String c' t'))) with
      (match rstrip (String c' t') with
       | EmptyString => if isspace c then EmptyString else String c EmptyString
       | r => String c r end).
    rewrite IH. reflexivity.
Qed.

(** [rstrip] keeps a non-space first character. *)
Lemma lstrip_rstrip_lstrip (s : string) : lstrip (rstrip (lstrip s)) = rstrip (lstrip s).
Proof.
  induction s as [| c t IH]; [reflexivity |].
  simpl. destruct (isspace c) eqn:Hc; [exact IH |].
  simpl. destruct (rstrip t); simpl; rewrite ?Hc; simpl; rewrite ?Hc; reflexivity.
Qed.

Lemma strip_idem (s : string) : strip (strip s) = strip s.
Proof. unfold strip. rewrite lstrip_rstrip_lstrip, rstrip_idem. reflexivity. Qed.

Lemma isspace_lower_char (c : ascii) : isspace (lower_char c) = isspace c.
Proof.
  unfold lower_char. destruct (isupper c) eqn:Hu; [| reflexivity].
  unfold isupper in Hu. unfold isspace.
  apply andb_true_iff in Hu as [H1 H2]. apply Nat.leb_le in H1, H2.
  rewrite nat_ascii_embedding by lia.
  destruct (9 <=? nat_of_ascii c + 32) eqn:A1, (nat_of_ascii c + 32 <=? 13) eqn:A2,
           (28 <=? nat_of_ascii c + 32) eqn:A3, (nat_of_ascii c + 32 <=? 32) eqn:A4,
           (9 <=? nat_of_ascii c) eqn:B1, (nat_of_ascii c <=? 13) eqn:B2,
           (28 <=? nat_of_ascii c) eqn:B3, (nat_of_ascii c <=? 32) eqn:B4;
    simpl; try reflexivity;
    repeat match goal with H : (_ <=? _) = _ |- _ => first [apply Nat.leb_le in H | apply Nat.leb_gt in H] end;
    lia.
Qed.

Lemma lower_char_idem (c : ascii) : lower_char (lower_char c) = lower_char c.
Proof.
  unfold lower_char at 2 3. destruct (isupper c) eqn:Hu; [| unfold lower_char; rewrite Hu; reflexivity].
  unfold isupper in Hu. apply andb_true_iff in Hu as [H1 H2]. apply Nat.leb_le in H1, H2.
  unfold lower_char, isupper. rewrite nat_ascii_embedding by lia.
  replace ((65 <=? nat_of_ascii c + 32) && (nat_of_ascii c + 32 <=? 90)) with false; [reflexivity |].
  symmetry. apply andb_false_iff. right. apply Nat.leb_gt. lia.
Qed.

Lemma lower_cons (c : ascii) (t : string) : lower (String c t) = String (lower_char c) (lower t).
Proof. reflexivity. Qed.

Lemma lower_idem (s : string) : lower (lower s) = lower s.
Proof. induction s as [| c t IH]; [reflexivity |]. rewrite !lower_cons, lower_char_idem, IH. reflexivity. Qed.

Lemma lstrip_lower (s : string) : lstrip (lower s) = lower (lstrip s).
Proof.
  induction s as [| c t IH]; [reflexivity |].
  rewrite lower_cons. simpl. rewrite isspace_lower_char. destruct (isspace c); [exact IH | reflexivity].
Qed.

Lemma rstrip_lower (s : string) : rstrip (lower s) = lower (rstrip s).
Proof.
  induction s as [| c t IH]; [reflexivity |].
  rewrite lower_cons. simpl. rewrite IH, isspace_lower_char. destruct (rstrip t); simpl; [| reflexivity].
  destruct (isspace c); reflexivity.
Qed.

Lemma strip_lower (s : string) : strip (lower s) = lower (strip s).
Proof. unfold strip. rewrite lstrip_lower, rstrip_lower. reflexivity. Qed.

Lemma count_upper_lower (s : string) : count_upper (lower s) = 0.
Proof.
  induction s as [| c t IH]; [reflexivity |].
  rewrite lower_cons. unfold count_upper; fold count_upper. rewrite IH. unfold lower_char. destruct (isupper c) eqn:Hu.
  - unfold isupper in *. apply andb_true_iff in Hu as [H1 H2]. apply Nat.leb_le in H1, H2.
    rewrite nat_ascii_embedding by lia.
    replace ((65 <=? nat_of_ascii c + 32) && (nat_of_ascii c + 32 <=? 90)) with false; [reflexivity |].
    symmetry. apply andb_false_iff. right. apply Nat.leb_gt. lia.
  - rewrite Hu. reflexivity.
Qed.

(** X1.  [clean_phone] of both forms accepts a value exactly when its
    stripped form is empty, or is all digits once spaces, dashes,
    parentheses and plus signs are removed and has 7 to 15 of them; what it
    returns is the stripped value. *)
Theorem clean_phone_accepts (v p : string) :
  (Services.clean_phone v = Ok p <->
     p = strip v /\
     (strip v = "" \/
      (str_isdigit (strip_phone_formatting (strip v)) = true /\
       7 <= String.length (strip_phone_formatting (strip v)) <= 15))) /\
  (Core.clean_phone v = Ok p <->
     p = strip v /\
     (strip v = "" \/
      (str_isdigit (strip_phone_formatting (strip v)) = true /\
       7 <= String.length (strip_phone_formatting (strip v)) <= 15))).
Proof.
  unfold Services.clean_phone, Core.clean_phone. cbv zeta.
  destruct (strip v) as [| c t] eqn:Hs; simpl.
  - split; split; [intro H; inversion H; auto | intros [-> _]; reflexivity
                  | intro H; inversion H; auto | intros [-> _]; reflexivity].
  - destruct (str_isdigit _) eqn:Hd; simpl;
      [destruct (_ <? 7) eqn:H7; destruct (15 <? _) eqn:H15; simpl;
       apply Nat.ltb_lt in H7 || apply Nat.ltb_ge in H7;
       apply Nat.ltb_lt in H15 || apply Nat.ltb_ge in H15 |];
      (split; split;
       [intro H; inversion H; subst; split; auto; try discriminate; try (right; split; auto; lia)
       | intros [-> [H | [H1 H2]]]; try discriminate; try reflexivity; try lia
       | intro H; inversion H; subst; split; auto; try discriminate; try (right; split; auto; lia)
       | intros [-> [H | [H1 H2]]]; try discriminate; try reflexivity; try lia]).
Qed.

Lemma email_normal_facts (v : string) :
  strip (lower (strip v)) = lower (strip v) /\
  lower (strip (lower (strip v))) = lower (strip v) /\
  lower (strip (lower v)) = lower (strip v).
Proof.
  assert (Hn : strip (lower (strip v)) = lower (strip v))
    by (rewrite strip_lower, strip_idem; reflexivity).
  split; [exact Hn | split].
  - rewrite Hn, lower_idem. reflexivity.
  - rewrite strip_lower, lower_idem. reflexivity.
Qed.

Lemma services_email_normal (v e : string) :
  Services.clean_email v = Ok e ->
  e = lower (strip v) /\ strip e = e /\ count_upper e = 0 /\ Services.clean_email e = Ok e.
Proof.
  destruct (email_normal_facts v) as (Hn & Hl & _).
  unfold Services.clean_email. cbv zeta.
  destruct (in_list _ _) eqn:Hin; intro H; inversion H; subst; rewrite Hl, Hin;
    (split; [reflexivity | split; [exact Hn | split; [apply count_upper_lower | reflexivity]]]).
Qed.

Lemma core_email_normal (v e : string) :
  Core.clean_email v = Ok e ->
  e = lower (strip v) /\ strip e = e /\ count_upper e = 0 /\ Core.clean_email e = Ok e.
Proof.
  destruct (email_normal_facts v) as (Hn & Hl & _).
  unfold Core.clean_email. cbv zeta.
  destruct (in_list _ _) eqn:Hin; intro H; inversion H; subst; rewrite Hl, Hin;
    (split; [reflexivity | split; [exact Hn | split; [apply count_upper_lower | reflexivity]]]).
Qed.

(** X2.  [clean_email] of both forms returns the stripped, lowercased
    input: the result has no surrounding whitespace and no uppercase letter,
    cleaning it again returns it unchanged, and lowercasing the input first
    changes nothing. *)
Theorem clean_email_normalises (v e : string) :
  (Services.clean_email v = Ok e ->
     e = lower (strip v) /\ strip e = e /\ count_upper e = 0 /\ Services.clean_email e = Ok e) /\
  Services.clean_email (lower v) = Services.clean_email v /\
  (Core.clean_email v = Ok e ->
     e = lower (strip v) /\ strip e = e /\ count_upper e = 0 /\ Core.clean_email e = Ok e) /\
  Core.clean_email (lower v) = Core.clean_email v.
Proof.
  destruct (email_normal_facts v) as (_ & _ & Hv).
  split; [apply services_email_normal |].
  split; [unfold Services.clean_email; cbv zeta; rewrite Hv; reflexivity |].
  split; [apply core_email_normal |].
  unfold Core.clean_email; cbv zeta; rewrite Hv; reflexivity.
Qed.

Ltac strip_validator :=
  let v := fresh "v" in let x := fresh "x" in let H := fresh "H" in
  let Hs := fresh "Hs" in let s := fresh "s" in
  intros v x H;
  match goal with |- ?m _ = _ => unfold m in *; cbv zeta in * end;
  pose proof (strip_idem v) as Hs; remember (strip v) as s;
  assert (x = s) as -> by
    (revert H; repeat match goal with |- context [if ?b then _ else _] => destruct b end;
     intro H; inversion H; reflexivity);
  rewrite Hs; exact H.

(** X3.  Every [clean_<field>] method of both forms is idempotent: a value
    it returns is accepted again and returned unchanged. *)
Theorem form_cleaners_idempotent :
  (forall v x, Services.clean_full_name v = Ok x -> Services.clean_full_name x = Ok x) /\
  (forall v x, Services.clean_email v = Ok x -> Services.clean_email x = Ok x) /\
  (forall v x, Services.clean_phone v = Ok x -> Services.clean_phone x = Ok x) /\
  (forall v x, Services.clean_project_description v = Ok x ->
               Services.clean_project_description x = Ok x) /\
  (forall v x, Services.clean_reference_url v = Ok x -> Services.clean_reference_url x = Ok x) /\
  (forall v x, Services.clean_website v = Ok x -> Services.clean_website x = Ok x) /\
  (forall v x, Core.clean_full_name v = Ok x -> Core.clean_full_name x = Ok x) /\
  (forall v x, Core.clean_email v = Ok x -> Core.clean_email x = Ok x) /\
  (forall v x, Core.clean_phone v = Ok x -> Core.clean_phone x = Ok x) /\
  (forall v x, Core.clean_project_description v = Ok x ->
               Core.clean_project_description x = Ok x) /\
  (forall v x, Core.clean_website v = Ok x -> Core.clean_website x = Ok x).
Proof.
  split; [strip_validator |].
  split; [intros v x H; exact (proj2 (proj2 (proj2 (services_email_normal v x H)))) |].
  split; [strip_validator |].
  split; [strip_validator |].
  split; [strip_validator |].
  split; [unfold Services.clean_website; intros v x H;
          destruct (is_empty v) eqn:He; simpl in H; inversion H; subst; rewrite He; reflexivity |].
  split; [strip_validator |].
  split; [intros v x H; exact (proj2 (proj2 (proj2 (core_email_normal v x H)))) |].
  split; [strip_validator |].
  split; [strip_validator |].
  unfold Core.clean_website; intros v x H.
  destruct (is_empty v) eqn:He; simpl in H; inversion H; subst; reflexivity.
Qed.

Lemma dict_get_in (d : list (string * string)) (k dflt : string) :
  In k (map fst d) -> In (dict_get d k dflt) (map snd d).
Proof.
  induction d as [| [k' v] t IH]; simpl; [tauto |].
  intros [-> | H]; rewrite ?String.eqb_refl; [left; reflexivity |].
  destruct (String.eqb k k'); [left; reflexivity | right; auto].
Qed.

Lemma dict_get_not_in (d : list (string * string)) (k dflt : string) :
  ~ In k (map fst d) -> dict_get d k dflt = dflt.
Proof.
  induction d as [| [k' v] t IH]; simpl; [reflexivity |].
  intro H. destruct (String.eqb k k') eqn:E.
  - apply String.eqb_eq in E. subst. tauto.
  - apply IH. tauto.
Qed.

Lemma in_list_In (x : string) (xs : list string) : in_list x xs = true <-> In x xs.
Proof.
  unfold in_list. rewrite existsb_exists. split.
  - intros (y & Hy & E). apply String.eqb_eq in E. subst. exact Hy.
  - intro H. exists x. split; [exact H | apply String.eqb_refl].
Qed.

Lemma services_budget_display_known (si : Services.ServiceInquiry) :
  In (Services.budget_range si) Services.BUDGET_CHOICES -> Services.get_budget_display_verbose si <> "Unknown".
Proof.
  intros Hin H. unfold Services.get_budget_display_verbose in H.
  simpl in Hin. repeat destruct Hin as [Hin | Hin]; try contradiction;
    rewrite <- Hin in H; discriminate.
Qed.

Lemma core_budget_display_known (ci : Core.ContactInquiry) :
  In (Core.budget_range ci) Core.BUDGET_CHOICES -> Core.get_budget_display_verbose ci <> Core.budget_range ci.
Proof.
  intros Hin H. unfold Core.get_budget_display_verbose in H.
  simpl in Hin. repeat destruct Hin as [Hin | Hin]; try contradiction;
    rewrite <- Hin in H; discriminate.
Qed.

Lemma core_timeline_display_known (ci : Core.ContactInquiry) :
  In (Core.timeline ci) Core.TIMELINE_CHOICES -> Core.get_timeline_display_verbose ci <> Core.timeline ci.
Proof.
  intros Hin H. unfold Core.get_timeline_display_verbose in H.
  simpl in Hin. repeat destruct Hin as [Hin | Hin]; try contradiction;
    rewrite <- Hin in H; discriminate.
Qed.

(** X4.  [get_budget_display_verbose] of a service inquiry returns its
    default "Unknown" exactly when the budget is not one of the model's
    choices; the contact inquiry's budget and timeline displays fall back to
    the raw value exactly when it is not one of the choices. *)
Theorem verbose_displays_cover_choices (si : Services.ServiceInquiry) (ci : Core.ContactInquiry) :
  (Services.get_budget_display_verbose si = "Unknown" <->
     ~ In (Services.budget_range si) Services.BUDGET_CHOICES) /\
  (Core.get_budget_display_verbose ci = Core.budget_range ci <->
     ~ In (Core.budget_range ci) Core.BUDGET_CHOICES) /\
  (Core.get_timeline_display_verbose ci = Core.timeline ci <->
     ~ In (Core.timeline ci) Core.TIMELINE_CHOICES).
Proof.
  split; [| split]; split.
  - intros H Hin. exact (services_budget_display_known si Hin H).
  - intro H. unfold Services.get_budget_display_verbose. apply dict_get_not_in. exact H.
  - intros H Hin. exact (core_budget_display_known ci Hin H).
  - intro H. unfold Core.get_budget_display_verbose. apply dict_get_not_in. exact H.
  - intros H Hin. exact (core_timeline_display_known ci Hin H).
  - intro H. unfold Core.get_timeline_display_verbose. apply dict_get_not_in. exact H.
Qed.

(** X5.  A high-value service inquiry (budget "50k_100k" or "over_100k")
    has priority score at least 7, so the admin's priority indicator never
    shows it in the low-priority grey. *)
Theorem high_value_priority (i : Services.ServiceInquiry) :
  Services.is_high_value i = true ->
  7 <= Services.get_priority_score i /\ fst (Services.priority_indicator i) <> "#6b7280".
Proof.
  intro H. unfold Services.is_high_value in H.
  assert (Hp : 7 <= Services.get_priority_score i).
  { unfold Services.get_priority_score. cbv zeta.
    apply in_list_In in H. simpl in H.
    destruct H as [H | [H | []]]; rewrite <- H; unfold in_list; simpl;
      destruct (Services.service i);
      repeat match goal with |- context [if ?b then _ else _] => destruct b end; simpl; lia. }
  split; [exact Hp |]. unfold Services.priority_indicator. cbv zeta.
  destruct (8 <=? _); [discriminate |].
  replace (6 <=? Services.get_priority_score i) with true by (symmetry; apply Nat.leb_le; lia).
  discriminate.
Qed.

Lemma high_value_priority_witness :
  7 <= Services.get_priority_score
         (Samples.service_inquiry Samples.plain_description "jane@acme.org" "" "" "over_100k"
            "planned" None) /\
  fst (Services.priority_indicator
         (Samples.service_inquiry Samples.plain_description "jane@acme.org" "" "" "over_100k"
            "planned" None)) <> "#6b7280".
Proof. apply high_value_priority. reflexivity. Defined.

Section RowPred.
Context {R : Type} (P : R -> Prop).

Lemma pres_same_db {A} (m : M R A) : (forall w, db (snd (m w)) = db w) -> pres P m.
Proof. intros H w Hw. unfold rows_ok. rewrite H. exact Hw. Qed.

Lemma pres_ret {A} (a : A) : pres P (ret a).
Proof. apply pres_same_db. reflexivity. Qed.

Lemma pres_raise {A} (e : exc) : pres P (raise (A := A) e).
Proof. apply pres_same_db. reflexivity. Qed.

Lemma pres_log (lv msg : string) : pres P (log_msg lv msg).
Proof. apply pres_same_db. reflexivity. Qed.

Lemma pres_send (ok : mail -> bool) (m : mail) : pres P (send ok m).
Proof. apply pres_same_db. intro w. unfold send. destruct (ok m); reflexivity. Qed.

Lemma pres_bind {A B} (m : M R A) (k : A -> M R B) :
  pres P m -> (forall a, pres P (k a)) -> pres P (bind m k).
Proof.
  intros Hm Hk w Hw. unfold bind. specialize (Hm w Hw).
  destruct (m w) as [[e | a] w1]; simpl in *; [exact Hm | exact (Hk a w1 Hm)].
Qed.

Lemma pres_try {A} (m : M R A) (h : exc -> M R A) :
  pres P m -> (forall e, pres P (h e)) -> pres P (try_except m h).
Proof.
  intros Hm Hh w Hw. unfold try_except. specialize (Hm w Hw).
  destruct (m w) as [[e | a] w1]; simpl in *; [exact (Hh e w1 Hm) | exact Hm].
Qed.

Lemma pres_update_where (sel : nat -> R -> bool) (f : R -> R) :
  (forall r, P r -> P (f r)) -> pres P (db_update_where sel f).
Proof.
  intros Hf w Hw. unfold db_update_where, rows_ok in *. cbn [snd db].
  rewrite Forall_map. eapply Forall_impl; [| exact Hw].
  intros [k r] Hr. simpl in *. destruct (sel k r); simpl; auto.
Qed.

Lemma Forall_update (k : nat) (r : R) (rows : list (nat * R)) :
  P r -> Forall (fun kr => P (snd kr)) rows -> Forall (fun kr => P (snd kr)) (update k r rows).
Proof.
  intros Hr. induction rows as [| [k' r'] t IH]; simpl; [auto |].
  intro H. inversion H; subst. destruct (Nat.eqb k k'); constructor; auto.
Qed.

Lemma pres_write (up : bool) (pk : option nat) (r : R) : P r -> pres P (db_write up pk r).
Proof.
  intros Hr w Hw. unfold db_write, rows_ok in *. destruct (negb up); [exact Hw |].
  destruct pk as [k |]; [destruct (lookup k (db w)) |]; cbn [snd db];
    first [apply Forall_update; assumption
          | apply Forall_app; split; [exact Hw | constructor; [exact Hr | constructor]]].
Qed.

Lemma pres_for_each (fe : list (nat * R) -> (nat -> R -> M R unit) -> M R unit)
  (fe_nil : forall body, fe [] body = ret tt)
  (fe_cons : forall k r t body, fe ((k, r) :: t) body = bind (body k r) (fun _ => fe t body))
  (body : nat -> R -> M R unit) :
  (forall k r, P r -> pres P (body k r)) ->
  forall rows, Forall (fun kr => P (snd kr)) rows -> pres P (fe rows body).
Proof.
  intros Hb rows. induction rows as [| [k r] t IH]; intro Hr.
  - rewrite fe_nil. apply pres_ret.
  - inversion Hr; subst. rewrite fe_cons. apply pres_bind; [apply Hb; assumption | intro; auto].
Qed.

Lemma rows_ok_lookup (w : world R) (k : nat) (r : R) :
  rows_ok P w -> lookup k (db w) = Some r -> P r.
Proof.
  unfold rows_ok. generalize (db w). intro rows. induction rows as [| [k' r'] t IH]; simpl;
    [discriminate |].
  intros H. inversion H; subst. destruct (Nat.eqb k k'); [intro E; inversion E; subst; auto | auto].
Qed.

(** [for inquiry in queryset: body] over the rows selected by [p]. *)
Lemma pres_queryset_bind {B} (p : nat * R -> bool) (k : list (nat * R) -> M R B) :
  (forall rows, Forall (fun kr => P (snd kr)) rows -> pres P (k rows)) ->
  pres P (bind (fun w => (inr (filter p (db w)), w)) k).
Proof.
  intros Hk w Hw. unfold bind. apply Hk; [| exact Hw].
  unfold rows_ok in Hw. rewrite Forall_forall in *. intros x Hx.
  apply filter_In in Hx as [Hx _]. auto.
Qed.

End RowPred.

Lemma model_char_nil (n : string) (ml : option nat) (minl : nat) (ok : string -> bool) (v : string) :
  model_char n false ml minl ok v = [] -> ok v = true.
Proof.
  unfold model_char. destruct (is_empty v); [discriminate |].
  destruct (too_long ml v); [discriminate |]. destruct (_ <? _); [discriminate |].
  destruct (ok v); [reflexivity | discriminate].
Qed.

(** A successful model validation leaves the choice fields valid. *)
Lemma services_full_clean_choices (Vd : validators) (x : Services.ServiceInquiry) :
  fst (Services.full_clean Vd x) = [] -> service_choices_ok (snd (Services.full_clean Vd x)).
Proof.
  rewrite services_full_clean_split. cbn [fst snd].
  intro H. apply app_eq_nil in H as [H _].
  assert (Hx : forall y, y = snd (Services.clean (snd (Services.clean_fields Vd x))) ->
                 Services.budget_range y = Services.budget_range x /\
                 Services.timeline y = Services.timeline x /\
                 Services.status y = Services.status x).
  { intros y ->. destruct (services_clean_fields_inst Vd x) as [a ->].
    destruct (services_clean_inst (Services.set_ip_address a x)) as [-> | ->]; auto. }
  unfold service_choices_ok. destruct (Hx _ eq_refl) as (-> & -> & ->). clear Hx.
  unfold Services.clean_fields in H.
  destruct (Services.ip_address x) as [a |];
    [destruct (is_empty a); [| destruct (ip_clean Vd a)] |];
    cbv beta iota in H; cbn [fst] in H;
    repeat (apply app_eq_nil in H as [?H H]);
    repeat split; apply in_list_In;
    match goal with
    | Hb : model_char "budget_range" _ _ _ ?ok _ = [] |- in_list (Services.budget_range x) _ = _ =>
        exact (model_char_nil _ _ _ ok _ Hb)
    | Hb : model_char "timeline" _ _ _ ?ok _ = [] |- in_list (Services.timeline x) _ = _ =>
        exact (model_char_nil _ _ _ ok _ Hb)
    | Hb : model_char "status" _ _ _ ?ok _ = [] |- in_list (Services.status x) _ = _ =>
        exact (model_char_nil _ _ _ ok _ Hb)
    end.
Qed.

Lemma services_save_pres (E : env) (pk : option nat) (x : Services.ServiceInquiry) :
  pres service_choices_ok (Services.save E pk x).
Proof.
  unfold Services.save. pose proof (services_full_clean_choices (V E) x) as Hc.
  destruct (Services.full_clean (V E) x) as [errs x'].
  destruct errs; [| apply pres_raise].
  apply pres_bind; [apply pres_write; exact (Hc eq_refl) | intro; apply pres_ret].
Qed.

Lemma services_run_op_choices (E : env) (o : Services.op) :
  pres service_choices_ok (Services.run_op E o).
Proof.
  destruct o as [aj t post | pk | a sel].
  - unfold Services.run_op. apply pres_bind; [| intro; apply pres_ret].
    unfold Services.service_inquiry_submit.
    destruct (Services.form_full_clean (V E) post) as [errs inst].
    destruct errs; [| apply pres_ret].
    apply pres_try; [| intro; apply pres_bind; [apply pres_log | intro; apply pres_ret]].
    cbv zeta. apply pres_bind; [destruct (7 <? _); [apply pres_log | apply pres_ret] | intro].
    apply pres_bind; [apply services_save_pres | intro].
    apply pres_bind; [| intro; apply pres_ret].
    apply pres_try; [| intro; apply pres_log].
    unfold Services.send_inquiry_notifications. cbv zeta.
    repeat (apply pres_bind; [first [apply pres_send | apply pres_log] | intro]).
    apply pres_log.
  - unfold Services.run_op. apply pres_bind; [apply pres_same_db; reflexivity | intros [i |]].
    + apply pres_bind; [| intro; apply pres_ret]. apply services_save_pres.
    + apply pres_raise.
  - destruct a; unfold Services.run_op, Services.run_admin_action;
      try (apply pres_update_where; intros r (Hb & Ht & Hs); repeat split; simpl;
           first [assumption | simpl; tauto]).
    apply pres_queryset_bind.
    apply (pres_for_each _ Services.for_each (fun _ => eq_refl) (fun _ _ _ _ => eq_refl)).
    intros k r _. apply pres_bind; [apply services_save_pres | intro; apply pres_ret].
Qed.

Lemma services_requests_choices (rs : list (env * Services.op)) (w : world Services.ServiceInquiry) :
  rows_ok service_choices_ok w -> rows_ok service_choices_ok (Services.run_requests rs w).
Proof.
  revert w. induction rs as [| [E o] t IH]; intros w Hw; simpl; [exact Hw |].
  apply IH. apply services_run_op_choices. exact Hw.
Qed.

Lemma run_validators_errors (v : string) (l es : list string) :
  run_validators v l = Errors es -> es <> [].
Proof. destruct l; simpl; congruence. Qed.

(** A field that fails records at least one error. *)
Lemma field_clean_errors (Vd : validators) (k : field_kind) (raw : string) (es : list string) :
  field_clean Vd k raw = Errors es -> es <> [].
Proof.
  destruct k; unfold field_clean; cbv zeta;
    repeat match goal with
           | |- (if ?b then _ else _) = _ -> _ => destruct b
           | |- match ?o with Some _ => _ | None => _ end = _ -> _ => destruct o
           end;
    first [apply run_validators_errors | intro H; inversion H; discriminate].
Qed.

Lemma clean_field_errors (Vd : validators) (f : field) (raw : string) (es : list string) :
  clean_field Vd f raw = Errors es -> es <> [].
Proof.
  unfold clean_field. destruct (field_clean Vd (fkind f) raw) as [v | es0] eqn:Hf.
  - destruct (clean_method f) as [m |]; [destruct (m v) |]; intro H; inversion H; discriminate.
  - intro H. inversion H; subst. exact (field_clean_errors _ _ _ _ Hf).
Qed.

(** The cleaned data of a valid form: every field's value is the one its
    cleaning produced. *)
Lemma clean_fields_ok (Vd : validators) (fs : list field) (data : list (string * string))
  (cd : list (string * string)) :
  Forms.clean_fields Vd fs data = (cd, []) -> NoDup (map fname fs) ->
  forall f, In f fs -> clean_field Vd f (post_get data (fname f)) = Cleaned (get cd (fname f)).
Proof.
  revert cd. induction fs as [| g t IH]; intros cd H Hnd f Hin; [destruct Hin |].
  simpl in H. destruct (Forms.clean_fields Vd t data) as [cd' errs'] eqn:Ht.
  inversion Hnd as [| x y Hnin Hnd']; subst.
  destruct (clean_field Vd g (post_get data (fname g))) as [v | es] eqn:Hg;
    [| apply clean_field_errors in Hg; destruct es; [contradiction | simpl in H; discriminate]].
  inversion H; subst cd errs'.
  destruct Hin as [<- | Hin].
  - simpl. rewrite String.eqb_refl. exact Hg.
  - simpl. destruct (String.eqb (fname f) (fname g)) eqn:E.
    + apply String.eqb_eq in E. exfalso. apply Hnin. rewrite <- E. apply in_map. exact Hin.
    + exact (IH cd' eq_refl Hnd' f Hin).
Qed.

Lemma choice_field_ok (Vd : validators) (n : string) (cs : list string) (raw v : string) :
  clean_field Vd (mkField n (KChoice true cs) None) raw = Cleaned v -> In v cs.
Proof.
  unfold clean_field; simpl. destruct (is_empty raw); [discriminate |].
  destruct (in_list raw cs) eqn:E; [| discriminate].
  intro H. inversion H; subst. apply in_list_In. exact E.
Qed.

Lemma core_form_choices (Vd : validators) (post : list (string * string))
  (inst : Core.ContactInquiry) :
  Core.form_full_clean Vd post = ([], inst) -> contact_choices_ok inst.
Proof.
  unfold Core.form_full_clean. destruct (Forms.clean_fields Vd Core.form_fields post) as [cd errs] eqn:H.
  intro He. inversion He; subst.
  assert (Hnd : NoDup (map fname Core.form_fields))
    by (simpl; repeat (constructor; [simpl; intuition discriminate |]); constructor).
  pose proof (clean_fields_ok Vd _ post cd H Hnd) as Hok.
  unfold contact_choices_ok. split; [| split; [| split]].
  - change (Core.budget_range (Core.construct_instance cd)) with (get cd "budget_range").
    apply (choice_field_ok Vd "budget_range" _ (post_get post "budget_range")).
    apply (Hok (mkField "budget_range" (KChoice true Core.BUDGET_CHOICES) None)). simpl. tauto.
  - change (Core.timeline (Core.construct_instance cd)) with (get cd "timeline").
    apply (choice_field_ok Vd "timeline" _ (post_get post "timeline")).
    apply (Hok (mkField "timeline" (KChoice true Core.TIMELINE_CHOICES) None)). simpl. tauto.
  - simpl. tauto.
  - simpl. tauto.
Qed.

Lemma core_mark_pres (E : env) (pk : nat) (i : Core.ContactInquiry) :
  contact_choices_ok i -> pres contact_choices_ok (bind (Core.mark_as_contacted E pk i) (fun _ => ret tt)).
Proof.
  intros (Hb & Ht & Hs & Hp). apply pres_bind; [| intro; apply pres_ret].
  unfold Core.mark_as_contacted, Core.save. cbv zeta.
  apply pres_bind; [apply pres_write | intro; apply pres_ret].
  destruct (Core.contacted_at i); destruct (String.eqb _ "new");
    repeat split; simpl; first [assumption | tauto].
Qed.

Lemma core_run_op_choices (E : env) (o : Core.op) :
  pres contact_choices_ok (Core.run_op E o).
Proof.
  destruct o as [aj post | pk | a sel].
  - unfold Core.run_op. apply pres_bind; [| intro; apply pres_ret].
    unfold Core.handle_contact_submission.
    destruct (Core.form_full_clean (V E) post) as [errs inst] eqn:Hf.
    destruct errs; [| apply pres_ret].
    pose proof (core_form_choices _ _ _ Hf) as Hi.
    apply pres_try; [| intro; apply pres_bind; [apply pres_log | intro; apply pres_ret]].
    cbv zeta. apply pres_bind; [destruct (7 <? _); [apply pres_log | apply pres_ret] | intro].
    apply pres_bind; [apply pres_write; destruct (7 <? _); exact Hi | intro].
    apply pres_bind; [| intro; apply pres_ret].
    apply pres_try; [| intro; apply pres_log].
    unfold Core.send_contact_notifications. cbv zeta.
    repeat (apply pres_bind; [first [apply pres_send | apply pres_log] | intro]).
    apply pres_log.
  - intros w Hw. unfold Core.run_op. cbv beta iota delta [bind get_row].
    destruct (lookup pk (db w)) as [i |] eqn:Hl; [| exact Hw].
    pose proof (core_mark_pres E pk i (rows_ok_lookup _ w pk i Hw Hl) w Hw) as H.
    unfold bind in H. destruct (Core.mark_as_contacted E pk i w) as [[e | v] w1]; exact H.
  - destruct a; unfold Core.run_op, Core.run_admin_action;
      try (apply pres_update_where; intros r (Hb & Ht & Hs & Hp); repeat split; simpl;
           first [assumption | simpl; tauto]).
    apply pres_queryset_bind.
    apply (pres_for_each _ Core.for_each (fun _ => eq_refl) (fun _ _ _ _ => eq_refl)).
    intros k r Hr. apply pres_bind; [| intro; apply pres_ret].
    intros w Hw. pose proof (core_mark_pres E k r Hr w Hw) as H.
    unfold bind in H. destruct (Core.mark_as_contacted E k r w) as [[e | v] w1]; exact H.
Qed.

Lemma core_requests_choices (rs : list (env * Core.op)) (w : world Core.ContactInquiry) :
  rows_ok contact_choices_ok w -> rows_ok contact_choices_ok (Core.run_requests rs w).
Proof.
  revert w. induction rs as [| [E o] t IH]; intros w Hw; simpl; [exact Hw |].
  apply IH. apply core_run_op_choices. exact Hw.
Qed.

(** X6.  Starting from a table whose choice fields hold valid choices,
    every row stored after any sequence of requests (submissions,
    [mark_as_contacted], admin actions) still does; so the service budget
    display is never "Unknown" and the contact budget and timeline displays
    never fall back to the raw value. *)
Theorem stored_rows_keep_choices :
  (forall (rs : list (env * Services.op)) (w : world Services.ServiceInquiry),
     rows_ok service_choices_ok w ->
     forall k r, lookup k (db (Services.run_requests rs w)) = Some r ->
       service_choices_ok r /\ Services.get_budget_display_verbose r <> "Unknown") /\
  (forall (rs : list (env * Core.op)) (w : world Core.ContactInquiry),
     rows_ok contact_choices_ok w ->
     forall k r, lookup k (db (Core.run_requests rs w)) = Some r ->
       contact_choices_ok r /\ Core.get_budget_display_verbose r <> Core.budget_range r /\
       Core.get_timeline_display_verbose r <> Core.timeline r).
Proof.
  split.
  - intros rs w Hw k r Hl.
    pose proof (rows_ok_lookup _ _ k r (services_requests_choices rs w Hw) Hl) as Hr.
    split; [exact Hr | apply services_budget_display_known; apply Hr].
  - intros rs w Hw k r Hl.
    pose proof (rows_ok_lookup _ _ k r (core_requests_choices rs w Hw) Hl) as Hr.
    split; [exact Hr | split; [apply core_budget_display_known | apply core_timeline_display_known];
                        apply Hr].
Qed.

Lemma stored_rows_keep_choices_witness :
  (exists r, lookup 2 (db (Services.run_requests Samples.service_trace Samples.service_world)) = Some r /\
             service_choices_ok r) /\
  (exists r, lookup 2 (db (Core.run_requests Samples.contact_trace Samples.contact_world)) = Some r /\
             contact_choices_ok r).
Proof.
  split.
  - eexists. split; [vm_compute; reflexivity |].
    apply (proj1 stored_rows_keep_choices Samples.service_trace Samples.service_world
             ltac:(repeat constructor; simpl; tauto) 2). vm_compute. reflexivity.
  - eexists. split; [vm_compute; reflexivity |].
    apply (proj2 stored_rows_keep_choices Samples.contact_trace Samples.contact_world
             ltac:(repeat constructor; simpl; tauto) 2). vm_compute. reflexivity.
Defined.



Ltac close_error_log :=
  split; [reflexivity |]; do 4 (split; [reflexivity |]);
  first [exists []; reflexivity
        | eexists; rewrite <- (app_assoc (log _)); reflexivity].

(** X8.  When the database refuses the write, a valid submission answers
    500 (AJAX) or redirects/re-renders with the generic error message, stores
    nothing, sends no mail, and logs the processing error last. *)
Theorem database_failure_answers_error :
  (forall (E : env) (is_ajax : bool) (title : string) (post : list (string * string))
          (w : world Services.ServiceInquiry),
     db_up E = false ->
     fst (Services.form_full_clean (V E) post) = [] ->
     let (res, w') := Services.service_inquiry_submit E is_ajax title post w in
     res = inr (if is_ajax then JsonResponse 500 false Services.error_message None []
                else Redirect "services:service_detail" (Some ("error", Services.error_message))) /\
     db w' = db w /\ next_id w' = next_id w /\ attempts w' = attempts w /\ outbox w' = outbox w /\
     exists l, log w' = (log w ++ l ++ [("error", "Error processing service inquiry")])%list) /\
  (forall (E : env) (is_ajax : bool) (post : list (string * string))
          (w : world Core.ContactInquiry),
     db_up E = false ->
     fst (Core.form_full_clean (V E) post) = [] ->
     let (res, w') := Core.handle_contact_submission E is_ajax post w in
     res = inr (if is_ajax then JsonResponse 500 false Core.error_message None []
                else Render "core/contact.html" (Some ("error", Core.error_message))) /\
     db w' = db w /\ next_id w' = next_id w /\ attempts w' = attempts w /\ outbox w' = outbox w /\
     exists l, log w' = (log w ++ l ++ [("error", "Error processing contact inquiry")])%list).
Proof.
  split.
  - intros E aj t post w Hup Hf. unfold Services.service_inquiry_submit.
    destruct (Services.form_full_clean (V E) post) as [errs inst]. simpl in Hf. subst errs.
    cbv zeta. unfold Services.save.
    destruct (7 <? Services.calculate_spam_score (Services.form_save (meta E) inst)).
    all: destruct (Services.full_clean (V E) _) as [[| e errs] i'].
    all: cbv beta iota delta [try_except bind ret log_msg raise db_write].
    all: rewrite ?Hup.
    all: cbv beta iota zeta delta [negb].
    all: cbn [db next_id log attempts outbox].
    all: close_error_log.
  - intros E aj post w Hup Hf. unfold Core.handle_contact_submission.
    destruct (Core.form_full_clean (V E) post) as [errs inst]. simpl in Hf. subst errs.
    cbv zeta. unfold Core.save.
    destruct (7 <? Core.calculate_spam_score inst).
    all: cbv beta iota delta [try_except bind ret log_msg raise db_write].
    all: rewrite ?Hup.
    all: cbv beta iota zeta delta [negb].
    all: cbn [db next_id log attempts outbox].
    all: close_error_log.
Qed.

Lemma database_failure_answers_error_witness :
  fst (Services.service_inquiry_submit Samples.down_env true "Web design" Samples.service_post
         Samples.service_world)
    = inr (JsonResponse 500 false Services.error_message None []) /\
  fst (Core.handle_contact_submission Samples.down_env true Samples.contact_post Samples.contact_world)
    = inr (JsonResponse 500 false Core.error_message None []).
Proof.
  split.
  - pose proof (proj1 database_failure_answers_error Samples.down_env true "Web design" Samples.service_post
                  Samples.service_world eq_refl ltac:(vm_compute; reflexivity)) as H.
    destruct (Services.service_inquiry_submit _ _ _ _ _) as [res w']. exact (proj1 H).
  - pose proof (proj2 database_failure_answers_error Samples.down_env true Samples.contact_post
                  Samples.contact_world eq_refl ltac:(vm_compute; reflexivity)) as H.
    destruct (Core.handle_contact_submission _ _ _ _) as [res w']. exact (proj1 H).
Defined.

(** X9.  A spam score above 7 needs at least one listed spam keyword in
    the description of a service inquiry, and at least two in a contact
    inquiry's. *)
Theorem spam_flag_needs_keywords :
  (forall i : Services.ServiceInquiry,
     7 < Services.calculate_spam_score i ->
     1 <= count_in Services.scoring_spam_keywords (lower (Services.project_description i))) /\
  (forall i : Core.ContactInquiry,
     7 < Core.calculate_spam_score i ->
     2 <= count_in Core.scoring_spam_keywords (lower (Core.project_description i))).
Proof.
  split.
  - intros i H. rewrite service_spam_score_decomposed in H.
    unfold Spec.spam_score_of, Spec.b2n, Spec.service_signals in H. cbn [Spec.caps Spec.keywords
      Spec.free_mail Spec.cheap_rush Spec.odd_length Spec.no_contact] in H.
    destruct (is_empty (Services.project_description i));
      repeat match type of H with context [if ?b then _ else _] => destruct b end; lia.
  - intros i H. rewrite contact_spam_score_decomposed in H.
    unfold Spec.spam_score_of, Spec.b2n, Spec.contact_signals in H. cbn [Spec.caps Spec.keywords
      Spec.free_mail Spec.cheap_rush Spec.odd_length Spec.no_contact] in H.
    destruct (is_empty (Core.project_description i));
      repeat match type of H with context [if ?b then _ else _] => destruct b end; lia.
Qed.

Lemma spam_flag_needs_keywords_witness :
  1 <= count_in Services.scoring_spam_keywords
         (lower (Services.project_description
                   (Samples.service_inquiry Samples.shouting_description "x@acme.org" "" "" "10k_25k" "planned" None))) /\
  2 <= count_in Core.scoring_spam_keywords
         (lower (Core.project_description
                   (Samples.contact_inquiry Samples.shouting_description "x@acme.org" "10k_25k" "planned"))).
Proof.
  split.
  - apply (proj1 spam_flag_needs_keywords). vm_compute. lia.
  - apply (proj2 spam_flag_needs_keywords). vm_compute. lia.
Defined.

Lemma services_submit_stores (E : env) (aj : bool) (t : string) (post : list (string * string))
  (w : world Services.ServiceInquiry) (inst x : Services.ServiceInquiry) :
  Services.form_full_clean (V E) post = ([], inst) -> db_up E = true ->
  let inq := Services.form_save (meta E) inst in
  Services.full_clean (V E) (if 7 <? Services.calculate_spam_score inq
                             then Services.set_is_spam true inq else inq) = ([], x) ->
  db (snd (Services.service_inquiry_submit E aj t post w)) = (db w ++ [(next_id w, x)])%list.
Proof.
  intros Hform Hup inq Hfc. unfold Services.service_inquiry_submit. rewrite Hform.
  unfold inq in Hfc. clear inq.
  cbv zeta. destruct (7 <? Services.calculate_spam_score (Services.form_save (meta E) inst));
    cbv beta iota delta [try_except bind ret log_msg].
  all: rewrite (services_save_insert E _ x _ Hfc Hup).
  all: match goal with |- context [Services.send_inquiry_notifications ?E ?i ?st ?w0] =>
         destruct (services_notify_run E i st w0) as (a & c & _ & _ & _ & _ & _ & _ & Hn);
         rewrite Hn; clear Hn end.
  all: destruct (transport_ok E a); [destruct (transport_ok E c) |]; reflexivity.
Qed.

Lemma core_submit_stores (E : env) (aj : bool) (post : list (string * string))
  (w : world Core.ContactInquiry) (inst : Core.ContactInquiry) :
  Core.form_full_clean (V E) post = ([], inst) -> db_up E = true ->
  db (snd (Core.handle_contact_submission E aj post w)) =
  (db w ++ [(next_id w, if 7 <? Core.calculate_spam_score inst
                        then Core.set_is_spam true inst else inst)])%list.
Proof.
  intros Hform Hup. unfold Core.handle_contact_submission. rewrite Hform.
  cbv zeta. destruct (7 <? Core.calculate_spam_score inst);
    cbv beta iota delta [try_except bind ret log_msg].
  all: rewrite (core_save_insert E _ _ Hup).
  all: match goal with |- context [Core.send_contact_notifications ?E ?i ?w0] =>
         destruct (core_notify_run E i w0) as (a & c & _ & _ & _ & _ & _ & _ & Hn);
         rewrite Hn; clear Hn end.
  all: destruct (transport_ok E a); [destruct (transport_ok E c) |]; reflexivity.
Qed.

Lemma lookup_fresh {R} (w : world R) (x : R) :
  wf w -> lookup (next_id w) (db w ++ [(next_id w, x)])%list = Some x.
Proof.
  intros [_ Hlt]. rewrite lookup_app_none.
  - simpl. rewrite Nat.eqb_refl. reflexivity.
  - apply lookup_not_in_keys. intro Hin. rewrite Forall_forall in Hlt.
    specialize (Hlt _ Hin). lia.
Qed.

Lemma services_score_set_is_spam (b : bool) (i : Services.ServiceInquiry) :
  Services.calculate_spam_score (Services.set_is_spam b i) = Services.calculate_spam_score i.
Proof. reflexivity. Qed.

Lemma services_desc_set_is_spam (b : bool) (i : Services.ServiceInquiry) :
  Services.project_description (Services.set_is_spam b i) = Services.project_description i.
Proof. reflexivity. Qed.

Lemma count_in_without (ks bad : list string) (s : string) :
  (forall k, In k bad -> contains k s = false) ->
  count_in ks s = count_in (filter (fun k => negb (in_list k bad)) ks) s.
Proof.
  intro Hbad. unfold count_in. induction ks as [| k t IH]; [reflexivity |].
  simpl. destruct (in_list k bad) eqn:Hk; simpl.
  - rewrite (Hbad k (proj1 (in_list_In k bad) Hk)). exact IH.
  - destruct (contains k s); simpl; rewrite IH; reflexivity.
Qed.

Lemma any_in_false (ks : list string) (s : string) :
  any_in ks s = false -> forall k, In k ks -> contains k s = false.
Proof.
  unfold any_in. intros H k Hk. destruct (contains k s) eqn:E; [| reflexivity].
  assert (existsb (fun k => contains k s) ks = true) by (apply existsb_exists; eauto).
  congruence.
Qed.

(** A description accepted by [clean_project_description] names none of
    the form's keywords. *)
Lemma services_description_clean (v d : string) :
  Services.clean_project_description v = Ok d -> any_in Services.form_spam_keywords (lower d) = false.
Proof.
  unfold Services.clean_project_description. cbv zeta.
  destruct (_ <? 20); [discriminate |]. destruct (any_in _ _) eqn:Hk; [discriminate |].
  destruct (3 <? _); [discriminate |]. destruct (_ && _); [discriminate |].
  intro H. inversion H; subst. exact Hk.
Qed.

Lemma core_description_clean (v d : string) :
  Core.clean_project_description v = Ok d -> any_in Core.form_spam_keywords (lower d) = false.
Proof.
  unfold Core.clean_project_description. cbv zeta.
  destruct (_ <? 20); [discriminate |]. destruct (any_in _ _) eqn:Hk; [discriminate |].
  intro H. inversion H; subst. exact Hk.
Qed.

Lemma description_field_clean (Vd : validators) (m : string -> outcome) (raw d : string) :
  clean_field Vd (mkField "project_description" (KChar true None) (Some m)) raw = Cleaned d ->
  exists v, m v = Ok d.
Proof.
  unfold clean_field, field_clean. cbn [fkind clean_method]. cbv zeta.
  destruct (is_empty (strip raw)); [discriminate |].
  destruct (run_validators _ _) as [v | es]; [| discriminate].
  destruct (m v) eqn:Hm; intro H; inversion H; subst. eauto.
Qed.

Lemma services_form_description (Vd : validators) (post : list (string * string))
  (inst : Services.ServiceInquiry) :
  Services.form_full_clean Vd post = ([], inst) ->
  any_in Services.form_spam_keywords (lower (Services.project_description inst)) = false /\
  Services.is_spam inst = false.
Proof.
  unfold Services.form_full_clean.
  destruct (Forms.clean_fields Vd Services.form_fields post) as [cd errs] eqn:H.
  unfold Services.clean. cbv zeta.
  destruct (_ && _); [intro E; inversion E as [[Happ H2]]; apply app_eq_nil in Happ as [_ Happ];
                      discriminate |].
  intro E. inversion E as [[He Hi]]. rewrite app_nil_r in He. subst errs.
  assert (Hnd : NoDup (map fname Services.form_fields))
    by (simpl; repeat (constructor; [simpl; intuition discriminate |]); constructor).
  pose proof (clean_fields_ok Vd _ post cd H Hnd
                (mkField "project_description" (KChar true None)
                   (Some Services.clean_project_description))
                ltac:(simpl; tauto)) as Hd.
  destruct (description_field_clean _ _ _ _ Hd) as [v Hv].
  pose proof (services_description_clean _ _ Hv) as Hk. cbn [fname] in Hk.
  change (Services.project_description (Services.construct_instance cd))
    with (get cd "project_description") in *.
  destruct (any_in Services.model_spam_keywords _) eqn:Hm.
  - exfalso. unfold any_in in Hm. apply existsb_exists in Hm as (k & Hin & Hc).
    rewrite (any_in_false _ _ Hk k) in Hc; [discriminate |].
    simpl in Hin |- *. tauto.
  - split; [exact Hk | reflexivity].
Qed.

Lemma core_form_description (Vd : validators) (post : list (string * string))
  (inst : Core.ContactInquiry) :
  Core.form_full_clean Vd post = ([], inst) ->
  any_in Core.form_spam_keywords (lower (Core.project_description inst)) = false /\
  Core.is_spam inst = false.
Proof.
  unfold Core.form_full_clean.
  destruct (Forms.clean_fields Vd Core.form_fields post) as [cd errs] eqn:H.
  intro E. inversion E; subst.
  assert (Hnd : NoDup (map fname Core.form_fields))
    by (simpl; repeat (constructor; [simpl; intuition discriminate |]); constructor).
  pose proof (clean_fields_ok Vd _ post cd H Hnd
                (mkField "project_description" (KChar true None)
                   (Some Core.clean_project_description))
                ltac:(simpl; tauto)) as Hd.
  destruct (description_field_clean _ _ _ _ Hd) as [v Hv].
  split; [exact (core_description_clean _ _ Hv) | reflexivity].
Qed.

Lemma services_clean_no_keyword (x : Services.ServiceInquiry) :
  any_in Services.model_spam_keywords (lower (Services.project_description x)) = false ->
  snd (Services.clean x) = x.
Proof.
  intro H. unfold Services.clean.
  destruct (negb (is_empty (Services.phone x))
            && negb (Services.phone_pattern_match (Services.phone x))); [reflexivity |].
  cbv zeta. rewrite H. reflexivity.
Qed.

Lemma services_full_clean_no_keyword (Vd : validators) (x : Services.ServiceInquiry) :
  any_in Services.model_spam_keywords (lower (Services.project_description x)) = false ->
  exists a, snd (Services.full_clean Vd x) = Services.set_ip_address a x.
Proof.
  intro H. rewrite services_full_clean_split. cbn [snd].
  destruct (services_clean_fields_inst Vd x) as [a ->]. exists a.
  apply services_clean_no_keyword. exact H.
Qed.

Lemma services_flag_keyword_bound (i : Services.ServiceInquiry) :
  7 < Services.calculate_spam_score i ->
  1 <= count_in Services.scoring_spam_keywords (lower (Services.project_description i)).
Proof.
  intro H. rewrite service_spam_score_decomposed in H.
  unfold Spec.spam_score_of, Spec.b2n, Spec.service_signals in H. cbn [Spec.caps Spec.keywords
    Spec.free_mail Spec.cheap_rush Spec.odd_length Spec.no_contact] in H.
  destruct (is_empty (Services.project_description i));
    repeat match type of H with context [if ?b then _ else _] => destruct b end; lia.
Qed.

Lemma core_flag_keyword_bound (i : Core.ContactInquiry) :
  7 < Core.calculate_spam_score i ->
  2 <= count_in Core.scoring_spam_keywords (lower (Core.project_description i)).
Proof.
  intro H. rewrite contact_spam_score_decomposed in H.
  unfold Spec.spam_score_of, Spec.b2n, Spec.contact_signals in H. cbn [Spec.caps Spec.keywords
    Spec.free_mail Spec.cheap_rush Spec.odd_length Spec.no_contact] in H.
  destruct (is_empty (Core.project_description i));
    repeat match type of H with context [if ?b then _ else _] => destruct b end; lia.
Qed.

(** X10.  A submission that passes the form (and, for services, whose
    instance passes the model's [full_clean] once [form.save(request)] has
    copied the request's address, user agent and referrer onto it) is stored
    with [is_spam] set exactly when its score is above 7: the form rejects
    every keyword of the model's own list.  So a flagged service submission names one of the
    seven scoring phrases the form lets through, and a flagged contact
    submission names two of the five. *)
Theorem submitted_spam_flag :
  (forall (E : env) (is_ajax : bool) (title : string) (post : list (string * string))
          (w : world Services.ServiceInquiry) (inst x : Services.ServiceInquiry),
     wf w ->
     Services.form_full_clean (V E) post = ([], inst) ->
     db_up E = true ->
     let inq := Services.form_save (meta E) inst in
     Services.full_clean (V E) (if 7 <? Services.calculate_spam_score inq
                                then Services.set_is_spam true inq else inq) = ([], x) ->
     lookup (next_id w) (db (snd (Services.service_inquiry_submit E is_ajax title post w))) = Some x /\
     Services.is_spam x = (7 <? Services.calculate_spam_score x) /\
     (Services.is_spam x = true ->
      1 <= count_in ["supplements"; "weight loss"; "make money"; "work from home";
                     "click here"; "buy now"; "limited offer"]
             (lower (Services.project_description x)))) /\
  (forall (E : env) (is_ajax : bool) (post : list (string * string))
          (w : world Core.ContactInquiry) (inst : Core.ContactInquiry),
     wf w ->
     Core.form_full_clean (V E) post = ([], inst) ->
     db_up E = true ->
     exists x,
       lookup (next_id w) (db (snd (Core.handle_contact_submission E is_ajax post w))) = Some x /\
       Core.is_spam x = (7 <? Core.calculate_spam_score x) /\
       (Core.is_spam x = true ->
        2 <= count_in ["bitcoin"; "dating"; "pills"; "weight loss"; "make money"]
               (lower (Core.project_description x)))).
Proof.
  split.
  - intros E aj t post w inst x Hw Hform Hup inq Hfc.
    rewrite (services_submit_stores E aj t post w inst x Hform Hup Hfc), lookup_fresh by exact Hw.
    destruct (services_form_description _ _ _ Hform) as [Hk Hinst].
    assert (Hm : any_in Services.model_spam_keywords (lower (Services.project_description inst)) = false).
    { destruct (any_in Services.model_spam_keywords _) eqn:Hm; [| reflexivity]. exfalso.
      unfold any_in in Hm. apply existsb_exists in Hm as (k & Hin & Hc).
      rewrite (any_in_false _ _ Hk k) in Hc; [discriminate |]. simpl in Hin |- *. tauto. }
    unfold inq in Hfc. clear inq.
    assert (Hsc0 : Services.calculate_spam_score (Services.form_save (meta E) inst)
                   = Services.calculate_spam_score inst) by reflexivity.
    rewrite Hsc0 in Hfc.
    pose proof (f_equal snd Hfc) as Hx. cbn [snd] in Hx.
    destruct (7 <? Services.calculate_spam_score inst) eqn:Hs7.
    + destruct (services_full_clean_no_keyword (V E)
                  (Services.set_is_spam true (Services.form_save (meta E) inst)) Hm) as [a Ha].
      rewrite Ha in Hx. subst x.
      split; [reflexivity | split; [exact (eq_sym Hs7) |]].
      intros _. apply Nat.ltb_lt in Hs7.
      pose proof (services_flag_keyword_bound inst Hs7) as Hb.
      rewrite (count_in_without _ Services.form_spam_keywords) in Hb by (apply any_in_false; exact Hk).
      exact Hb.
    + destruct (services_full_clean_no_keyword (V E) (Services.form_save (meta E) inst) Hm) as [a Ha].
      rewrite Ha in Hx. subst x.
      split; [reflexivity | split].
      * change (Services.is_spam inst = (7 <? Services.calculate_spam_score inst)).
        rewrite Hinst, Hs7. reflexivity.
      * intro Hs. exfalso. change (Services.is_spam inst = true) in Hs. congruence.
  - intros E aj post w inst Hw Hform Hup.
    rewrite (core_submit_stores E aj post w inst Hform Hup), lookup_fresh by exact Hw.
    destruct (core_form_description _ _ _ Hform) as [Hk Hinst].
    eexists. split; [reflexivity |].
    assert (Hsp : Core.is_spam (if 7 <? Core.calculate_spam_score inst
                                then Core.set_is_spam true inst else inst)
                  = (7 <? Core.calculate_spam_score
                            (if 7 <? Core.calculate_spam_score inst
                             then Core.set_is_spam true inst else inst))).
    { destruct (7 <? Core.calculate_spam_score inst) eqn:Hs; simpl.
      - change (Core.calculate_spam_score _) with (Core.calculate_spam_score inst). rewrite Hs. reflexivity.
      - rewrite Hinst, Hs. reflexivity. }
    split; [exact Hsp |].
    intro Hs. rewrite Hsp in Hs. apply Nat.ltb_lt in Hs.
    pose proof (core_flag_keyword_bound _ Hs) as Hb.
    replace (Core.project_description (if 7 <? Core.calculate_spam_score inst
                                       then Core.set_is_spam true inst else inst))
      with (Core.project_description inst) in Hb |- * by (destruct (7 <? _); reflexivity).
    rewrite (count_in_without _ Core.form_spam_keywords) in Hb by (apply any_in_false; exact Hk).
    exact Hb.
Qed.

Lemma submitted_spam_flag_witness :
  (exists x, lookup 1 (db (snd (Services.service_inquiry_submit Samples.refusing_env true
                  "Web design" Samples.spam_service_post Samples.empty_world))) = Some x /\
             Services.is_spam x = true /\
             1 <= count_in ["supplements"; "weight loss"; "make money"; "work from home";
                     "click here"; "buy now"; "limited offer"]
                   (lower (Services.project_description x))) /\
  (exists x, lookup 1 (db (snd (Core.handle_contact_submission Samples.refusing_env true
                  Samples.spam_contact_post Samples.empty_world))) = Some x /\
             Core.is_spam x = true /\
             2 <= count_in ["bitcoin"; "dating"; "pills"; "weight loss"; "make money"]
                   (lower (Core.project_description x))).
Proof.
  split.
  - pose (inst := snd (Services.form_full_clean (V Samples.refusing_env) Samples.spam_service_post)).
    pose (inq := Services.form_save (meta Samples.refusing_env) inst).
    pose (x := snd (Services.full_clean (V Samples.refusing_env)
                 (if 7 <? Services.calculate_spam_score inq
                  then Services.set_is_spam true inq else inq))).
    assert (Hs : Services.is_spam x = true) by (vm_compute; reflexivity).
    destruct (proj1 submitted_spam_flag Samples.refusing_env true "Web design" Samples.spam_service_post
                Samples.empty_world inst x) as (Hl & _ & Hb).
    + split; constructor.
    + vm_compute; reflexivity.
    + reflexivity.
    + vm_compute; reflexivity.
    + exists x. split; [exact Hl | split; [exact Hs | exact (Hb Hs)]].
  - pose (inst := snd (Core.form_full_clean (V Samples.refusing_env) Samples.spam_contact_post)).
    destruct (proj2 submitted_spam_flag Samples.refusing_env true Samples.spam_contact_post
                Samples.empty_world inst) as (x & Hl & Hsp & Hb).
    + split; constructor.
    + vm_compute; reflexivity.
    + reflexivity.
    + assert (Hs : Core.is_spam x = true).
      { rewrite Hsp. assert (Hx : Some x = Some (if 7 <? Core.calculate_spam_score inst
                                    then Core.set_is_spam true inst else inst)).
        { rewrite <- Hl. vm_compute. reflexivity. }
        rewrite (f_equal (fun o => match o with Some z => z | None => x end) Hx).
        vm_compute. reflexivity. }
      exists x. split; [exact Hl | split; [exact Hs | exact (Hb Hs)]].
Defined.

Section Frame.
Context {R : Type} (sel : list nat).

Lemma osc_refl (w : world R) : only_selected_changed sel w w.
Proof. repeat split; reflexivity. Qed.

Lemma osc_trans (w1 w2 w3 : world R) :
  only_selected_changed sel w1 w2 -> only_selected_changed sel w2 w3 ->
  only_selected_changed sel w1 w3.
Proof.
  intros (H1 & H2 & H3 & H4 & H5 & H6) (G1 & G2 & G3 & G4 & G5 & G6).
  repeat split; try congruence. intros k Hk. rewrite G6, H6 by exact Hk. reflexivity.
Qed.

Lemma lookup_some_of_keys (k : nat) (l : list (nat * R)) :
  In k (map fst l) -> lookup k l <> None.
Proof.
  induction l as [| [k' r'] t IH]; simpl; [contradiction |].
  intros [-> | H]; [rewrite Nat.eqb_refl; discriminate |].
  destruct (Nat.eqb k k'); [discriminate | exact (IH H)].
Qed.

Lemma osc_update_where (p : nat -> R -> bool) (f : R -> R) (w : world R) :
  (forall k r, p k r = true -> In k sel) ->
  only_selected_changed sel w (snd (db_update_where p f w)).
Proof.
  intro Hp. unfold db_update_where.
  repeat split; [apply keys_where |]. intros k Hk.
  transitivity (option_map (fun r => if p k r then f r else r) (lookup k (db w)));
    [exact (lookup_where p f k (db w)) |].
  destruct (lookup k (db w)) as [r |]; [| reflexivity]. simpl.
  destruct (p k r) eqn:E; [exfalso; exact (Hk (Hp k r E)) | reflexivity].
Qed.

Lemma osc_write (up : bool) (k : nat) (r : R) (w : world R) :
  In k sel -> In k (map fst (db w)) -> only_selected_changed sel w (snd (db_write up (Some k) r w)).
Proof.
  intros Hs Hk. unfold db_write. destruct (negb up); [apply osc_refl |].
  destruct (lookup k (db w)) eqn:E; [| exfalso; exact (lookup_some_of_keys k _ Hk E)].
  cbn [snd db next_id log attempts outbox]. repeat split; [apply keys_update |].
  intros k' Hk'. apply lookup_update_other. intros ->. exact (Hk' Hs).
Qed.

Lemma osc_bind {A B} (m : M R A) (c : A -> M R B) (w : world R) :
  only_selected_changed sel w (snd (m w)) ->
  (forall a, only_selected_changed sel (snd (m w)) (snd (c a (snd (m w))))) ->
  only_selected_changed sel w (snd (bind m c w)).
Proof.
  intros Hm Hc. unfold bind. destruct (m w) as [[e | a] w1]; [exact Hm |].
  exact (osc_trans _ _ _ Hm (Hc a)).
Qed.

Lemma osc_for_each (fe : list (nat * R) -> (nat -> R -> M R unit) -> M R unit)
  (fe_nil : forall body, fe [] body = ret tt)
  (fe_cons : forall k r t body, fe ((k, r) :: t) body = bind (body k r) (fun _ => fe t body))
  (body : nat -> R -> M R unit) :
  (forall k r w, In k sel -> In k (map fst (db w)) ->
     only_selected_changed sel w (snd (body k r w))) ->
  forall rows w, Forall (fun kr => In (fst kr) sel /\ In (fst kr) (map fst (db w))) rows ->
    only_selected_changed sel w (snd (fe rows body w)).
Proof.
  intros Hb rows. induction rows as [| [k r] t IH]; intros w Hr.
  - rewrite fe_nil. apply osc_refl.
  - inversion Hr as [| ? ? [Hs Hk] Ht]; subst. rewrite fe_cons.
    pose proof (Hb k r w Hs Hk) as H1. apply osc_bind; [exact H1 |]. intros _.
    apply IH. destruct H1 as [Hkeys _]. rewrite Hkeys. exact Ht.
Qed.

Lemma selected_rows (p : nat -> R -> bool) (w : world R) :
  (forall k r, p k r = true -> In k sel) ->
  Forall (fun kr => In (fst kr) sel /\ In (fst kr) (map fst (db w)))
    (filter (fun kr => p (fst kr) (snd kr)) (db w)).
Proof.
  intro Hp. apply Forall_forall. intros [k r] Hin. apply filter_In in Hin as [Hin Hpk].
  split; [exact (Hp k r Hpk) | apply (in_map fst) in Hin; exact Hin].
Qed.

End Frame.

Lemma selected_in (sel : list nat) (k : nat) :
  existsb (Nat.eqb k) sel = true -> In k sel.
Proof.
  intro H. apply existsb_exists in H as (k' & Hin & E). apply Nat.eqb_eq in E. subst. exact Hin.
Qed.

(** X11.  An admin action of either app changes only the selected rows: it
    adds and removes no row, keeps the next id, logs nothing and sends no
    mail. *)
Theorem admin_actions_touch_only_selection :
  (forall (E : env) (a : Services.admin_action) (sel : list nat) (w : world Services.ServiceInquiry),
     only_selected_changed sel w (snd (Services.run_admin_action E a sel w))) /\
  (forall (E : env) (a : Core.admin_action) (sel : list nat) (w : world Core.ContactInquiry),
     only_selected_changed sel w (snd (Core.run_admin_action E a sel w))).
Proof.
  split; intros E a sel w.
  - assert (Hs : forall k (r : Services.ServiceInquiry), Services.selected sel k r = true -> In k sel)
      by (intros k r; apply selected_in).
    destruct a; unfold Services.run_admin_action;
      try (apply osc_update_where; first [exact Hs
            | intros k r H; apply andb_true_iff in H as [H _]; exact (Hs k r H)]).
    unfold bind at 1, Services.queryset. cbv beta iota.
    apply (osc_for_each sel Services.for_each (fun _ => eq_refl) (fun _ _ _ _ => eq_refl));
      [| apply (selected_rows sel (Services.selected sel)); exact Hs].
    intros k r w1 Hk Hkeys. apply osc_bind; [| intros; apply osc_refl].
    unfold Services.save. destruct (Services.full_clean _ _) as [[| e errs] i'];
      [| apply osc_refl].
    apply osc_bind; [apply osc_write; assumption | intros; apply osc_refl].
  - assert (Hs : forall k (r : Core.ContactInquiry), Core.selected sel k r = true -> In k sel)
      by (intros k r; apply selected_in).
    destruct a; unfold Core.run_admin_action;
      try (apply osc_update_where; exact Hs).
    unfold bind at 1, Core.queryset. cbv beta iota.
    apply (osc_for_each sel Core.for_each (fun _ => eq_refl) (fun _ _ _ _ => eq_refl));
      [| apply (selected_rows sel (Core.selected sel)); exact Hs].
    intros k r w1 Hk Hkeys. apply osc_bind; [| intros; apply osc_refl].
    unfold Core.mark_as_contacted, Core.save. cbv zeta.
    apply osc_bind; [apply osc_write; assumption | intros; apply osc_refl].
Qed.

Lemma filter_no_key {R} (k : nat) (l : list (nat * R)) (p : nat * R -> bool) :
  (forall kr, p kr = Nat.eqb (fst kr) k) -> ~ In k (map fst l) -> filter p l = [].
Proof.
  intro Hp. induction l as [| [k0 r0] t IH]; simpl; [reflexivity |].
  intro H. rewrite Hp. simpl. destruct (Nat.eqb k0 k) eqn:E.
  - apply Nat.eqb_eq in E. subst. exfalso. exact (H (or_introl eq_refl)).
  - apply IH. tauto.
Qed.

Lemma filter_key_single {R} (k : nat) (r : R) (l : list (nat * R)) (p : nat * R -> bool) :
  (forall kr, p kr = Nat.eqb (fst kr) k) -> NoDup (map fst l) -> lookup k l = Some r ->
  filter p l = [(k, r)].
Proof.
  intro Hp. induction l as [| [k0 r0] t IH]; simpl; [discriminate |].
  intros Hnd Hl. inversion Hnd as [| ? ? Hnin Hnd']; subst. rewrite Hp. simpl.
  rewrite Nat.eqb_sym. destruct (Nat.eqb k k0) eqn:E.
  - apply Nat.eqb_eq in E. subst. inversion Hl; subst.
    rewrite (filter_no_key k0 t p Hp Hnin). reflexivity.
  - exact (IH Hnd' Hl).
Qed.

Lemma wf_update_where {R} (p : nat -> R -> bool) (f : R -> R) (w : world R) :
  wf w -> wf (snd (db_update_where p f w)).
Proof.
  unfold wf, db_update_where. cbn [snd db next_id]. rewrite keys_where. exact (fun H => H).
Qed.

Lemma services_clean_keyword (x : Services.ServiceInquiry) :
  fst (Services.clean x) = [] ->
  any_in Services.model_spam_keywords (lower (Services.project_description x)) = true ->
  snd (Services.clean x) = Services.set_is_spam true x.
Proof.
  intros He Hk. unfold Services.clean in *.
  destruct (negb (is_empty (Services.phone x))
            && negb (Services.phone_pattern_match (Services.phone x))); [discriminate |].
  cbv zeta. rewrite Hk. reflexivity.
Qed.

(** [full_clean] of an instance that agrees with a valid one on every
    validated column but its status, which is a valid choice: no error, the
    status kept, and the flag set when the description names a keyword. *)
Lemma services_full_clean_like (Vd : validators) (i j : Services.ServiceInquiry) :
  Services.full_name j = Services.full_name i -> Services.email j = Services.email i ->
  Services.phone j = Services.phone i -> Services.company j = Services.company i ->
  Services.service j = Services.service i -> Services.project_type j = Services.project_type i ->
  Services.project_description j = Services.project_description i ->
  Services.budget_range j = Services.budget_range i -> Services.timeline j = Services.timeline i ->
  Services.reference_url j = Services.reference_url i ->
  Services.ip_address j = Services.ip_address i -> Services.user_agent j = Services.user_agent i ->
  Services.referrer j = Services.referrer i ->
  model_char "status" false (Some 20) 0 (fun v => in_list v Services.STATUS_CHOICES)
    (Services.status j) = [] ->
  fst (Services.full_clean Vd i) = [] ->
  fst (Services.full_clean Vd j) = [] /\
  Services.status (snd (Services.full_clean Vd j)) = Services.status j /\
  (any_in Services.model_spam_keywords (lower (Services.project_description j)) = true ->
   Services.is_spam (snd (Services.full_clean Vd j)) = true).
Proof.
  intros H1 H2 H3 H4 H5 H6 H7 H8 H9 H10 Hip Hua Hrf Hst Hi.
  pose proof (proj1 (services_full_clean_fields Vd j)) as Hs.
  rewrite services_full_clean_split in Hi, Hs |- *. cbn [fst snd] in Hi, Hs |- *.
  destruct (services_clean_fields_inst Vd j) as [a Ha]. rewrite Ha in Hs |- *.
  destruct (services_clean_fields_inst Vd i) as [b Hb]. rewrite Hb in Hi.
  apply app_eq_nil in Hi as [Hcf Hcl].
  assert (Hcl' : fst (Services.clean (Services.set_ip_address a j)) = []).
  { revert Hcl. unfold Services.clean. cbn [Services.phone Services.set_ip_address].
    rewrite H3.
    destruct (negb (is_empty (Services.phone i))
              && negb (Services.phone_pattern_match (Services.phone i)));
      [discriminate | intros _; reflexivity]. }
  assert (Hcf' : fst (Services.clean_fields Vd j) = []).
  { revert Hcf. unfold Services.clean_fields.
    rewrite H1, H2, H3, H4, H5, H6, H7, H8, H9, H10, Hip, Hua, Hrf, Hst.
    destruct (Services.ip_address i) as [c |];
      [destruct (is_empty c); [| destruct (ip_clean Vd c)] |];
      cbv beta iota; cbn [fst]; intro Hcf;
      repeat match type of Hcf with (?u ++ ?v)%list = [] =>
        let Hu := fresh "Hu" in apply app_eq_nil in Hcf as [Hu Hcf]; try rewrite Hu end;
      try rewrite Hcf; reflexivity. }
  rewrite Hcf', Hcl'. split; [reflexivity | split; [exact Hs |]].
  intro Hk. rewrite (services_clean_keyword _ Hcl' Hk). reflexivity.
Qed.

(** X12.  In the services admin, "mark as not spam" followed by "mark as
    contacted" on a valid row whose description names a model-level keyword
    leaves it flagged as spam again (the second action saves through
    [full_clean]); in the core admin the same sequence leaves it unflagged. *)
Theorem not_spam_then_contacted :
  (forall (E : env) (k : nat) (r : Services.ServiceInquiry) (w : world Services.ServiceInquiry),
     wf w -> db_up E = true -> lookup k (db w) = Some r ->
     fst (Services.full_clean (V E) r) = [] ->
     any_in Services.model_spam_keywords (lower (Services.project_description r)) = true ->
     let w1 := snd (Services.run_admin_action E Services.MarkAsNotSpam [k] w) in
     let w2 := snd (Services.run_admin_action E Services.MarkAsContacted [k] w1) in
     exists r2, lookup k (db w2) = Some r2 /\ Services.is_spam r2 = true /\
                Services.status r2 = "contacted") /\
  (forall (E : env) (k : nat) (r : Core.ContactInquiry) (w : world Core.ContactInquiry),
     wf w -> db_up E = true -> lookup k (db w) = Some r ->
     let w1 := snd (Core.run_admin_action E Core.MarkAsNotSpam [k] w) in
     let w2 := snd (Core.run_admin_action E Core.MarkAsContacted [k] w1) in
     exists r2, lookup k (db w2) = Some r2 /\ Core.is_spam r2 = false).
Proof.
  split.
  - intros E k r w Hw Hup Hl Hv Hkw. cbv zeta.
    set (w1 := snd (Services.run_admin_action E Services.MarkAsNotSpam [k] w)).
    set (r1 := if Services.is_spam r then Services.set_status "new" (Services.set_is_spam false r) else r).
    assert (Hl1 : lookup k (db w1) = Some r1).
    { unfold w1, Services.run_admin_action, db_update_where.
      transitivity (option_map (fun x => if (Services.selected [k] k x && Services.is_spam x)
          then Services.set_status "new" (Services.set_is_spam false x) else x) (lookup k (db w)));
        [exact (lookup_where (fun k0 x => Services.selected [k] k0 x && Services.is_spam x)
                  (fun x => Services.set_status "new" (Services.set_is_spam false x)) k (db w)) |].
      rewrite Hl. unfold Services.selected. cbn [existsb option_map]. rewrite Nat.eqb_refl.
      reflexivity. }
    assert (Hw1 : wf w1) by (apply wf_update_where; exact Hw).
    set (r2 := Services.set_status "contacted" match Services.contacted_at r1 with
               | None => Services.set_contacted_at (Some (now E)) r1 | Some _ => r1 end).
    destruct (services_full_clean_like (V E) r r2) as [He [Hst Hsp]];
      try (first [exact Hv
                 | unfold r2, r1; destruct (Services.is_spam r), (Services.contacted_at _);
                   reflexivity]).
    assert (Hsp' : Services.is_spam (snd (Services.full_clean (V E) r2)) = true).
    { apply Hsp. replace (Services.project_description r2) with (Services.project_description r)
        by (unfold r2, r1; destruct (Services.is_spam r), (Services.contacted_at _); reflexivity).
      exact Hkw. }
    assert (Hst' : Services.status r2 = "contacted") by reflexivity.
    destruct (Services.full_clean (V E) r2) as [e2 r2'] eqn:Hfc. cbn [fst snd] in He, Hst, Hsp'.
    subst e2.
    exists r2'.
    unfold Services.run_admin_action, bind at 1, Services.queryset. cbv beta iota.
    rewrite (filter_key_single k r1 (db w1) (fun kr => Services.selected [k] (fst kr) (snd kr)))
      by (first [exact (proj1 Hw1) | exact Hl1
                | intro kr; unfold Services.selected; simpl; apply orb_false_r]).
    cbn [Services.for_each]. fold r2.
    unfold Services.save. rewrite Hfc.
    cbv beta iota delta [bind db_write ret]. rewrite Hup, Hl1. cbn [negb snd db].
    split; [apply lookup_update_same; rewrite Hl1; discriminate |].
    split; [exact Hsp' | rewrite Hst; exact Hst'].
  - intros E k r w Hw Hup Hl. cbv zeta.
    set (w1 := snd (Core.run_admin_action E Core.MarkAsNotSpam [k] w)).
    set (r1 := Core.set_is_spam false r).
    assert (Hl1 : lookup k (db w1) = Some r1).
    { unfold w1, Core.run_admin_action, db_update_where.
      transitivity (option_map (fun x => if Core.selected [k] k x
          then Core.set_is_spam false x else x) (lookup k (db w)));
        [exact (lookup_where (Core.selected [k]) (Core.set_is_spam false) k (db w)) |].
      rewrite Hl. unfold Core.selected. cbn [existsb option_map]. rewrite Nat.eqb_refl.
      reflexivity. }
    assert (Hw1 : wf w1) by (apply wf_update_where; exact Hw).
    unfold Core.run_admin_action, bind at 1, Core.queryset. cbv beta iota.
    rewrite (filter_key_single k r1 (db w1) (fun kr => Core.selected [k] (fst kr) (snd kr)))
      by (first [exact (proj1 Hw1) | exact Hl1
                | intro kr; unfold Core.selected; simpl; apply orb_false_r]).
    cbn [Core.for_each]. unfold Core.mark_as_contacted, Core.save. cbv zeta.
    cbv beta iota delta [bind db_write ret]. rewrite Hup, Hl1. cbn [negb snd db].
    eexists. split; [apply lookup_update_same; rewrite Hl1; discriminate |].
    unfold r1. destruct (Core.contacted_at _), (String.eqb _ _); reflexivity.
Qed.

Lemma not_spam_then_contacted_witness :
  (exists r2,
     lookup 1 (db (snd (Services.run_admin_action Samples.refusing_env Services.MarkAsContacted [1]
       (snd (Services.run_admin_action Samples.refusing_env Services.MarkAsNotSpam [1]
          Samples.flagged_world))))) = Some r2 /\
     Services.is_spam r2 = true /\ Services.status r2 = "contacted") /\
  (exists r2,
     lookup 1 (db (snd (Core.run_admin_action Samples.refusing_env Core.MarkAsContacted [1]
       (snd (Core.run_admin_action Samples.refusing_env Core.MarkAsNotSpam [1]
          Samples.contact_world))))) = Some r2 /\
     Core.is_spam r2 = false).
Proof.
  split.
  - apply (proj1 not_spam_then_contacted Samples.refusing_env 1
             (Services.set_status "spam" (Services.set_is_spam true Samples.keyword_inquiry))
             Samples.flagged_world).
    + split; [repeat constructor; simpl; tauto | repeat constructor].
    + reflexivity.
    + reflexivity.
    + vm_compute. reflexivity.
    + vm_compute. reflexivity.
  - apply (proj2 not_spam_then_contacted Samples.refusing_env 1
             (Core.set_contacted_at (Some 5) (Core.set_status "contacted"
                (Samples.contact_inquiry Samples.plain_description "jane@acme.org" "10k_25k" "planned")))
             Samples.contact_world).
    + split; [repeat constructor; simpl; tauto | repeat constructor].
    + reflexivity.
    + reflexivity.
Defined.

Lemma substring_0_length (n : nat) (s : string) :
  String.length (substring 0 n s) = Nat.min n (String.length s).
Proof.
  revert s. induction n as [| n IH]; intros [| c t]; simpl; try reflexivity.
  rewrite IH. reflexivity.
Qed.

Lemma str_int_head (n : nat) : exists c t, ServiceModel.str_int n = String c t /\ isdigit c = true.
Proof.
  unfold ServiceModel.str_int, NilZero.string_of_uint.
  destruct (Nat.to_uint n); simpl; eexists; eexists; split; reflexivity.
Qed.

Lemma str_int_not_custom (n : nat) (t : string) : (ServiceModel.str_int n ++ t)%string <> "Custom timeline".
Proof.
  destruct (str_int_head n) as (c & u & -> & Hd). simpl. intro H. injection H as -> _.
  discriminate Hd.
Qed.

(** X13.  [get_delivery_display] says "Custom timeline" exactly when no
    positive delivery time is set; otherwise it shows a count of at least one
    day, week or month, rounded down, with the plural unit exactly when the
    count is not one. *)
Theorem delivery_display_shape (d : option nat) :
  (ServiceModel.get_delivery_display d = "Custom timeline" <-> d = None \/ d = Some 0) /\
  (forall days, d = Some days -> 1 <= days ->
     exists n unit size,
       ServiceModel.get_delivery_display d =
         (ServiceModel.str_int n ++ " " ++ unit ++ if Nat.eqb n 1 then "" else "s")%string /\
       ((unit, size) = ("day", 1) /\ days < 7 \/
        (unit, size) = ("week", 7) /\ 7 <= days < 30 \/
        (unit, size) = ("month", 30) /\ 30 <= days) /\
       1 <= n /\ n * size <= days < (n + 1) * size).
Proof.
  split.
  - unfold ServiceModel.get_delivery_display. destruct d as [days |]; [| split; auto].
    destruct (days =? 0) eqn:H0; [apply Nat.eqb_eq in H0; subst; split; auto |].
    apply Nat.eqb_neq in H0.
    split; [| intros [H | H]; [discriminate | injection H; lia]].
    destruct (days =? 1); [discriminate |].
    destruct (days <? 7); [| destruct (days <? 30)]; cbv zeta;
      intro H; exfalso; exact (str_int_not_custom _ _ H).
  - intros days -> Hpos. unfold ServiceModel.get_delivery_display.
    replace (days =? 0) with false by (symmetry; apply Nat.eqb_neq; lia).
    destruct (days =? 1) eqn:H1.
    + apply Nat.eqb_eq in H1. subst. exists 1, "day", 1. split; [reflexivity |].
      split; [left; split; [reflexivity | lia] | lia].
    + apply Nat.eqb_neq in H1. destruct (days <? 7) eqn:H7.
      * apply Nat.ltb_lt in H7. exists days, "day", 1.
        replace (days =? 1) with false by (symmetry; apply Nat.eqb_neq; lia).
        split; [reflexivity | split; [left; split; [reflexivity | lia] | lia]].
      * apply Nat.ltb_ge in H7. cbv zeta. destruct (days <? 30) eqn:H30.
        -- apply Nat.ltb_lt in H30. exists (days / 7), "week", 7.
           assert (Hq : 1 <= days / 7) by (apply Nat.div_le_lower_bound; lia).
           pose proof (Nat.div_mod days 7 ltac:(lia)) as Hdm.
           pose proof (Nat.mod_upper_bound days 7 ltac:(lia)) as Hmb.
           split; [| split; [right; left; split; [reflexivity | lia] | split; [exact Hq | nia]]].
           destruct (1 <? days / 7) eqn:Hw; [apply Nat.ltb_lt in Hw | apply Nat.ltb_ge in Hw];
             [replace (days / 7 =? 1) with false by (symmetry; apply Nat.eqb_neq; lia)
             | replace (days / 7 =? 1) with true by (symmetry; apply Nat.eqb_eq; lia)];
             reflexivity.
        -- apply Nat.ltb_ge in H30. exists (days / 30), "month", 30.
           assert (Hq : 1 <= days / 30) by (apply Nat.div_le_lower_bound; lia).
           pose proof (Nat.div_mod days 30 ltac:(lia)) as Hdm.
           pose proof (Nat.mod_upper_bound days 30 ltac:(lia)) as Hmb.
           split; [| split; [right; right; split; [reflexivity | lia] | split; [exact Hq | nia]]].
           destruct (1 <? days / 30) eqn:Hw; [apply Nat.ltb_lt in Hw | apply Nat.ltb_ge in Hw];
             [replace (days / 30 =? 1) with false by (symmetry; apply Nat.eqb_neq; lia)
             | replace (days / 30 =? 1) with true by (symmetry; apply Nat.eqb_eq; lia)];
             reflexivity.
Qed.

(** X14.  [Service.save] fills a blank slug from the title, a blank meta
    title with the title's first 60 characters and a blank meta description
    with the short description's first 160, keeps the fields already set
    (so an auto-filled meta field fits its column), and a second save
    changes nothing more. *)
Theorem service_save_fills_meta (slugify : string -> string) (s : ServiceModel.Service) :
  let s' := ServiceModel.fill_fields slugify s in
  ServiceModel.title s' = ServiceModel.title s /\ ServiceModel.short_description s' = ServiceModel.short_description s /\
  ServiceModel.slug s' = (if is_empty (ServiceModel.slug s) then slugify (ServiceModel.title s) else ServiceModel.slug s) /\
  ServiceModel.meta_title s' = (if is_empty (ServiceModel.meta_title s) then substring 0 60 (ServiceModel.title s)
                      else ServiceModel.meta_title s) /\
  ServiceModel.meta_description s' =
    (if is_empty (ServiceModel.meta_description s) then substring 0 160 (ServiceModel.short_description s)
     else ServiceModel.meta_description s) /\
  (is_empty (ServiceModel.meta_title s) = true -> String.length (ServiceModel.meta_title s') <= 60) /\
  (is_empty (ServiceModel.meta_description s) = true -> String.length (ServiceModel.meta_description s') <= 160) /\
  ServiceModel.fill_fields slugify s' = s'.
Proof.
  destruct s as [t sl sd mt md]. cbv zeta. unfold ServiceModel.fill_fields.
  destruct (is_empty sl) eqn:E1, (is_empty mt) eqn:E2, (is_empty md) eqn:E3;
    do 3 (cbv beta iota delta [ServiceModel.slug ServiceModel.title ServiceModel.short_description ServiceModel.meta_title
            ServiceModel.meta_description]; rewrite ?E1, ?E2, ?E3);
    (split; [reflexivity |]); (split; [reflexivity |]); (split; [reflexivity |]);
    (split; [reflexivity |]); (split; [reflexivity |]);
    (split; [intro H; try discriminate H; rewrite ?substring_0_length; try lia |]);
    (split; [intro H; try discriminate H; rewrite ?substring_0_length; try lia |]);
    do 3 (cbv beta iota delta [ServiceModel.slug ServiceModel.title ServiceModel.short_description ServiceModel.meta_title
            ServiceModel.meta_description]; rewrite ?E1, ?E2, ?E3);
    repeat (match goal with
            | |- context [if is_empty ?x then _ else _] =>
                lazymatch x with
                | context [if _ then _ else _] => fail
                | _ => let E := fresh "E" in destruct (is_empty x) eqn:E
                end
            end;
            cbv beta iota delta [ServiceModel.slug ServiceModel.title ServiceModel.short_description ServiceModel.meta_title
              ServiceModel.meta_description]);
    try congruence; reflexivity.
Qed.
